(** * The MCP host of [trial/]: tool base, tools, telemetry and chat loop

    A shallow embedding of the Python sources under [trial/] and the
    properties of its specification, settled against the code.

    Conventions of the embedding.
    - A Python [dict] is an association list in insertion order; the
      assignment [d[k] = v] is [Dict.set] (replace in place, else append).
      Python guarantees unique keys, which is the predicate [wf].
    - A Python [str] is a [string]; the characters that the code inspects
      (regex specials, quotes, white space, ASCII letters) are all ASCII.
    - An exception is a value of [exn]; a function that may raise returns
      a [result].
    - What a tool sends to MongoDB is a value of [db_request]: the database
      itself is an external collaborator and is not modelled. *)

From Stdlib Require Import String Ascii List ZArith Bool Lia Arith Sorted.
Import ListNotations.
Open Scope list_scope.
Open Scope string_scope.
Set Warnings "-register-all".

(** ** Exceptions and fallible computations *)

Inductive exn : Type :=
| ToolException (msg : string)
| HTTPException (status_code : Z) (detail : string)
| RuntimeError (msg : string)
| ValueError (msg : string)
| TypeError (msg : string)
| AttributeError (msg : string)
| LookupError (msg : string).

Inductive result (A : Type) : Type :=
| Ok (a : A)
| Raise (e : exn).
Arguments Ok {A} a.
Arguments Raise {A} e.

Definition bind {A B : Type} (m : result A) (f : A -> result B) : result B :=
  match m with
  | Ok a => f a
  | Raise e => Raise e
  end.

Notation "x <- m ;; k" := (bind m (fun x => k))
  (at level 61, m at next level, right associativity).

(** ** Characters and strings *)

Module Str.

Definition dquote : ascii := "034"%char.
Definition tab : ascii := "009"%char.
Definition newline : ascii := "010"%char.
Definition vtab : ascii := "011"%char.
Definition formfeed : ascii := "012"%char.
Definition creturn : ascii := "013"%char.

(** [k.startswith(p)] *)
Definition startswith (k p : string) : bool := String.prefix p k.

Fixpoint mem (c : ascii) (s : string) : bool :=
  match s with
  | EmptyString => false
  | String d t => Ascii.eqb c d || mem c t
  end.

(** [sep.join(l)] *)
Fixpoint join (sep : string) (l : list string) : string :=
  match l with
  | [] => EmptyString
  | [x] => x
  | x :: t => x ++ sep ++ join sep t
  end.

(** [x in l] for a list of strings *)
Definition in_list (x : string) (l : list string) : bool :=
  existsb (String.eqb x) l.

(** Python's [str.isspace] on one ASCII character: 9..13, 28..32. *)
Definition is_space (c : ascii) : bool :=
  let n := nat_of_ascii c in
  ((9 <=? n)%nat && (n <=? 13)%nat) || ((28 <=? n)%nat && (n <=? 32)%nat).

Fixpoint lstrip (s : string) : string :=
  match s with
  | EmptyString => EmptyString
  | String c t => if is_space c then lstrip t else s
  end.

Fixpoint rstrip (s : string) : string :=
  match s with
  | EmptyString => EmptyString
  | String c t =>
      match rstrip t with
      | EmptyString => if is_space c then EmptyString else String c EmptyString
      | r => String c r
      end
  end.

(** [s.strip()] *)
Definition strip (s : string) : string := rstrip (lstrip s).

(** ASCII [str.lower] on one character. *)
Definition lower_char (c : ascii) : ascii :=
  let n := nat_of_ascii c in
  if ((65 <=? n)%nat && (n <=? 90)%nat) then ascii_of_nat (n + 32) else c.

Fixpoint lower (s : string) : string :=
  match s with
  | EmptyString => EmptyString
  | String c t => String (lower_char c) (lower t)
  end.

End Str.

(** ** Documents: the values that travel in filters, pipelines and results *)

Inductive value : Type :=
| VNone
| VBool (b : bool)
| VInt (n : Z)
| VStr (s : string)
| VOid (hex : string)          (* bson.ObjectId *)
| VDate (t : Z)                (* datetime *)
| VList (l : list value)
| VDict (d : list (string * value)).

Definition dict : Type := list (string * value).

Section ValueInduction.
Variable P : value -> Prop.
Hypothesis HNone : P VNone.
Hypothesis HBool : forall b, P (VBool b).
Hypothesis HInt : forall n, P (VInt n).
Hypothesis HStr : forall s, P (VStr s).
Hypothesis HOid : forall h, P (VOid h).
Hypothesis HDate : forall t, P (VDate t).
Hypothesis HList : forall l, Forall P l -> P (VList l).
Hypothesis HDict : forall d, Forall (fun kv => P (snd kv)) d -> P (VDict d).

Fixpoint value_nested_ind (v : value) : P v :=
  match v with
  | VNone => HNone
  | VBool b => HBool b
  | VInt n => HInt n
  | VStr s => HStr s
  | VOid h => HOid h
  | VDate t => HDate t
  | VList l =>
      HList l ((fix all (l : list value) : Forall P l :=
                  match l with
                  | [] => Forall_nil _
                  | x :: t => Forall_cons x (value_nested_ind x) (all t)
                  end) l)
  | VDict d =>
      HDict d ((fix all (d : dict) : Forall (fun kv => P (snd kv)) d :=
                  match d with
                  | [] => Forall_nil _
                  | kv :: t => Forall_cons kv (value_nested_ind (snd kv)) (all t)
                  end) d)
  end.
End ValueInduction.

Module Dict.

(** [d.get(k)] *)
Fixpoint get (k : string) (d : dict) : option value :=
  match d with
  | [] => None
  | (k', v) :: t => if String.eqb k k' then Some v else get k t
  end.

(** [k in d] *)
Definition mem (k : string) (d : dict) : bool :=
  match get k d with Some _ => true | None => false end.

(** [d[k] = v]: an existing key keeps its place, a new key goes last. *)
Fixpoint set (k : string) (v : value) (d : dict) : dict :=
  match d with
  | [] => [(k, v)]
  | (k', v') :: t =>
      if String.eqb k k' then (k', v) :: t else (k', v') :: set k v t
  end.

(** [base.update(extra)] *)
Definition update (base extra : dict) : dict :=
  fold_left (fun acc kv => set (fst kv) (snd kv) acc) extra base.

(** The dict built by [out = {}; for k, v in items: out[k] = v], which is
    also what a dict comprehension over [items] builds. *)
Definition of_items (items : list (string * value)) : dict :=
  update [] items.

Definition keys (d : dict) : list string := map fst d.

(** [set(d) == set(ks)] *)
Definition keys_are (d : dict) (ks : list string) : bool :=
  forallb (fun k => Str.in_list k ks) (keys d)
  && forallb (fun k => mem k d) ks.

(** Truthiness of a dict: non-empty. *)
Definition truthy (d : dict) : bool :=
  match d with [] => false | _ => true end.

(** No key occurs twice. *)
Fixpoint fresh_keys (d : dict) : bool :=
  match d with
  | [] => true
  | (k, _) :: t => negb (mem k t) && fresh_keys t
  end.

End Dict.

(** Unique keys at every level: the values Python can build. *)
Fixpoint wfb (v : value) : bool :=
  match v with
  | VList l => forallb wfb l
  | VDict d =>
      (fix nodup (d : dict) : bool :=
         match d with
         | [] => true
         | (k, x) :: t => negb (Dict.mem k t) && wfb x && nodup t
         end) d
  | _ => true
  end.

Definition wf (v : value) : Prop := wfb v = true.

Definition is_dict_or_list (v : value) : bool :=
  match v with
  | VList _ | VDict _ => true
  | _ => false
  end.

(** ** Regular expressions used by the code *)

Module Re.

(** [re.escape]: a backslash before each of
    [()[]{}?*+-|^$\.&~#], space, tab, newline, CR, VT and FF. *)
Definition special (c : ascii) : bool :=
  Str.mem c "()[]{}?*+-|^$\.&~# "
  || existsb (Ascii.eqb c)
       [Str.tab; Str.newline; Str.creturn; Str.vtab; Str.formfeed].

Fixpoint escape (s : string) : string :=
  match s with
  | EmptyString => EmptyString
  | String c t =>
      if special c then String "\"%char (String c (escape t))
      else String c (escape t)
  end.

(** Splits off the last character of a string. *)
Fixpoint unsnoc (s : string) : option (string * ascii) :=
  match s with
  | EmptyString => None
  | String c t =>
      match unsnoc t with
      | None => Some (EmptyString, c)
      | Some (init, last) => Some (String c init, last)
      end
  end.

(** [re.fullmatch] of the pattern that [find] uses (start anchor, an
    escaped caret, a group of any characters but newline, an escaped dollar,
    end anchor), giving [m.group(1)]: the text is a caret, then characters
    other than newline, then a dollar. *)
Definition fullmatch_anchored (s : string) : option string :=
  match s with
  | String "^"%char rest =>
      match unsnoc rest with
      | Some (middle, "$"%char) =>
          if Str.mem Str.newline middle then None else Some middle
      | _ => None
      end
  | _ => None
  end.

End Re.

(** ** Filter transformations *)

(** The wrapper that the injection produces for a string. *)
Definition ci_regex (pattern : string) : value :=
  VDict [("$regex", VStr pattern); ("$options", VStr "i")].

Definition as_dict (v : value) : dict :=
  match v with VDict d => d | _ => [] end.

(** [tool_base._inject_case_insensitive] *)
Fixpoint _inject_case_insensitive (obj : value) : value :=
  match obj with
  | VDict d =>
      VDict (Dict.of_items
               (map (fun kv : string * value =>
                       let (k, v) := kv in
                       if Str.startswith k "$" && is_dict_or_list v
                       then (k, v)
                       else (k, _inject_case_insensitive v)) d))
  | VList l => VList (map _inject_case_insensitive l)
  | VStr s => ci_regex (Re.escape s)
  | _ => obj
  end.

Definition is_str (v : option value) (s : string) : bool :=
  match v with
  | Some (VStr s') => String.eqb s' s
  | _ => false
  end.

(** [find._unwrap_ci_regex]; [re.fullmatch] raises [TypeError] on a
    pattern argument that is not a string. *)
Fixpoint _unwrap_ci_regex (obj : value) : result value :=
  match obj with
  | VList l =>
      l' <- (fix each (l : list value) : result (list value) :=
               match l with
               | [] => Ok []
               | x :: t => x' <- _unwrap_ci_regex x ;;
                           t' <- each t ;;
                           Ok (x' :: t')
               end) l ;;
      Ok (VList l')
  | VDict d =>
      let comprehension :=
        items <- (fix each (d : dict) : result (list (string * value)) :=
                    match d with
                    | [] => Ok []
                    | (k, v) :: t => v' <- _unwrap_ci_regex v ;;
                                     t' <- each t ;;
                                     Ok ((k, v') :: t')
                    end) d ;;
        Ok (VDict (Dict.of_items items)) in
      if Dict.keys_are d ["$regex"; "$options"]
         && is_str (Dict.get "$options" d) "i"
      then
        match Dict.get "$regex" d with
        | Some (VStr p) =>
            match Re.fullmatch_anchored p with
            | Some literal => Ok (VStr literal)
            | None => comprehension
            end
        | _ => Raise (TypeError "expected string or bytes-like object")
        end
      else comprehension
  | _ => Ok obj
  end.

(** [aggregate._sanitize_pipeline_keys]: [clean] and its map over stages *)
Fixpoint clean (doc : value) : value :=
  match doc with
  | VDict d =>
      VDict (Dict.of_items
               (map (fun kv : string * value => let (k, v) := kv in (Str.strip k, clean v)) d))
  | VList l => VList (map clean l)
  | _ => doc
  end.

Definition _sanitize_pipeline_keys (pl : list value) : list value :=
  map clean pl.

Section IsoDates.
(** [dateutil.parser.isoparse], an external parser: [None] when it
    raises. *)
Variable isoparse : string -> option Z.

(** [aggregate._convert_iso_dates] *)
Fixpoint _convert_iso_dates (obj : value) : value :=
  match obj with
  | VDict d =>
      VDict (Dict.of_items
               (map (fun kv : string * value => let (k, v) := kv in (k, _convert_iso_dates v)) d))
  | VList l => VList (map _convert_iso_dates l)
  | VStr s =>
      match isoparse s with
      | Some t => VDate t
      | None => obj
      end
  | _ => obj
  end.
End IsoDates.

(** ** Tenant identifiers and the session *)

Definition is_hex (c : ascii) : bool :=
  Str.mem c "0123456789abcdefABCDEF".

(** [bson.ObjectId(s)] accepts a string of 24 hexadecimal digits. *)
Definition valid_object_id (s : string) : bool :=
  Nat.eqb (String.length s) 24
  && forallb is_hex (list_ascii_of_string s).

Module Session.

Record t := { _company_id : option string }.

Definition init : t := {| _company_id := None |}.

(** The property [current_company_id]. *)
Definition current_company_id (s : t) : option string := _company_id s.

(** The setter of [current_company_id]: [ObjectId(cid)], and [ValueError]
    for an invalid id. The stored id prints in lower case. *)
Definition set_current_company_id (s : t) (cid : string) : result t :=
  if valid_object_id cid
  then Ok {| _company_id := Some (Str.lower cid) |}
  else Raise (ValueError ("Invalid company_id: " ++ cid)).

End Session.

(** [company_id.make_company_filter]; [collection_name] is [None] when the
    caller passes Python's [None]. *)
Definition make_company_filter (collection_name : option string)
    (company_id : string) (extra_filter : option dict) : result dict :=
  match collection_name with
  | None => Raise (HTTPException 400 "collection_name must be a string")
  | Some name =>
      if valid_object_id company_id then
        let obj_id := VOid (Str.lower company_id) in
        let base :=
          if String.eqb name "companies"
          then [("_id", obj_id)]
          else [("company", obj_id)] in
        match extra_filter with
        | Some extra =>
            if Dict.truthy extra then Ok (Dict.update base extra) else Ok base
        | None => Ok base
        end
      else Raise (HTTPException 400 "Invalid company_id")
  end.

(** ** Configuration and tool arguments *)

Module Config.
Record t := {
  db_name : string;
  allowed_collections : option (list string);
  non_tenant_collections : list string
}.
End Config.

Module CountArgs.
Record t := {
  database : option string;
  collection : string;
  filter : dict
}.
End CountArgs.

Module FindArgs.
Record t := {
  database : option string;
  collection : option string;
  filter : dict;
  projection : option dict;
  sort : option (list (string * Z));
  skip : Z;
  limit : Z;
  stopAfterFirst : bool
}.
Definition with_filter (a : t) (f : dict) : t :=
  {| database := database a; collection := collection a; filter := f;
     projection := projection a; sort := sort a; skip := skip a;
     limit := limit a; stopAfterFirst := stopAfterFirst a |}.
End FindArgs.

(** [Union[str, List[str]]] *)
Inductive group_by : Type :=
| GroupStr (field : string)
| GroupList (fields : list string).

Module AggregateArgs.
Record t := {
  database : option string;
  collection : string;
  pipeline : option (list value);
  groupBy : option group_by;
  statField : option string;
  statOp : option string;
  filter : option dict;
  sortBy : option string;
  sortDir : option string;
  limit : option Z;
  allowDiskUse : bool
}.
Definition with_filter (a : t) (f : dict) : t :=
  {| database := database a; collection := collection a;
     pipeline := pipeline a; groupBy := groupBy a; statField := statField a;
     statOp := statOp a; filter := Some f; sortBy := sortBy a;
     sortDir := sortDir a; limit := limit a; allowDiskUse := allowDiskUse a |}.
Definition with_pipeline (a : t) (p : list value) : t :=
  {| database := database a; collection := collection a;
     pipeline := Some p; groupBy := groupBy a; statField := statField a;
     statOp := statOp a; filter := filter a; sortBy := sortBy a;
     sortDir := sortDir a; limit := limit a; allowDiskUse := allowDiskUse a |}.
End AggregateArgs.

Module CollectionSchemaArgs.
Record t := { collection : string; maxValues : Z }.
End CollectionSchemaArgs.

Module ListCollectionsArgs.
Record t := { database : option string }.
End ListCollectionsArgs.

Module SearchArgs.
Record t := { term : string; fuzzy_threshold : option Z }.
End SearchArgs.

(** A validated argument model, one case per tool. *)
Inductive validated : Type :=
| CountCall (a : CountArgs.t)
| FindCall (a : FindArgs.t)
| AggregateCall (a : AggregateArgs.t)
| CollectionSchemaCall (a : CollectionSchemaArgs.t)
| ListCollectionsCall (a : ListCollectionsArgs.t)
| SearchCall (a : SearchArgs.t).

(** The class attribute [name] of the tool. *)
Definition tool_name (v : validated) : string :=
  match v with
  | CountCall _ => "count"
  | FindCall _ => "find"
  | AggregateCall _ => "aggregate"
  | CollectionSchemaCall _ => "collection_schema"
  | ListCollectionsCall _ => "list_collections"
  | SearchCall _ => "search"
  end.

(** [validated.collection], when the model has the attribute. *)
Definition collection_of (v : validated) : option (option string) :=
  match v with
  | CountCall a => Some (Some (CountArgs.collection a))
  | FindCall a => Some (FindArgs.collection a)
  | AggregateCall a => Some (Some (AggregateArgs.collection a))
  | CollectionSchemaCall a => Some (Some (CollectionSchemaArgs.collection a))
  | ListCollectionsCall _ | SearchCall _ => None
  end.

(** [validated.filter or {}], when the model has the attribute. *)
Definition filter_of (v : validated) : option dict :=
  match v with
  | CountCall a => Some (CountArgs.filter a)
  | FindCall a => Some (FindArgs.filter a)
  | AggregateCall a =>
      Some (match AggregateArgs.filter a with Some f => f | None => [] end)
  | _ => None
  end.

(** [setattr(validated, "filter", filt)] *)
Definition set_filter (v : validated) (filt : dict) : validated :=
  match v with
  | CountCall a =>
      CountCall {| CountArgs.database := CountArgs.database a;
                   CountArgs.collection := CountArgs.collection a;
                   CountArgs.filter := filt |}
  | FindCall a => FindCall (FindArgs.with_filter a filt)
  | AggregateCall a => AggregateCall (AggregateArgs.with_filter a filt)
  | _ => v
  end.

(** [list(validated.pipeline or [])], when the model has the attribute. *)
Definition pipeline_of (v : validated) : option (list value) :=
  match v with
  | AggregateCall a =>
      Some (match AggregateArgs.pipeline a with Some p => p | None => [] end)
  | _ => None
  end.

(** [setattr(validated, "pipeline", pipeline)] *)
Definition set_pipeline (v : validated) (p : list value) : validated :=
  match v with
  | AggregateCall a => AggregateCall (AggregateArgs.with_pipeline a p)
  | _ => v
  end.

(** ** What a tool asks of MongoDB *)

Inductive find_scope : Type :=
| Collections (names : list string)
| ListedByDatabase.            (* db.list_collection_names(), cut at 100 *)

Inductive db_request : Type :=
| NoDatabase (result : value)
| CountDocuments (db coll : string) (filter_doc : dict)
| FindDocuments (db : string) (scope : find_scope) (filter_doc : value)
    (args : FindArgs.t)
| AggregateDocuments (db coll : string) (pipeline : list value)
    (allowDiskUse : bool)
| SearchDocuments (term : string) (threshold : Z) (company : string).

(** Whether serving the request touches the database. *)
Definition does_io (r : db_request) : bool :=
  match r with
  | NoDatabase _ => false
  | _ => true
  end.

Definition STATIC_COLLECTIONS : list string :=
  [ "companies"; "plans"; "brokers"; "broker-payments"; "contracts";
    "contractors"; "contractor-payments"; "general-expenses"; "lands";
    "projects"; "properties"; "property-bookings"; "property-payments";
    "rent-payments"; "tenants"; "leads"; "lead-assignments";
    "lead-rotations"; "lead-visited-properties"; "lead-notes"; "amenities";
    "cold-leads"; "lead-visited-properties" ].

Definition non_empty (s : string) : bool :=
  match s with EmptyString => false | _ => true end.

(** [a or b] for an optional string [a]. *)
Definition str_or (a : option string) (b : string) : string :=
  match a with
  | Some s => if non_empty s then s else b
  | None => b
  end.

(** [coll in names], where [coll] may be [None]. *)
Definition opt_in (coll : option string) (names : list string) : bool :=
  match coll with
  | Some c => Str.in_list c names
  | None => false
  end.

(** [sub in s] for two strings. *)
Fixpoint is_substring (sub s : string) : bool :=
  String.prefix sub s
  || match s with
     | EmptyString => false
     | String _ t => is_substring sub t
     end.

Definition value_is_str (v : value) (s : string) : bool :=
  match v with VStr s' => String.eqb s' s | _ => false end.

(** Python's [key in container] for a string key. *)
Definition contains (container : value) (key : string) : result bool :=
  match container with
  | VDict d => Ok (Dict.mem key d)
  | VList l => Ok (existsb (fun x => value_is_str x key) l)
  | VStr s => Ok (is_substring key s)
  | _ => Raise (TypeError "argument is not iterable")
  end.

(** [any(key in container for key in keys)] *)
Fixpoint any_in (keys : list string) (container : value) : result bool :=
  match keys with
  | [] => Ok false
  | k :: t =>
      b <- contains container k ;;
      if b then Ok true else any_in t container
  end.

(** The schema registry's entry for a collection. *)
Record schema := { fields : dict; values : dict }.

Fixpoint remove_underscores (s : string) : string :=
  match s with
  | EmptyString => EmptyString
  | String c t =>
      if Ascii.eqb c "_"%char then remove_underscores t
      else String c (remove_underscores t)
  end.

(** Python's [l[:n]]. *)
Definition slice_to (n : Z) (l : list value) : list value :=
  if (0 <=? n)%Z then firstn (Z.to_nat n) l
  else firstn (List.length l - Z.to_nat (- n)) l.

Section Tools.
Variable isoparse : string -> option Z.
(** [src.db_schema.SCHEMAS], the static registry, which is not among the
    sources: it is a parameter here. *)
Variable SCHEMAS : string -> option schema.
Variable cfg : Config.t.
Variable session : Session.t.

(** [self.db.name] *)
Definition db_name : string := Config.db_name cfg.

(** [aggregate.normalize_field_name] *)
Definition normalize_field_name (input_name collection : string) : string :=
  let flds := match SCHEMAS collection with
              | Some s => fields s
              | None => []
              end in
  let key := remove_underscores (Str.lower input_name) in
  match find (fun f => String.eqb (Str.lower f) key) (Dict.keys flds) with
  | Some schema_field => schema_field
  | None => input_name
  end.

Definition supported_op (op : string) : bool :=
  Str.in_list op ["avg"; "sum"; "min"; "max"].

(** The list [gf] of group fields; [None] when [groupBy] is falsy. *)
Definition group_fields (g : option group_by) : option (list string) :=
  match g with
  | Some (GroupStr f) => if non_empty f then Some [f] else None
  | Some (GroupList (f :: fs)) => Some (f :: fs)
  | _ => None
  end.

Definition truthy_str (s : option string) : option string :=
  match s with
  | Some x => if non_empty x then Some x else None
  | None => None
  end.

(** The group key: the single field, or a document of the fields. *)
Definition group_key (fs : list string) : value :=
  match fs with
  | [f] => VStr f
  | _ => VDict (Dict.of_items (map (fun f => (f, VStr ("$" ++ f))) fs))
  end.

Definition id_paths (fs : list string) : list (string * value) :=
  map (fun f => (f, VStr ("$_id." ++ f))) fs.

(** The stages that follow the initial [$match], by mode. *)
Definition mode_stages (args : AggregateArgs.t) : result (list value) :=
  let coll := AggregateArgs.collection args in
  match AggregateArgs.pipeline args with
  | Some (st :: sts) => Ok (_sanitize_pipeline_keys (st :: sts))
  | _ =>
      match group_fields (AggregateArgs.groupBy args),
            truthy_str (AggregateArgs.statField args),
            truthy_str (AggregateArgs.statOp args) with
      | Some g, Some statField, Some statOp =>
          let gf := map (fun f => normalize_field_name f coll) g in
          let sf := normalize_field_name statField coll in
          let op := Str.lower statOp in
          if supported_op op then
            let key := group_key gf in
            let proj :=
              match key with
              | VStr _ =>
                  Dict.set "group" (VStr "$_id")
                    [("_id", VInt 0); ("stat", VInt 1)]
              | _ =>
                  Dict.update [("_id", VInt 0); ("stat", VInt 1)]
                    (id_paths gf)
              end in
            Ok [ VDict [("$group",
                         VDict [("_id", key);
                                ("stat", VDict [("$" ++ op,
                                                 VStr ("$" ++ sf))])])];
                 VDict [("$project", VDict proj)] ]
          else Raise (ToolException ("Unsupported statOp '" ++ statOp ++ "'"))
      | _, Some statField, Some statOp =>
          let sf := normalize_field_name statField coll in
          let op := Str.lower statOp in
          if supported_op op then
            Ok [ VDict [("$group",
                         VDict [("_id", VNone);
                                ("result", VDict [("$" ++ op,
                                                   VStr ("$" ++ sf))])])];
                 VDict [("$project",
                         VDict [("_id", VInt 0); ("result", VInt 1)])] ]
          else Raise (ToolException ("Unsupported statOp '" ++ statOp ++ "'"))
      | Some g, _, _ =>
          let nf := map (fun f => normalize_field_name f coll) g in
          let gid := group_key nf in
          let group_stage :=
            VDict [("$group",
                    VDict [("_id", gid);
                           ("count", VDict [("$sum", VInt 1)])])] in
          let spread :=
            match gid with
            | VStr _ => [("field", VStr "$_id")]
            | _ => id_paths nf
            end in
          let project_stage :=
            VDict [("$project",
                    VDict (Dict.of_items
                             (spread ++ [("count", VInt 1); ("_id", VInt 0)])%list))] in
          Ok [ VDict [("$facet",
                       VDict [("total",
                               VList [VDict [("$count", VStr "total")]]);
                              ("byGroup",
                               VList [group_stage; project_stage])])] ]
      | None, _, _ => Ok [ VDict [("$count", VStr "count")] ]
      end
  end.

(** Step 1 of [AggregateTool.execute]: [args.filter or {}] with the
    tenant written under [company]. *)
Definition base_filter (args : AggregateArgs.t) : dict :=
  let user_filter :=
    match AggregateArgs.filter args with
    | Some f => f
    | None => []
    end in
  match Session.current_company_id session with
  | Some tenant => Dict.set "company" (VOid tenant) user_filter
  | None => user_filter
  end.

(** [AggregateTool.execute]: the pipeline handed to [coll.aggregate].
    Exceptions other than [ToolException] leave as
    [ToolException("Aggregation failed: ...")]. *)
Definition aggregate_execute (args : AggregateArgs.t) : result db_request :=
  let coll := AggregateArgs.collection args in
  let db := str_or (AggregateArgs.database args) db_name in
  let match_stage :=
    VDict [("$match",
            _inject_case_insensitive
              (_convert_iso_dates isoparse (VDict (base_filter args))))] in
  rest <- mode_stages args ;;
  let pipeline := match_stage :: rest in
  let is_facet :=
    existsb (fun stage => Dict.mem "$facet" (as_dict stage)) pipeline in
  sorted <-
    match truthy_str (AggregateArgs.sortBy args) with
    | Some sortBy =>
        if is_facet then Ok pipeline
        else
          match AggregateArgs.sortDir args with
          | Some dir =>
              let sf := normalize_field_name sortBy coll in
              let direction :=
                if String.eqb (Str.lower dir) "desc" then (-1)%Z else 1%Z in
              Ok (pipeline ++ [VDict [("$sort", VDict [(sf, VInt direction)])]])%list
          | None =>
              Raise (ToolException
                       "Aggregation failed: 'NoneType' object has no attribute 'lower'")
          end
    | None => Ok pipeline
    end ;;
  let limited :=
    match AggregateArgs.limit args with
    | Some n =>
        if negb (Z.eqb n 0) && negb is_facet
        then (sorted ++ [VDict [("$limit", VInt n)]])%list
        else sorted
    | None => sorted
    end in
  Ok (AggregateDocuments db coll (_sanitize_pipeline_keys limited)
        (AggregateArgs.allowDiskUse args)).

(** [CountTool.execute] *)
Definition count_execute (args : CountArgs.t) : result db_request :=
  Ok (CountDocuments (str_or (CountArgs.database args) db_name)
        (CountArgs.collection args) (CountArgs.filter args)).

Definition MAX_COLLECTIONS_SCAN : nat := 100.

(** [FindTool.execute] up to the queries it issues. *)
Definition find_execute (args : FindArgs.t) : result db_request :=
  filter_doc <- _unwrap_ci_regex (VDict (FindArgs.filter args)) ;;
  let db := str_or (FindArgs.database args) db_name in
  let scope :=
    match truthy_str (FindArgs.collection args) with
    | Some c => Collections [c]
    | None =>
        match Config.allowed_collections cfg with
        | Some (c :: cs) => Collections (firstn MAX_COLLECTIONS_SCAN (c :: cs))
        | _ => ListedByDatabase
        end
    end in
  Ok (FindDocuments db scope filter_doc args).

(** [ListCollectionsTool.execute] *)
Definition list_collections_execute : value :=
  VDict [("result", VList (map VStr STATIC_COLLECTIONS))].

(** [CollectionSchemaTool.execute] *)
Definition collection_schema_execute (args : CollectionSchemaArgs.t)
  : result db_request :=
  let coll := CollectionSchemaArgs.collection args in
  match SCHEMAS coll with
  | None => Raise (ToolException ("Unknown collection '" ++ coll ++ "'"))
  | Some s =>
      let truncated :=
        Dict.of_items
          (map (fun field =>
                  (field,
                   match Dict.get field (values s) with
                   | Some (VList vs) =>
                       VList (slice_to (CollectionSchemaArgs.maxValues args) vs)
                   | Some other => other
                   | None => VList []
                   end))
             (Dict.keys (fields s))) in
      Ok (NoDatabase (VDict [("fields", VDict (fields s));
                             ("values", VDict truncated)]))
  end.

(** [SearchTool.execute] starts its scan of the collections with the
    term and the tenant; the scan itself is the database's work. *)
Definition search_execute (args : SearchArgs.t) : result db_request :=
  match Session.current_company_id session with
  | Some t =>
      Ok (SearchDocuments (Str.strip (SearchArgs.term args))
            (match SearchArgs.fuzzy_threshold args with
             | Some n => if Z.eqb n 0 then 80%Z else n
             | None => 80%Z
             end) t)
  | None => Raise (TypeError "id must be an instance of (bytes, str, ObjectId)")
  end.

(** The dispatch [impl(validated)]. *)
Definition execute (v : validated) : result db_request :=
  match v with
  | CountCall a => count_execute a
  | FindCall a => find_execute a
  | AggregateCall a => aggregate_execute a
  | CollectionSchemaCall a => collection_schema_execute a
  | ListCollectionsCall _ => Ok (NoDatabase list_collections_execute)
  | SearchCall a => search_execute a
  end.

(** [ToolBase.run] of [ListCollectionsTool] on [{}]: its model has
    neither [filter], [pipeline] nor [collection], so only the tenant
    check stands before [execute]. *)
Definition list_collections_run : result value :=
  match Session.current_company_id session with
  | None => Raise (RuntimeError "No tenant ID set on session.current_company_id.")
  | Some _ => Ok list_collections_execute
  end.

(** Lines 59-70 of [ToolBase.run]: tenant scope and case-insensitive
    injection of the filter. *)
Definition scope_filter (tenant_id : string) (coll : option string)
    (extra : dict) : result dict :=
  if opt_in coll (Config.non_tenant_collections cfg) then
    Ok (if Dict.truthy extra
        then as_dict (_inject_case_insensitive (VDict extra))
        else [])
  else
    filt <- make_company_filter coll tenant_id (Some extra) ;;
    Ok (as_dict (_inject_case_insensitive (VDict filt))).

(** Lines 72-88 of [ToolBase.run]: tenant scope of the pipeline. *)
Definition scope_pipeline (tenant_id : string) (coll : option string)
    (pipeline : list value) : result (list value) :=
  if opt_in coll (Config.non_tenant_collections cfg) then Ok pipeline
  else
    tenant_match <- make_company_filter coll tenant_id None ;;
    let first_stage :=
      match pipeline with
      | st :: _ => st
      | [] => VDict []
      end in
    keyed <-
      match first_stage with
      | VDict st =>
          match Dict.get "$match" st with
          | Some m => any_in (Dict.keys tenant_match) m
          | None => Ok false
          end
      | _ => Ok false
      end ;;
    if keyed then Ok pipeline
    else Ok (VDict [("$match", VDict tenant_match)] :: pipeline).

Fixpoint strings_of (l : list value) : result (list string) :=
  match l with
  | [] => Ok []
  | VStr s :: t => t' <- strings_of t ;; Ok (s :: t')
  | _ :: _ => Raise (TypeError "sequence item: expected str instance")
  end.

(** Lines 90-106 of [ToolBase.run]: the allow-list. *)
Definition check_allowed (coll : option string) : result unit :=
  match truthy_str coll, Config.allowed_collections cfg with
  | Some c, Some (a :: al) =>
      if Str.in_list c (a :: al) then Ok tt
      else
        lc <- list_collections_run ;;
        let whitelist :=
          match Dict.get "collections" (as_dict lc) with
          | Some (VList w) => w
          | _ => []
          end in
        match whitelist with
        | [] =>
            Raise (ToolException
                     "No collections are currently allowed. Check your `allowed_collections` configuration.")
        | _ =>
            names <- strings_of whitelist ;;
            Raise (ToolException
                     ("Collection '" ++ c ++ "' not in allowed list. "
                      ++ "Allowed collections: " ++ Str.join ", " names))
        end
  | _, _ => Ok tt
  end.

(** The [try] around [impl(validated)]: a [ToolException] passes, any
    other exception becomes the uniform internal error. *)
Definition guarded {A : Type} (name : string) (r : result A) : result A :=
  match r with
  | Ok x => Ok x
  | Raise (ToolException m) => Raise (ToolException m)
  | Raise _ =>
      Raise (ToolException ("An internal error occurred in '" ++ name ++ "'"))
  end.

(** The arguments as they reach [impl]: after tenant scope, injection
    and the allow-list. *)
Definition prepare (v : validated) : result validated :=
  match Session.current_company_id session with
  | None => Raise (RuntimeError "No tenant ID set on session.current_company_id.")
  | Some tenant_id =>
      v1 <- match filter_of v, collection_of v with
            | Some extra, Some coll =>
                filt <- scope_filter tenant_id coll extra ;;
                Ok (set_filter v filt)
            | _, _ => Ok v
            end ;;
      v2 <- match pipeline_of v1, collection_of v1 with
            | Some pipeline, Some coll =>
                p <- scope_pipeline tenant_id coll pipeline ;;
                Ok (set_pipeline v1 p)
            | _, _ => Ok v1
            end ;;
      _ <- match collection_of v2 with
           | Some coll => check_allowed coll
           | None => Ok tt
           end ;;
      Ok v2
  end.

(** [ToolBase.run] up to the request that [impl] sends; [model] is the
    outcome of building [self.Model] from the raw arguments: the text of
    the [ValidationError], or the validated arguments. *)
Definition run_request (model : string + validated) : result db_request :=
  match model with
  | inl e => Raise (ToolException ("Invalid arguments: " ++ e))
  | inr v =>
      v' <- prepare v ;;
      guarded (tool_name v') (execute v')
  end.

(** The database: what [impl] returns once the request is answered, or
    the exception that leaves it. *)
Variable db : db_request -> result value.

Definition respond (req : db_request) : result value :=
  match req with
  | NoDatabase v => Ok v
  | _ => db req
  end.

(** [ToolBase.run]. The telemetry that it records around [impl] is the
    subject of [Telemetry.record]. *)
Definition run (model : string + validated) : result value :=
  match model with
  | inl e => Raise (ToolException ("Invalid arguments: " ++ e))
  | inr v =>
      v' <- prepare v ;;
      guarded (tool_name v') (req <- execute v' ;; respond req)
  end.

(** The tool registry: the argument model of each registered tool. *)
Variable models : string -> option (dict -> string + validated).

(** [RpcServer.call_tool] *)
Definition rpc_server_call_tool (name : string) (arguments : dict)
  : result value :=
  match models name with
  | None => Raise (ValueError ("Tool '" ++ name ++ "' not found"))
  | Some validate => run (validate arguments)
  end.

End Tools.

(** ** Telemetry *)

Module Telemetry.

Definition _SENSITIVE_KEYS : list string :=
  [ "password"; "pwd"; "secret"; "apiKey"; "accessToken";
    "authorization"; "clientSecret"; "privateKey" ].

(** *** The redaction pattern [_RE]

    A double quote, one of the sensitive keys (letters compared without
    case), a double quote, optional white space, a colon, optional white
    space, then a quoted run of one or more characters other than the
    double quote. Group 1 is everything before that last quoted run. *)

(** The key at the head of [s], compared without case: the text it
    covers and what follows. *)
Fixpoint take_key (key s : string) : option (string * string) :=
  match key, s with
  | EmptyString, _ => Some (EmptyString, s)
  | String k key', String c s' =>
      if Ascii.eqb (Str.lower_char k) (Str.lower_char c) then
        match take_key key' s' with
        | Some (covered, rest) => Some (String c covered, rest)
        | None => None
        end
      else None
  | String _ _, EmptyString => None
  end.

Definition take_char (c : ascii) (s : string) : option string :=
  match s with
  | String d t => if Ascii.eqb c d then Some t else None
  | EmptyString => None
  end.

(** A sensitive key and its closing quote at the head of [s]. *)
Fixpoint take_quoted_key (keys : list string) (s : string)
  : option (string * string) :=
  match keys with
  | [] => None
  | key :: more =>
      match take_key key s with
      | Some (covered, rest) =>
          match take_char Str.dquote rest with
          | Some rest' => Some (covered, rest')
          | None => take_quoted_key more s
          end
      | None => take_quoted_key more s
      end
  end.

(** The longest run of white space at the head of [s]. *)
Fixpoint take_spaces (s : string) : string * string :=
  match s with
  | String c t =>
      if Str.is_space c then
        let (sp, rest) := take_spaces t in (String c sp, rest)
      else (EmptyString, s)
  | EmptyString => (EmptyString, EmptyString)
  end.

(** The longest run of characters other than the double quote. *)
Fixpoint take_unquoted (s : string) : string * string :=
  match s with
  | String c t =>
      if Ascii.eqb c Str.dquote then (EmptyString, s)
      else let (run, rest) := take_unquoted t in (String c run, rest)
  | EmptyString => (EmptyString, EmptyString)
  end.

Definition quote_str : string := String Str.dquote EmptyString.

(** A match of [_RE] at the head of [s]: group 1 and the length of the
    whole match. *)
Definition match_here (s : string) : option (string * nat) :=
  match take_char Str.dquote s with
  | None => None
  | Some s1 =>
      match take_quoted_key _SENSITIVE_KEYS s1 with
      | None => None
      | Some (key, s2) =>
          let (sp1, s3) := take_spaces s2 in
          match take_char ":"%char s3 with
          | None => None
          | Some s4 =>
              let (sp2, s5) := take_spaces s4 in
              match take_char Str.dquote s5 with
              | None => None
              | Some s6 =>
                  let (secret, s7) := take_unquoted s6 in
                  match secret, take_char Str.dquote s7 with
                  | String _ _, Some _ =>
                      let group1 :=
                        quote_str ++ key ++ quote_str ++ sp1 ++ ":" ++ sp2 in
                      Some (group1,
                            String.length group1 + String.length secret + 2)
                  | _, _ => None
                  end
              end
          end
      end
  end.

Definition REDACTED : string := quote_str ++ "<REDACTED>" ++ quote_str.

(** [_RE.sub] with the replacement group 1 followed by the quoted text
    [<REDACTED>]: the leftmost matches, without overlap; [skip] counts
    the characters of the current match still to pass over. *)
Fixpoint sub_from (skip : nat) (s : string) : string :=
  match s with
  | EmptyString => EmptyString
  | String c t =>
      match skip with
      | S k => sub_from k t
      | O =>
          match match_here s with
          | Some (group1, n) => group1 ++ REDACTED ++ sub_from (n - 1) t
          | None => String c (sub_from 0 t)
          end
      end
  end.

Definition _RE_sub (s : string) : string := sub_from 0 s.

(** The inner [redact_val] of [_redact_dict] *)
Fixpoint redact_val (v : value) : value :=
  match v with
  | VStr s => VStr (_RE_sub s)
  | VDict d =>
      VDict (Dict.of_items
               (map (fun kv : string * value =>
                       let (k, vv) := kv in (k, redact_val vv)) d))
  | VList l => VList (map redact_val l)
  | _ => v
  end.

(** [telemetry._redact_dict] *)
Definition _redact_dict (d : dict) : dict :=
  Dict.of_items
    (map (fun kv : string * value => let (k, v) := kv in (k, redact_val v)) d).

(** A telemetry event. *)
Record event := {
  command : string;
  durationMs : Z;
  success : bool;
  timestamp : Z;
  arguments : option dict;
  metadata : option dict
}.

(** *** The buffer: [cachetools.LRUCache]

    The entries are kept least recently used first. Every value has size
    one. *)
Module LRUCache.

Record t := { maxsize : nat; items : list (nat * event) }.

Definition empty (n : nat) : t := {| maxsize := n; items := [] |}.

Definition len (c : t) : nat := List.length (items c).

Definition keys (c : t) : list nat := map fst (items c).

Definition has (k : nat) (c : t) : bool := existsb (Nat.eqb k) (keys c).

Definition remove (k : nat) (l : list (nat * event)) : list (nat * event) :=
  filter (fun kv => negb (Nat.eqb k (fst kv))) l.

(** [cache.pop(k, None)] *)
Definition pop (k : nat) (c : t) : t :=
  {| maxsize := maxsize c; items := remove k (items c) |}.

(** [popitem] until one more entry fits: the least recently used go. *)
Fixpoint make_room (n : nat) (l : list (nat * event)) : list (nat * event) :=
  match l with
  | [] => []
  | _ :: t => if (List.length l + 1 <=? n)%nat then l else make_room n t
  end.

(** [cache[k] = v] *)
Definition setitem (k : nat) (v : event) (c : t) : result t :=
  if (maxsize c <? 1)%nat then Raise (ValueError "value too large")
  else
    let kept :=
      if has k c then remove k (items c)
      else make_room (maxsize c) (items c) in
    Ok {| maxsize := maxsize c; items := (kept ++ [(k, v)])%list |}.

End LRUCache.

(** [min(keys)]; [None] for no key, where Python raises [ValueError]. *)
Definition min_key (ks : list nat) : option nat :=
  match ks with
  | [] => None
  | k :: t => Some (fold_left Nat.min t k)
  end.

Record t := {
  enabled : bool;
  _cache : LRUCache.t;
  _next_idx : nat
}.

(** [Telemetry.__init__]; [cap] is the configured
    [telemetry_cache_size], 1000 by default. *)
Definition init (is_enabled : bool) (cap : nat) : t :=
  {| enabled := is_enabled; _cache := LRUCache.empty cap; _next_idx := 0 |}.

Definition default_cache_size : nat := 1000.

(** One call of [record]: its arguments, the clock reading and the
    platform description used for [server_start]. *)
Record call := {
  call_command : string;
  call_duration_ms : Z;
  call_success : bool;
  call_arguments : option dict;
  call_now : Z;
  call_platform : dict
}.

(** The event that [record] builds. *)
Definition event_of (c : call) : event :=
  {| command := call_command c;
     durationMs := call_duration_ms c;
     success := call_success c;
     timestamp := call_now c;
     arguments :=
       match call_arguments c with
       | Some a => if Dict.truthy a then Some (_redact_dict a) else None
       | None => None
       end;
     metadata :=
       if String.eqb (call_command c) "server_start"
       then Some (call_platform c) else None |}.

(** [Telemetry.record] *)
Definition record (tel : t) (c : call) : result t :=
  if negb (enabled tel) then Ok tel
  else
    let ev := event_of c in
    let cache := _cache tel in
    cache1 <-
      (if (LRUCache.maxsize cache <=? LRUCache.len cache)%nat then
         match min_key (LRUCache.keys cache) with
         | Some oldest => Ok (LRUCache.pop oldest cache)
         | None => Raise (ValueError "min() arg is an empty sequence")
         end
       else Ok cache) ;;
    cache2 <- LRUCache.setitem (_next_idx tel) ev cache1 ;;
    Ok {| enabled := enabled tel;
          _cache := cache2;
          _next_idx := S (_next_idx tel) |}.

(** A sequence of [record] calls; a call that raises leaves the
    telemetry as it was. *)
Definition record_all (tel : t) (calls : list call) : t :=
  fold_left (fun acc c => match record acc c with
                          | Ok acc' => acc'
                          | Raise _ => acc
                          end) calls tel.

(** The buffer of a telemetry that only ever recorded: the indices grow
    along the entries, stay below the next index, and the entries fit
    the cap. *)
Record invariant (cap : nat) (tel : t) : Prop := {
  inv_cap : LRUCache.maxsize (_cache tel) = cap;
  inv_sorted : StronglySorted lt (LRUCache.keys (_cache tel));
  inv_below : Forall (fun k => k < _next_idx tel) (LRUCache.keys (_cache tel));
  inv_len : LRUCache.len (_cache tel) <= cap
}.

End Telemetry.

(** ** The RPC server and the host utilities *)

(** Python truthiness of a value. *)
Definition truthy (v : value) : bool :=
  match v with
  | VNone => false
  | VBool b => b
  | VInt n => negb (Z.eqb n 0)
  | VStr s => non_empty s
  | VList l => match l with [] => false | _ => true end
  | VDict d => Dict.truthy d
  | VOid _ | VDate _ => true
  end.

(** [v == 0] *)
Definition equals_zero (v : value) : bool :=
  match v with
  | VInt n => Z.eqb n 0
  | VBool b => negb b
  | _ => false
  end.

Definition _BIG_FIELDS : list string :=
  [ "images"; "videos"; "documents"; "brochure"; "qrCode";
    "govtApprovedDocuments"; "layoutPlanImages" ].

Definition _MAX_DOCS : nat := 15.

Section Host.
(** [datetime.isoformat] and Python's [str], both external. *)
Variable isoformat : Z -> string.
Variable str_of : value -> string.

(** [app_utils.to_json_safe] *)
Definition to_json_safe (obj : value) : value :=
  match obj with
  | VOid h => VStr h
  | VDate t => VStr (isoformat t)
  | _ => obj
  end.

(** [app_utils.trim_document] on a document; the recursion runs over
    the enclosing value. *)
Fixpoint trim_value (v : value) : value :=
  match v with
  | VDict doc =>
      VDict
        (Dict.of_items
           ((fix each (d : dict) : list (string * value) :=
               match d with
               | [] => []
               | (k, x) :: t =>
                   if String.eqb k "__v" || Str.in_list k _BIG_FIELDS
                   then each t
                   else
                     match x with
                     | VDict _ => (k, trim_value x) :: each t
                     | VList l =>
                         (k, VList
                               ((fix elems (l : list value) (n : nat)
                                   : list value :=
                                   match l, n with
                                   | y :: l', S n' =>
                                       match y with
                                       | VDict _ => trim_value y
                                       | _ => to_json_safe y
                                       end :: elems l' n'
                                   | _, _ => []
                                   end) l 10)) :: each t
                     | _ => (k, to_json_safe x) :: each t
                     end
               end) doc))
  | _ => v
  end.

Definition trim_document (doc : dict) : dict :=
  as_dict (trim_value (VDict doc)).

Definition trim_if_dict (d : value) : value :=
  match d with
  | VDict doc => VDict (trim_document doc)
  | _ => d
  end.

(** [value[:_MAX_DOCS]] followed by iteration, for the values the tools
    return under these keys; [None] where Python raises. *)
Definition first_docs (v : option value) : option (list value) :=
  match v with
  | None => Some []
  | Some (VList l) => Some (firstn _MAX_DOCS l)
  | Some _ => None
  end.

Fixpoint all_some {A : Type} (l : list (option A)) : option (list A) :=
  match l with
  | [] => Some []
  | Some x :: t =>
      match all_some t with
      | Some t' => Some (x :: t')
      | None => None
      end
  | None :: _ => None
  end.

Definition trim_bucket (bucket : value) : option value :=
  match bucket with
  | VDict b =>
      match first_docs (Dict.get "documents" b) with
      | Some docs =>
          Some (VDict (Dict.set "documents" (VList (map trim_if_dict docs)) b))
      | None => None
      end
  | _ => None
  end.

Definition trim_hit (h : value) : option value :=
  match h with
  | VDict hd =>
      match Dict.get "_id" hd, Dict.get "matches" hd with
      | Some i, Some m => Some (VDict [("_id", VStr (str_of i)); ("matches", m)])
      | _, _ => None
      end
  | _ => None
  end.

Definition trim_entry (entry : value) : option value :=
  match entry with
  | VDict e =>
      match Dict.get "collection" e, first_docs (Dict.get "hits" e) with
      | Some c, Some hits =>
          match all_some (map trim_hit hits) with
          | Some hs => Some (VDict [("collection", c); ("hits", VList hs)])
          | None => None
          end
      | _, _ => None
      end
  | _ => None
  end.

Definition list_or_empty (v : option value) : option (list value) :=
  match v with
  | None => Some []
  | Some (VList l) => Some l
  | Some _ => None
  end.

Definition or_raw {A : Type} (raw : A) (o : option A) : A :=
  match o with Some x => x | None => raw end.

(** [app_utils.trim_result]; an exception inside gives [raw] back. *)
Definition trim_result (tool : string) (raw : value) : value :=
  match raw with
  | VDict r =>
      if String.eqb tool "find" then
        or_raw raw
          (match list_or_empty (Dict.get "results" r) with
           | Some buckets =>
               match all_some (map trim_bucket buckets) with
               | Some bs => Some (VDict (Dict.set "results" (VList bs) r))
               | None => None
               end
           | None => None
           end)
      else if String.eqb tool "aggregate" then
        or_raw raw
          (match first_docs (Dict.get "result" r) with
           | Some docs =>
               Some (VDict (Dict.set "result" (VList (map trim_if_dict docs)) r))
           | None => None
           end)
      else if String.eqb tool "search" then
        or_raw raw
          (match list_or_empty (Dict.get "results" r) with
           | Some entries =>
               match all_some (map trim_entry entries) with
               | Some es => Some (VDict [("results", VList es)])
               | None => None
               end
           | None => None
           end)
      else raw
  | _ => raw
  end.

Definition get_or (k : string) (default : value) (d : dict) : value :=
  match Dict.get k d with Some v => v | None => default end.

(** [app_utils.result_is_empty]; a result that is no dict makes [get]
    raise, which the function answers with [False]. *)
Definition result_is_empty (tool : string) (result : value) : bool :=
  match result with
  | VDict r =>
      if String.eqb tool "count" then equals_zero (get_or "result" (VInt 0) r)
      else if String.eqb tool "find" then
        equals_zero (get_or "total_documents" (VInt 0) r)
      else if String.eqb tool "aggregate" then
        negb (truthy (get_or "result" VNone r))
      else if String.eqb tool "search" then
        negb (truthy (get_or "results" VNone r))
      else false
  | _ => false
  end.

(** [RpcServer.call_tool] as the host sees it: the session with the
    tenant set, the tool name and the raw arguments. *)
Variable rpc_call_tool : Session.t -> string -> dict -> result value.

(** The [find] branch of [call_tool]: a string [_id] that is a valid
    ObjectId is converted in the filter. *)
Definition convert_find_id (args : dict) : result dict :=
  match get_or "filter" (VDict []) args with
  | VDict filt =>
      match Dict.get "_id" filt with
      | Some (VStr i) =>
          if valid_object_id i
          then Ok (Dict.set "filter"
                     (VDict (Dict.set "_id" (VOid (Str.lower i)) filt)) args)
          else Ok args
      | _ => Ok args
      end
  | _ => Raise (AttributeError "object has no attribute 'get'")
  end.

(** [app_utils.call_tool] *)
Definition call_tool (name : string) (args : dict) (company_id : string)
    (session : Session.t) : result (value * bool) :=
  match Session.set_current_company_id session company_id with
  | Raise _ => Raise (HTTPException 500 "Internal server error")
  | Ok session' =>
      args' <- (if String.eqb name "find" then convert_find_id args
                else Ok args) ;;
      match rpc_call_tool session' name args' with
      | Raise (ToolException te) => Raise (HTTPException 400 te)
      | Raise _ => Raise (HTTPException 500 "Internal server error")
      | Ok raw =>
          let shrunk := trim_result name raw in
          Ok (shrunk, result_is_empty name shrunk)
      end
  end.

End Host.

(** ** The chat loop *)

Inductive message : Type :=
| System (content : string)
| User (content : string)
| Assistant (content : string)
| AssistantCall (name : string) (arguments : value)
| Function (name : string) (content : value).

(** What the model answers: a function call, or a final text. *)
Inductive llm_move : Type :=
| FunctionCall (name : string) (arguments : dict)
| Content (text : string).

Definition NO_DATA : string := "No data found—please refine your question.".
Definition STILL_NO_DATA : string := "Still no data—maybe try differently?".
Definition ROUTE_DATA : string :=
  "{" ++ Telemetry.quote_str ++ "route" ++ Telemetry.quote_str ++ ":"
      ++ Telemetry.quote_str ++ "data" ++ Telemetry.quote_str ++ "}".

Module Chat.

(** The variables of the loop of [_run_chat]. *)
Record state := {
  messages : list message;
  found : bool;
  retries : nat
}.

Inductive outcome : Type :=
| Replied (reply : string) (final : state)
| Failed (e : exn)
| Waiting (st : state).        (* the next answer of the model is awaited *)

Section Loop.
(** [_ct]: [call_tool] with the session and the RPC server fixed. *)
Variable _ct : string -> dict -> string -> result (value * bool).
(** [async_replace_ids_with_names]; [None] when it raises. *)
Variable enrich : value -> option value.
(** The summarising call; [None] when it raises. *)
Variable summarize : string -> string -> option string.
Variable company_id : string.
Variable query : string.

Definition push (st : state) (ms : list message) : state :=
  {| messages := (messages st ++ ms)%list;
     found := found st;
     retries := retries st |}.

(** The follow-up [find] that a non-empty [search] result suggests. *)
Definition follow_up (res : value) : result message :=
  match Dict.get "results" (as_dict res) with
  | Some (VList (VDict top :: _)) =>
      match Dict.get "collection" top, Dict.get "hits" top with
      | Some c, Some (VList (VDict hit :: _)) =>
          match Dict.get "_id" hit with
          | Some i =>
              Ok (AssistantCall "find"
                    (VDict [("collection", c);
                            ("filter", VDict [("_id", i)]);
                            ("limit", VInt 1)]))
          | None => Raise (LookupError "_id")
          end
      | _, _ => Raise (LookupError "hits")
      end
  | _ => Raise (LookupError "results")
  end.

Definition is_data_tool (name : string) : bool :=
  Str.in_list name ["count"; "find"; "aggregate"].

(** The schema and the count injected before a data tool runs. *)
Definition prefetch (name : string) (args : dict) (st : state)
  : result state :=
  match Dict.get "collection" args with
  | Some coll =>
      if is_data_tool name && truthy coll then
        let schema_args := [("collection", coll); ("maxValues", VInt 10)] in
        let count_args := [("collection", coll); ("filter", VDict [])] in
        sca <- _ct "collection_schema" schema_args company_id ;;
        cnt <- _ct "count" count_args company_id ;;
        Ok (push st
              [ AssistantCall "collection_schema" (VDict schema_args);
                Function "collection_schema" (fst sca);
                AssistantCall "count" (VDict count_args);
                Function "count" (fst cnt) ])
      else Ok st
  | None => Ok st
  end.

(** One pass of the [while True] body for a function call. The result
    is the state with which the loop continues. *)
Definition on_function_call (name : string) (args : dict) (st : state)
  : result state :=
  if String.eqb name "search" then
    r <- _ct "search" args company_id ;;
    let (res, empty) := r in
    let st1 := push st [Function "search" res] in
    if negb empty then
      m <- follow_up res ;;
      Ok (push st1 [m])
    else
      Ok {| messages := messages st1; found := true; retries := retries st1 |}
  else
    st1 <- prefetch name args st ;;
    r <- _ct name args company_id ;;
    let (out, empty) := r in
    let out' := match enrich out with Some o => o | None => out end in
    let st2 := push st1 [Function name out'] in
    let found' := found st2 || negb empty in
    if negb found' then
      match retries st2 with
      | S r' =>
          Ok {| messages := messages st2; found := found'; retries := r' |}
      | O =>
          Ok {| messages := (messages st2 ++ [Assistant NO_DATA])%list;
                found := true;
                retries := 0 |}
      end
    else
      Ok {| messages := messages st2; found := found'; retries := retries st2 |}.

(** The loop of [_run_chat], driven by the successive answers of the
    model. *)
Fixpoint loop (answers : list llm_move) (st : state) : outcome :=
  match answers with
  | [] => Waiting st
  | FunctionCall name args :: rest =>
      match on_function_call name args st with
      | Ok st' => loop rest st'
      | Raise e => Failed e
      end
  | Content text :: rest =>
      if negb (found st) && negb (Nat.eqb (retries st) 0) then
        loop rest
          {| messages := (messages st ++ [Assistant STILL_NO_DATA])%list;
             found := found st;
             retries := retries st - 1 |}
      else
        let summary :=
          match summarize query text with
          | Some s => s
          | None => text
          end in
        Replied summary st
  end.

(** The messages with which the loop starts: the date, the charter,
    the history, the question and the injected [list_collections]. *)
Definition opening (date_msg system_msg : string) (history : list message)
    (list_collections_cache : value) : list message :=
  ([System date_msg; System system_msg] ++ history
     ++ [ User query;
          AssistantCall "list_collections" (VDict []);
          Function "list_collections" list_collections_cache ])%list.

Definition start (ms : list message) : state :=
  {| messages := ms; found := false; retries := 2 |}.

(** [_run_chat] *)
Definition _run_chat (ms : list message) (answers : list llm_move) : outcome :=
  loop answers (start ms).

(** [chat]: the router's text decides between the data path and a
    direct reply; an exception that is no [HTTPException] leaves as
    status 500. *)
Definition chat (route : string) (ms : list message)
    (answers : list llm_move) : outcome :=
  if String.eqb route ROUTE_DATA then
    match _run_chat ms answers with
    | Failed (HTTPException c d) => Failed (HTTPException c d)
    | Failed _ =>
        Failed (HTTPException 500 "Internal server error, please try again later")
    | other => other
    end
  else Replied route (start ms).

End Loop.
End Chat.

(** ** Positions inside a document *)

Inductive step : Type :=
| Key (k : string)
| Index (i : nat).

Definition path : Type := list step.

(** The value found by following a path of keys and list indices. *)
Fixpoint lookup (p : path) (v : value) : option value :=
  match p with
  | [] => Some v
  | Key k :: p' =>
      match v with
      | VDict d =>
          match Dict.get k d with
          | Some x => lookup p' x
          | None => None
          end
      | _ => None
      end
  | Index i :: p' =>
      match v with
      | VList l =>
          match nth_error l i with
          | Some x => lookup p' x
          | None => None
          end
      | _ => None
      end
  end.

(** The path goes through a key that starts with a dollar and whose value
    is a dict or a list. *)
Fixpoint shielded (p : path) (v : value) : bool :=
  match p with
  | [] => false
  | Key k :: p' =>
      match v with
      | VDict d =>
          match Dict.get k d with
          | Some x =>
              (Str.startswith k "$" && is_dict_or_list x) || shielded p' x
          | None => false
          end
      | _ => false
      end
  | Index i :: p' =>
      match v with
      | VList l =>
          match nth_error l i with
          | Some x => shielded p' x
          | None => false
          end
      | _ => false
      end
  end.

Definition is_scalar (v : value) : bool :=
  match v with
  | VNone | VBool _ | VInt _ | VOid _ | VDate _ => true
  | _ => false
  end.

(** ** Sample inputs *)

Module Sample.

(** The default configuration: no allow-list, the default tenant-global
    collections. *)
Definition cfg : Config.t :=
  {| Config.db_name := "test";
     Config.allowed_collections := None;
     Config.non_tenant_collections := ["plans"; "countries"; "states"; "cities"] |}.

(** A configuration with an allow-list. *)
Definition cfg_allow : Config.t :=
  {| Config.db_name := "test";
     Config.allowed_collections := Some ["leads"; "projects"];
     Config.non_tenant_collections := ["plans"; "countries"; "states"; "cities"] |}.

Definition tenant_A : string := "aaaaaaaaaaaaaaaaaaaaaaaa".

Definition session_A : Session.t := {| Session._company_id := Some tenant_A |}.

Definition count_call (coll : string) (f : dict) : validated :=
  CountCall {| CountArgs.database := None;
               CountArgs.collection := coll;
               CountArgs.filter := f |}.

Definition find_call (coll : string) (f : dict) : validated :=
  FindCall {| FindArgs.database := None;
              FindArgs.collection := Some coll;
              FindArgs.filter := f;
              FindArgs.projection := None;
              FindArgs.sort := None;
              FindArgs.skip := 0;
              FindArgs.limit := 10;
              FindArgs.stopAfterFirst := true |}.

(** [aggregate(collection, groupBy, filter)] with the defaults of the
    model for everything else. *)
Definition group_by_args (coll field : string) (f : option dict)
  : AggregateArgs.t :=
  {| AggregateArgs.database := None;
     AggregateArgs.collection := coll;
     AggregateArgs.pipeline := None;
     AggregateArgs.groupBy := Some (GroupStr field);
     AggregateArgs.statField := None;
     AggregateArgs.statOp := None;
     AggregateArgs.filter := f;
     AggregateArgs.sortBy := None;
     AggregateArgs.sortDir := Some "desc";
     AggregateArgs.limit := Some 100%Z;
     AggregateArgs.allowDiskUse := false |}.

Definition tenant_match : value :=
  VDict [("$match", VDict [("company", VOid tenant_A)])].

(** A filter with operators, a list under an operator and a number. *)
Definition filter_doc : value :=
  VDict [ ("status", VDict [("$ne", VStr "Open")]);
          ("source", VDict [("$in", VList [VStr "Broker"; VStr "Website"])]);
          ("budget", VInt 5) ].

End Sample.

(** The stage at position [i] has the key [op]. *)
Definition stage_has (op : string) (stage : value) : bool :=
  Dict.mem op (as_dict stage).

(** The pipeline of an aggregation request. *)
Definition pipeline_of_request (r : db_request) : list value :=
  match r with
  | AggregateDocuments _ _ pl _ => pl
  | _ => []
  end.

(** No string inside the value holds a double quote. *)
Fixpoint quote_free (v : value) : bool :=
  match v with
  | VStr s => negb (Str.mem Str.dquote s)
  | VList l => forallb quote_free l
  | VDict d => forallb (fun kv : string * value => quote_free (snd kv)) d
  | _ => true
  end.

Definition is_no_data (m : message) : bool :=
  match m with
  | Assistant c => String.eqb c NO_DATA
  | _ => false
  end.

Module Sample2.

(** The [n]-th call of a run of [record] calls. *)
Definition call (n : Z) : Telemetry.call :=
  {| Telemetry.call_command := "count";
     Telemetry.call_duration_ms := n;
     Telemetry.call_success := true;
     Telemetry.call_arguments := None;
     Telemetry.call_now := n;
     Telemetry.call_platform := [] |}.

(** Arguments that carry secrets under sensitive keys. *)
Definition secret_args : dict :=
  [ ("password", VStr "hunter2");
    ("auth", VDict [("apiKey", VStr "k-123");
                    ("passphrase", VStr "open sesame")]);
    ("certificate", VStr "PEM") ].

Definition secret_call : Telemetry.call :=
  {| Telemetry.call_command := "find";
     Telemetry.call_duration_ms := 12;
     Telemetry.call_success := true;
     Telemetry.call_arguments := Some secret_args;
     Telemetry.call_now := 1700000000000;
     Telemetry.call_platform := [] |}.

Definition quoted (s : string) : string :=
  Telemetry.quote_str ++ s ++ Telemetry.quote_str.

(** The JSON text of one key and its string value. *)
Definition json_pair (k v : string) : string :=
  quoted k ++ ": " ++ quoted v.

(** The result of a [count] that found nothing. *)
Definition zero_count : value := VDict [("result", VInt 0)].

(** An RPC server whose [count] always answers zero. *)
Definition rpc_zero (s : Session.t) (name : string) (args : dict)
  : result value :=
  if String.eqb name "count" then Ok zero_count else Ok (VDict []).

Definition count_leads : llm_move :=
  FunctionCall "count" [("collection", VStr "leads"); ("filter", VDict [])].

Definition opening : list message := [User "how many leads are converted?"].

(** [_ct] over a fresh session and the server [rpc_zero]. *)
Definition ct_zero (name : string) (args : dict) (cid : string)
  : result (value * bool) :=
  call_tool (fun _ => EmptyString) (fun _ => EmptyString) rpc_zero
    name args cid Session.init.

(** Enrichment and summary that both fail, so that the loop keeps the
    tool output and the model's text. *)
Definition no_enrich : value -> option value := fun _ => None.
Definition no_summary : string -> string -> option string := fun _ _ => None.

Definition count_args : dict :=
  [("collection", VStr "leads"); ("filter", VDict [])].

(** A telemetry with a cap of three that has recorded three events. *)
Definition full_telemetry : Telemetry.t :=
  Telemetry.record_all (Telemetry.init true 3) (map call [0; 1; 2]%Z).

End Sample2.

(** ** Further vocabulary *)

(** Every key, at every depth, is free of surrounding white space. *)
Fixpoint keys_stripped (v : value) : bool :=
  match v with
  | VDict d =>
      forallb (fun kv : string * value =>
                 String.eqb (Str.strip (fst kv)) (fst kv)
                 && keys_stripped (snd kv)) d
  | VList l => forallb keys_stripped l
  | _ => true
  end.

(** No key that starts with a dollar holds a dict or a list, at any
    depth: nothing in the value is kept from the injection. *)
Fixpoint shield_free (v : value) : bool :=
  match v with
  | VDict d =>
      forallb (fun kv : string * value =>
                 negb (Str.startswith (fst kv) "$" && is_dict_or_list (snd kv))
                 && shield_free (snd kv)) d
  | VList l => forallb shield_free l
  | _ => true
  end.

Definition is_nudge (m : message) : bool :=
  match m with
  | Assistant c => String.eqb c STILL_NO_DATA
  | _ => false
  end.

(** How many messages of a conversation satisfy a test. *)
Definition count_messages (test : message -> bool) (ms : list message) : nat :=
  List.length (filter test ms).

Definition is_content (m : llm_move) : bool :=
  match m with
  | Content _ => true
  | FunctionCall _ _ => false
  end.

Definition is_waiting (o : Chat.outcome) : bool :=
  match o with
  | Chat.Waiting _ => true
  | _ => false
  end.

(** The two traversals inside [_unwrap_ci_regex], by name. *)
Definition unwrap_elems : list value -> result (list value) :=
  fix each (l : list value) : result (list value) :=
    match l with
    | [] => Ok []
    | x :: t => x' <- _unwrap_ci_regex x ;;
                t' <- each t ;;
                Ok (x' :: t')
    end.

Definition unwrap_items : dict -> result (list (string * value)) :=
  fix each (d : dict) : result (list (string * value)) :=
    match d with
    | [] => Ok []
    | (k, v) :: t => v' <- _unwrap_ci_regex v ;;
                     t' <- each t ;;
                     Ok ((k, v') :: t')
    end.

(** The key under which [make_company_filter] writes the tenant. *)
Definition tenant_key (collection_name : string) : string :=
  if String.eqb collection_name "companies" then "_id" else "company".

Module Sample3.

(** A caller's filter without operators. *)
Definition plain_filter : dict :=
  [ ("leadStatus", VStr "converted");
    ("tags", VList [VStr "hot"; VInt 3]);
    ("owner", VDict [("name", VStr "Sonu Sharma")]) ].

(** A database that is down. *)
Definition db_down (r : db_request) : result value :=
  Raise (RuntimeError "connection lost").

(** A registry with the [count] tool alone; its model accepts a
    [collection] that is a string and reads no other argument. *)
Definition count_only (name : string) : option (dict -> string + validated) :=
  if String.eqb name "count" then
    Some (fun args =>
            match Dict.get "collection" args with
            | Some (VStr c) => inr (Sample.count_call c [])
            | _ => inl "collection: field required"
            end)
  else None.

Definition no_iso : string -> option Z := fun _ => None.
Definition no_schemas : string -> option schema := fun _ => None.

End Sample3.

(** The state in which the loop stands when the script of answers ends
    or the reply is given. *)
Definition final_state (o : Chat.outcome) : option Chat.state :=
  match o with
  | Chat.Replied _ st => Some st
  | Chat.Waiting st => Some st
  | Chat.Failed _ => None
  end.

(** The canned messages of a conversation, counting one more while
    nothing is found. *)
Definition canned_potential (st : Chat.state) : nat :=
  count_messages is_no_data (Chat.messages st)
  + (if Chat.found st then 0 else 1).

(** The nudges of a conversation and the retries left. *)
Definition nudge_budget (st : Chat.state) : nat :=
  count_messages is_nudge (Chat.messages st) + Chat.retries st.

(** ** [Telemetry.flush] *)

Module Flush.

(** What one [requests.post] gives: a response with its status code, a
    [requests.RequestException], or an exception of another class. *)
Inductive post_outcome : Type :=
| Response (status_code : Z)
| RequestException
| OtherException (e : exn).

(** What [flush] does to the outside, in order: a POST of the payload to
    the telemetry URL, [time.sleep] for some seconds, or an exception
    that leaves [flush]. *)
Inductive effect : Type :=
| Post (payload : string)
| Sleep (seconds : nat)
| Raised (e : exn).

Section Flush.
(** [getattr(config, "api_base_url", None)] *)
Variable api_base_url : option string.
(** [self._max_retries]; [range(1, n + 1)] is empty for every [n] below
    one. *)
Variable max_retries : nat.
(** [json_util.dumps], [None] when it raises. *)
Variable dumps : list Telemetry.event -> option string.
(** The outcome of the POST of each attempt. *)
Variable post : nat -> post_outcome.

(** The loop [for attempt in range(1, max_retries + 1)], entered at
    [attempt] with [remaining] iterations to go. *)
Fixpoint attempts (payload : string) (remaining attempt : nat)
  : list effect :=
  match remaining with
  | O => []
  | S r =>
      Post payload ::
      match post attempt with
      | Response status =>
          if (200 <=? status)%Z && (status <? 300)%Z then []
          else if (400 <=? status)%Z && (status <? 500)%Z then []
          else Sleep attempt :: attempts payload r (S attempt)
      | RequestException => Sleep attempt :: attempts payload r (S attempt)
      | OtherException e => [Raised e]
      end
  end.

(** [cache.clear()] *)
Definition clear (c : Telemetry.LRUCache.t) : Telemetry.LRUCache.t :=
  Telemetry.LRUCache.empty (Telemetry.LRUCache.maxsize c).

(** [Telemetry.flush]: the telemetry after it and what it did. The
    events leave the buffer before the first POST. *)
Definition flush (tel : Telemetry.t) : Telemetry.t * list effect :=
  if negb (Telemetry.enabled tel)
     || negb (match api_base_url with
              | Some u => non_empty u
              | None => false
              end)
  then (tel, [])
  else
    let events := map snd (Telemetry.LRUCache.items (Telemetry._cache tel)) in
    let tel' := {| Telemetry.enabled := Telemetry.enabled tel;
                   Telemetry._cache := clear (Telemetry._cache tel);
                   Telemetry._next_idx := Telemetry._next_idx tel |} in
    match events with
    | [] => (tel', [])
    | _ :: _ =>
        match dumps events with
        | None => (tel', [])
        | Some payload => (tel', attempts payload max_retries 1)
        end
    end.

End Flush.

(** The POSTs and the seconds slept among some effects. *)
Definition posts (l : list effect) : nat :=
  List.length (filter (fun e => match e with Post _ => true | _ => false end) l).

Definition slept (l : list effect) : nat :=
  fold_right (fun e acc => match e with Sleep n => n + acc | _ => acc end) 0 l.

(** An answer after which [flush] tries again. *)
Definition retryable (o : post_outcome) : bool :=
  match o with
  | Response status =>
      negb ((200 <=? status)%Z && (status <? 300)%Z)
      && negb ((400 <=? status)%Z && (status <? 500)%Z)
  | RequestException => true
  | OtherException _ => false
  end.

(** One attempt that fails: the POST and the sleep after it. *)
Definition failed_attempt (payload : string) (attempt : nat) : list effect :=
  [Post payload; Sleep attempt].

(** What happens to a telemetry, one critical section after the other:
    a [record], or a [flush] with the configuration and the answers of
    its POSTs. *)
Inductive op : Type :=
| RecordCall (c : Telemetry.call)
| FlushCall (api_base_url : option string) (max_retries : nat)
    (dumps : list Telemetry.event -> option string)
    (post : nat -> post_outcome).

Definition apply_op (tel : Telemetry.t) (o : op) : Telemetry.t :=
  match o with
  | RecordCall c =>
      match Telemetry.record tel c with
      | Ok tel' => tel'
      | Raise _ => tel
      end
  | FlushCall url retries dumps post => fst (flush url retries dumps post tel)
  end.

Definition apply_all (tel : Telemetry.t) (ops : list op) : Telemetry.t :=
  fold_left apply_op ops tel.

End Flush.



Module Sample4.




End Sample4.

(** ** The requests of the RPC server *)

Module RpcServer.

(** The sets of the server that a capability request touches. A
    transport is named by a number. *)
Record t := {
  capabilities : list string;
  log_subscribers : list nat;
  stream_subscribers : list nat;
  interrupt_subscribers : list nat
}.

(** [RpcServer.__init__] *)
Definition init : t :=
  {| capabilities := [];
     log_subscribers := [];
     stream_subscribers := [];
     interrupt_subscribers := [] |}.

(** [s.add(x)] and [s.discard(x)] on a set kept as a list without
    repeats. *)
Definition add (x : string) (s : list string) : list string :=
  if Str.in_list x s then s else (s ++ [x])%list.

Definition discard (x : string) (s : list string) : list string :=
  filter (fun y => negb (String.eqb x y)) s.

Definition discard_transport (x : nat) (s : list nat) : list nat :=
  filter (fun y => negb (Nat.eqb x y)) s.

(** [name in ("logging", "streaming", "interrupt")] *)
Definition known_capability (name : value) : option string :=
  match name with
  | VStr s =>
      if Str.in_list s ["logging"; "streaming"; "interrupt"]
      then Some s else None
  | _ => None
  end.

(** The server has no subscriber. *)
Definition unsubscribed (srv : t) : Prop :=
  log_subscribers srv = []
  /\ stream_subscribers srv = []
  /\ interrupt_subscribers srv = [].

Definition with_capabilities (srv : t) (c : list string) : t :=
  {| capabilities := c;
     log_subscribers := log_subscribers srv;
     stream_subscribers := stream_subscribers srv;
     interrupt_subscribers := interrupt_subscribers srv |}.

Section Server.
(** Python's [str] on a value that is no string, and on an exception. *)
Variable str_of : value -> string.
Variable str_exn : exn -> string.
(** The texts of the [TypeError] of [params["name"]] and of the
    [AttributeError] of [params.get] on a value that is no dict. *)
Variable subscript_error : value -> string.
Variable attribute_error : value -> string.
(** [self.transport] *)
Variable transport : nat.
(** [_handle_resource] and [_call_tool], which touch none of the sets. *)
Variable _handle_resource : value -> result value.
Variable _call_tool : value -> value -> result value.

Definition py_str (v : value) : string :=
  match v with
  | VStr s => s
  | _ => str_of v
  end.

(** The subscriber set of a capability without the transport. *)
Definition unsubscribe (name : string) (srv : t) : t :=
  if String.eqb name "logging" then
    {| capabilities := capabilities srv;
       log_subscribers := discard_transport transport (log_subscribers srv);
       stream_subscribers := stream_subscribers srv;
       interrupt_subscribers := interrupt_subscribers srv |}
  else if String.eqb name "streaming" then
    {| capabilities := capabilities srv;
       log_subscribers := log_subscribers srv;
       stream_subscribers :=
         discard_transport transport (stream_subscribers srv);
       interrupt_subscribers := interrupt_subscribers srv |}
  else if String.eqb name "interrupt" then
    {| capabilities := capabilities srv;
       log_subscribers := log_subscribers srv;
       stream_subscribers := stream_subscribers srv;
       interrupt_subscribers :=
         discard_transport transport (interrupt_subscribers srv) |}
  else srv.

(** [RpcServer._handle_capability]: the server after it and what it
    returns or raises. With [enabled] truthy the subscriber set itself
    is called with the transport. *)
Definition _handle_capability (srv : t) (params : value) : t * result value :=
  match params with
  | VDict p =>
      match Dict.get "name" p with
      | None => (srv, Raise (ValueError "Missing 'name' in capability params"))
      | Some name =>
          let enabled := truthy (get_or "enabled" (VBool true) p) in
          match known_capability name with
          | None =>
              (srv, Raise (ValueError ("Unknown capability '" ++ py_str name
                                       ++ "'")))
          | Some n =>
              if enabled then
                (with_capabilities srv (add n (capabilities srv)),
                 Raise (TypeError "'set' object is not callable"))
              else
                (unsubscribe n
                   (with_capabilities srv (discard n (capabilities srv))),
                 Ok (VBool true))
          end
      end
  | _ => (srv, Raise (TypeError (subscript_error params)))
  end.

Definition result_response (id_ result : value) : value :=
  VDict [("jsonrpc", VStr "1.0"); ("id", id_); ("result", result)].

Definition error_response (id_ : value) (e : exn) : value :=
  VDict [("jsonrpc", VStr "1.0"); ("id", id_);
         ("error", VDict [("code", VInt (-32000));
                          ("message", VStr (str_exn e))])].

(** [RpcServer._handle]: the server after the request and the response
    handed to the transport; no response for a request that is no
    object. *)
Definition _handle (srv : t) (req : value) : t * option value :=
  match req with
  | VDict r =>
      let method := get_or "method" VNone r in
      let id_ := get_or "id" VNone r in
      let (srv', outcome) :=
        if value_is_str method "capability" then
          _handle_capability srv (get_or "params" (VDict []) r)
        else if value_is_str method "resource" then
          (srv, _handle_resource (get_or "params" (VDict []) r))
        else
          let given := get_or "params" VNone r in
          let params := if truthy given then given else VDict [] in
          (srv,
           match params with
           | VDict p => _call_tool method (get_or "arguments" params p)
           | _ => Raise (AttributeError (attribute_error params))
           end) in
      (srv',
       Some (match outcome with
             | Ok result => result_response id_ result
             | Raise e => error_response id_ e
             end))
  | _ => (srv, None)
  end.

(** The loop of [serve] over the messages read. *)
Definition serve (srv : t) (reqs : list value) : t :=
  fold_left (fun s req => fst (_handle s req)) reqs srv.

End Server.

End RpcServer.

Module Sample5.

(** The request [capability(name="logging")] with id 7. *)
Definition enable_logging : dict :=
  [ ("jsonrpc", VStr "1.0"); ("id", VInt 7); ("method", VStr "capability");
    ("params", VDict [("name", VStr "logging")]) ].

Definition exn_text (e : exn) : string :=
  match e with
  | ToolException m | RuntimeError m | ValueError m | TypeError m
  | AttributeError m | LookupError m => m
  | HTTPException _ d => d
  end.

End Sample5.

(** ** The answer of [find] *)

Module FindScan.

(** What [_query_collection] gives for a collection: the documents, a
    [ConnectionFailure] or [OperationFailure] with its text, or any
    other exception. *)
Inductive query_outcome : Type :=
| Docs (docs : list value)
| DatabaseFailure (text : string)
| OtherFailure.

(** The entry of [results] for a collection with matches. *)
Definition bucket (coll_name : string) (docs : list value) : value :=
  VDict [("collection", VStr coll_name);
         ("documents", VList docs);
         ("count", VInt (Z.of_nat (List.length docs)))].

Section Scan.
Variable query : string -> query_outcome.
Variable stopAfterFirst : bool.

(** The loop [for coll_name in coll_list] with its two accumulators. *)
Fixpoint scan (coll_list : list string) (results : list value) (total_docs : nat)
  : result (list value * nat) :=
  match coll_list with
  | [] => Ok (results, total_docs)
  | coll_name :: rest =>
      match query coll_name with
      | Docs [] => scan rest results total_docs
      | Docs (d :: ds) =>
          let results' := (results ++ [bucket coll_name (d :: ds)])%list in
          let total' := total_docs + List.length (d :: ds) in
          if stopAfterFirst then Ok (results', total')
          else scan rest results' total'
      | DatabaseFailure text => Raise (ToolException ("Database error: " ++ text))
      | OtherFailure => Raise (ToolException "Internal error in find tool")
      end
  end.

End Scan.

Section Execute.
Variable cfg : Config.t.
(** [db.list_collection_names()], [None] when it raises. *)
Variable listed : option (list string).
(** The milliseconds that the clock shows at the end. *)
Variable duration_ms : Z.
Variable query : string -> query_outcome.

(** [FindTool._get_collection_whitelist] *)
Definition _get_collection_whitelist : result (list string) :=
  match Config.allowed_collections cfg with
  | Some (c :: cs) => Ok (c :: cs)
  | _ =>
      match listed with
      | Some names => Ok names
      | None => Raise (ToolException "Cannot list collections")
      end
  end.

(** [FindTool.execute] from the filter on: the collections to scan, the
    scan and the answer. *)
Definition assemble (args : FindArgs.t) : result value :=
  let db_name := str_or (FindArgs.database args) (Config.db_name cfg) in
  coll_list <-
    match FindArgs.collection args with
    | Some c =>
        if non_empty c then Ok [c]
        else l <- _get_collection_whitelist ;; Ok (firstn MAX_COLLECTIONS_SCAN l)
    | None => l <- _get_collection_whitelist ;; Ok (firstn MAX_COLLECTIONS_SCAN l)
    end ;;
  found <- scan query (FindArgs.stopAfterFirst args) coll_list [] 0 ;;
  Ok (VDict [("results", VList (fst found));
             ("total_documents", VInt (Z.of_nat (snd found)));
             ("collections_scanned", VList (map VStr coll_list));
             ("database", VStr db_name);
             ("duration_ms", VInt duration_ms)]).

End Execute.

(** The documents of a bucket and of a list of buckets. *)
Definition bucket_size (b : value) : nat :=
  match Dict.get "documents" (as_dict b) with
  | Some (VList docs) => List.length docs
  | _ => 0
  end.

Definition total_size (buckets : list value) : nat :=
  fold_right (fun b acc => bucket_size b + acc) 0 buckets.


End FindScan.

(** ** Trimmed documents *)

(** The keys that [trim_document] drops. *)
Definition is_big (k : string) : bool :=
  String.eqb k "__v" || Str.in_list k _BIG_FIELDS.

(** Neither an ObjectId nor a date. *)
Definition json_scalar (v : value) : bool :=
  match v with
  | VOid _ | VDate _ => false
  | _ => true
  end.

(** A document as [trim_document] leaves it: no dropped key, no
    ObjectId or date as a value or as an element of a list, lists of at
    most ten elements, and the same in the documents that it holds as
    values or as elements of its lists. *)
Fixpoint slim (v : value) : bool :=
  match v with
  | VDict d =>
      forallb (fun kv : string * value =>
                 negb (is_big (fst kv))
                 && match snd kv with
                    | VDict _ => slim (snd kv)
                    | VList l =>
                        (List.length l <=? 10)%nat
                        && forallb (fun y => match y with
                                             | VDict _ => slim y
                                             | _ => json_scalar y
                                             end) l
                    | x => json_scalar x
                    end) d
  | _ => true
  end.

(** A value that [trim_result] leaves among the documents: a slim
    document, or whatever is no document. *)
Definition slim_if_dict (v : value) : bool :=
  match v with
  | VDict _ => slim v
  | _ => true
  end.

(** A bucket whose documents are cut and slim. *)
Definition cut_bucket (b : value) : Prop :=
  exists docs,
    Dict.get "documents" (as_dict b) = Some (VList docs)
    /\ List.length docs <= _MAX_DOCS
    /\ forallb slim_if_dict docs = true.

Section TrimNames.
Variable isoformat : Z -> string.

(** The two traversals inside [trim_document], by name. *)
Definition trim_elems : list value -> nat -> list value :=
  fix elems (l : list value) (n : nat) : list value :=
    match l, n with
    | y :: l', S n' =>
        match y with
        | VDict _ => trim_value isoformat y
        | _ => to_json_safe isoformat y
        end :: elems l' n'
    | _, _ => []
    end.

Definition trim_items : dict -> list (string * value) :=
  fix each (d : dict) : list (string * value) :=
    match d with
    | [] => []
    | (k, x) :: t =>
        if String.eqb k "__v" || Str.in_list k _BIG_FIELDS
        then each t
        else
          match x with
          | VDict _ => (k, trim_value isoformat x) :: each t
          | VList l => (k, VList (trim_elems l 10)) :: each t
          | _ => (k, to_json_safe isoformat x) :: each t
          end
    end.

(** The documents that a value is, or holds as elements, are slim once
    trimmed. *)
Definition slim_inside (v : value) : Prop :=
  match v with
  | VDict _ => slim (trim_value isoformat v) = true
  | VList l =>
      Forall (fun y => match y with
                       | VDict _ => slim (trim_value isoformat y) = true
                       | _ => True
                       end) l
  | _ => True
  end.

End TrimNames.

(** ** The lists of the configuration *)

Module ConfigParse.

Definition comma : ascii := ","%char.

(** [s.split(",")]: the pieces between the commas, at least one. *)
Fixpoint split_commas (s : string) : list string :=
  match s with
  | EmptyString => [EmptyString]
  | String c t =>
      if Ascii.eqb c comma then EmptyString :: split_commas t
      else
        match split_commas t with
        | piece :: rest => String c piece :: rest
        | [] => [String c EmptyString]
        end
  end.

(** The comprehension [[x.strip() for x in val.split(",") if x.strip()]]. *)
Definition stripped_pieces (val : string) : list string :=
  map Str.strip
    (filter (fun x => non_empty (Str.strip x)) (split_commas val)).

(** [parse_list] of [load_config] *)
Definition parse_list (val : string) : list string :=
  if non_empty (Str.strip val) then stripped_pieces val else [].

(** [allowed] of [load_config], from [args.collections] *)
Definition allowed (collections : string) : option (list string) :=
  let raw_colls := Str.strip collections in
  if String.eqb raw_colls "*" || String.eqb raw_colls EmptyString
  then None
  else Some (stripped_pieces raw_colls).

(** [non_tenant] of [load_config], from [args.nonTenantCollections] *)
Definition non_tenant (nonTenantCollections : string) : list string :=
  stripped_pieces nonTenantCollections.

(** A name as the lists hold them: not empty, without white space
    around it, without a comma. *)
Definition clean_name (x : string) : bool :=
  non_empty x && String.eqb (Str.strip x) x && negb (Str.mem comma x).

End ConfigParse.
(** * Properties *)

(** ** Dictionaries *)

Module DictFacts.

Lemma get_set_same (k : string) (v : value) (d : dict) :
  Dict.get k (Dict.set k v d) = Some v.
Proof.
  induction d as [|[k' v'] t IH]; simpl.
  - now rewrite String.eqb_refl.
  - destruct (String.eqb k k') eqn:E; simpl; rewrite E; auto.
Qed.

Lemma get_set_other (k k' : string) (v : value) (d : dict) :
  k <> k' -> Dict.get k' (Dict.set k v d) = Dict.get k' d.
Proof.
  intros Hne. induction d as [|[k0 v0] t IH]; simpl.
  - destruct (String.eqb k' k) eqn:E; auto.
    apply String.eqb_eq in E. congruence.
  - destruct (String.eqb k k0) eqn:E; simpl.
    + apply String.eqb_eq in E. subst k0.
      destruct (String.eqb k' k) eqn:E'; auto.
      apply String.eqb_eq in E'. congruence.
    + now rewrite IH.
Qed.

Lemma mem_set_other (k k' : string) (v : value) (d : dict) :
  k <> k' -> Dict.mem k' (Dict.set k v d) = Dict.mem k' d.
Proof. intros. unfold Dict.mem. now rewrite get_set_other. Qed.

(** A key that [extra] does not have keeps its binding through
    [update]. *)
Lemma get_update_absent (k : string) (extra base : dict) :
  Dict.mem k extra = false ->
  Dict.get k (Dict.update base extra) = Dict.get k base.
Proof.
  unfold Dict.update. revert base.
  induction extra as [|[k' v'] t IH]; intros base Hk; simpl; auto.
  unfold Dict.mem in Hk. simpl in Hk.
  destruct (String.eqb k k') eqn:E; [discriminate|].
  rewrite IH.
  - apply get_set_other. intros ->. now rewrite String.eqb_refl in E.
  - exact Hk.
Qed.

Lemma set_absent (k : string) (v : value) (d : dict) :
  Dict.mem k d = false -> Dict.set k v d = (d ++ [(k, v)])%list.
Proof.
  unfold Dict.mem.
  induction d as [|[k' v'] t IH]; simpl; auto.
  destruct (String.eqb k k'); [discriminate|].
  intros H. now rewrite IH.
Qed.

Lemma mem_app (k : string) (d1 d2 : dict) :
  Dict.mem k (d1 ++ d2)%list = Dict.mem k d1 || Dict.mem k d2.
Proof.
  unfold Dict.mem.
  induction d1 as [|[k' v'] t IH]; simpl; auto.
  destruct (String.eqb k k'); auto.
Qed.

Lemma update_fresh (items base : dict) :
  Dict.fresh_keys items = true ->
  (forall k, Dict.mem k items = true -> Dict.mem k base = false) ->
  Dict.update base items = (base ++ items)%list.
Proof.
  unfold Dict.update. revert base.
  induction items as [|[k v] t IH]; intros base Hf Hd; simpl.
  - now rewrite app_nil_r.
  - simpl in Hf. apply andb_true_iff in Hf. destruct Hf as [Hk Ht].
    apply negb_true_iff in Hk.
    rewrite set_absent.
    + rewrite IH; auto.
      * now rewrite <- app_assoc.
      * intros k0 Hk0. rewrite mem_app. apply orb_false_iff. split.
        -- apply Hd. unfold Dict.mem in *. simpl.
           destruct (String.eqb k0 k); auto.
        -- unfold Dict.mem. simpl.
           destruct (String.eqb k0 k) eqn:E; auto.
           apply String.eqb_eq in E. subst. congruence.
    + apply Hd. unfold Dict.mem. simpl. now rewrite String.eqb_refl.
Qed.

(** Items with distinct keys are their own dict. *)
Lemma of_items_fresh (items : dict) :
  Dict.fresh_keys items = true -> Dict.of_items items = items.
Proof.
  intros H. unfold Dict.of_items. rewrite update_fresh; auto.
Qed.

Lemma get_map_values (f : string -> value -> value) (k : string) (d : dict) :
  Dict.get k (map (fun kv : string * value => let (k, v) := kv in (k, f k v)) d)
  = match Dict.get k d with
    | Some v => Some (f k v)
    | None => None
    end.
Proof.
  induction d as [|[k' v'] t IH]; simpl; auto.
  destruct (String.eqb k k') eqn:E; auto.
  apply String.eqb_eq in E. now subst.
Qed.

Lemma fresh_map_values (f : string -> value -> value) (d : dict) :
  Dict.fresh_keys (map (fun kv : string * value => let (k, v) := kv in (k, f k v)) d)
  = Dict.fresh_keys d.
Proof.
  induction d as [|[k v] t IH]; simpl; auto.
  rewrite IH. f_equal. f_equal. unfold Dict.mem.
  rewrite get_map_values. now destruct (Dict.get k t).
Qed.

End DictFacts.

Lemma wf_dict (d : dict) :
  wf (VDict d) ->
  Dict.fresh_keys d = true /\ Forall (fun kv => wf (snd kv)) d.
Proof.
  unfold wf. simpl.
  induction d as [|[k v] t IH]; simpl; intros H.
  - split; auto.
  - apply andb_true_iff in H. destruct H as [H Ht].
    apply andb_true_iff in H. destruct H as [Hk Hv].
    destruct (IH Ht) as [IH1 IH2].
    split.
    + now rewrite Hk, IH1.
    + constructor; auto.
Qed.

Lemma wf_list (l : list value) : wf (VList l) -> Forall wf l.
Proof.
  unfold wf. simpl. intros H. apply Forall_forall.
  intros x Hx. rewrite forallb_forall in H. auto.
Qed.

Lemma wf_get (k : string) (d : dict) (x : value) :
  wf (VDict d) -> Dict.get k d = Some x -> wf x.
Proof.
  intros H. apply wf_dict in H. destruct H as [_ H].
  induction H as [|[k' v'] t Hv Ht IH]; simpl; [discriminate|].
  destruct (String.eqb k k'); auto. intros E. inversion E. now subst.
Qed.

(** ** Case-insensitive injection and its un-wrapping *)

Section Injection.

(** On a document with distinct keys the injection keeps every key in
    place. *)
Lemma inject_dict (d : dict) :
  Dict.fresh_keys d = true ->
  _inject_case_insensitive (VDict d)
  = VDict (map (fun kv : string * value =>
                  let (k, v) := kv in
                  (k, if Str.startswith k "$" && is_dict_or_list v
                      then v else _inject_case_insensitive v)) d).
Proof.
  intros H. simpl. f_equal.
  set (f := fun (k : string) (v : value) =>
              if Str.startswith k "$" && is_dict_or_list v
              then v else _inject_case_insensitive v).
  assert (E : map (fun kv : string * value =>
                     let (k, v) := kv in
                     if Str.startswith k "$" && is_dict_or_list v
                     then (k, v) else (k, _inject_case_insensitive v)) d
              = map (fun kv : string * value =>
                       let (k, v) := kv in (k, f k v)) d).
  { apply map_ext. intros [k v]. unfold f.
    now destruct (Str.startswith k "$" && is_dict_or_list v). }
  rewrite E. apply DictFacts.of_items_fresh.
  now rewrite DictFacts.fresh_map_values.
Qed.

Lemma inject_scalar (x : value) :
  is_scalar x = true -> _inject_case_insensitive x = x.
Proof. destruct x; simpl; auto; discriminate. Qed.

(** What stands at a position after the injection: the old value under
    a shield, its injection elsewhere. *)
Lemma lookup_inject (p : path) :
  forall (v x : value),
    wf v ->
    lookup p v = Some x ->
    lookup p (_inject_case_insensitive v)
    = Some (if shielded p v then x else _inject_case_insensitive x).
Proof.
  induction p as [|s p IH]; intros v x Hwf Hl.
  - simpl in *. now inversion Hl.
  - destruct s as [k|i]; destruct v; simpl in Hl; try discriminate.
    + destruct (Dict.get k d) as [y|] eqn:Hy; [|discriminate].
      pose proof (wf_dict d Hwf) as [Hfresh _].
      rewrite inject_dict by exact Hfresh.
      cbn [lookup shielded].
      rewrite Hy.
      rewrite (DictFacts.get_map_values
                 (fun k v => if Str.startswith k "$" && is_dict_or_list v
                             then v else _inject_case_insensitive v)).
      rewrite Hy.
      destruct (Str.startswith k "$" && is_dict_or_list y) eqn:Hs.
      * simpl. exact Hl.
      * simpl. apply IH; auto. eapply wf_get; eauto.
    + destruct (nth_error l i) as [y|] eqn:Hy; [|discriminate].
      cbn [lookup shielded _inject_case_insensitive].
      rewrite nth_error_map, Hy. simpl.
      apply IH; auto.
      pose proof (wf_list l Hwf) as Hall.
      rewrite Forall_forall in Hall. apply Hall.
      eapply nth_error_In; eauto.
Qed.

Lemma escape_not_anchored (x : string) :
  Re.fullmatch_anchored (Re.escape x) = None.
Proof.
  destruct x as [|c t]; simpl; auto.
  destruct (Re.special c) eqn:Hs; simpl; auto.
  destruct (Ascii.eqb c "^"%char) eqn:Hc.
  - apply Ascii.eqb_eq in Hc. subst c. discriminate.
  - destruct c as [[] [] [] [] [] [] [] []]; try discriminate; reflexivity.
Qed.

Lemma unsnoc_snoc (s : string) (c : ascii) :
  Re.unsnoc (s ++ String c EmptyString) = Some (s, c).
Proof.
  induction s as [|a s IH]; simpl; auto.
  now rewrite IH.
Qed.

End Injection.

(** C3, as the code has it. For every string [x], un-wrapping the value
    that the tool base injects for [x] gives that same regex document
    back and never the plain string: the injected pattern is the escaped
    text without anchors, and un-wrapping only fires on a pattern written
    as a caret, a text [p] and a dollar, which it turns into [p] unless
    [p] holds a newline. *)
Theorem unwrap_keeps_injected_regex (x p : string) :
  _unwrap_ci_regex (_inject_case_insensitive (VStr x))
  = Ok (_inject_case_insensitive (VStr x))
  /\ _unwrap_ci_regex (_inject_case_insensitive (VStr x)) <> Ok (VStr x)
  /\ _unwrap_ci_regex (ci_regex ("^" ++ p ++ "$"))
     = Ok (if Str.mem Str.newline p
           then ci_regex ("^" ++ p ++ "$") else VStr p).
Proof.
  assert (H : _unwrap_ci_regex (_inject_case_insensitive (VStr x))
              = Ok (_inject_case_insensitive (VStr x))).
  { cbn. now rewrite escape_not_anchored. }
  split; [exact H|]. split.
  - rewrite H. discriminate.
  - cbn. rewrite unsnoc_snoc.
    destruct (Str.mem Str.newline p); reflexivity.
Qed.

(** The claim of C3 fails on the string [converted]: un-wrapping the
    injected value does not restore it. *)
Lemma unwrap_inject_converted :
  _unwrap_ci_regex (_inject_case_insensitive (VStr "converted"))
  <> Ok (VStr "converted").
Proof. vm_compute. discriminate. Qed.

(** C4, as the code has it. In a filter document with distinct keys, a
    string at a position that is not under a shield (a dict or list that
    is the value of a key starting with a dollar) is rewritten to the
    case-insensitive regex of its escaped text, also when the string is
    itself the value of a dollar key; a string under a shield is left as
    it is; a scalar that is no string is left as it is everywhere. *)
Theorem inject_rewrites_unshielded_strings (v : value) (p : path) :
  wf v ->
  (forall s, lookup p v = Some (VStr s) ->
     lookup p (_inject_case_insensitive v)
     = Some (if shielded p v then VStr s else ci_regex (Re.escape s)))
  /\ (forall c, is_scalar c = true -> lookup p v = Some c ->
        lookup p (_inject_case_insensitive v) = Some c).
Proof.
  intros Hwf. split.
  - intros s Hs. now rewrite (lookup_inject p v (VStr s) Hwf Hs).
  - intros c Hc Hl. rewrite (lookup_inject p v c Hwf Hl).
    rewrite inject_scalar by exact Hc. now destruct (shielded p v).
Qed.

Lemma inject_rewrites_unshielded_strings_witness :
  wf Sample.filter_doc
  /\ lookup [Key "status"; Key "$ne"] (_inject_case_insensitive Sample.filter_doc)
     = Some (ci_regex "Open")
  /\ lookup [Key "source"; Key "$in"; Index 1]
       (_inject_case_insensitive Sample.filter_doc)
     = Some (VStr "Website")
  /\ lookup [Key "budget"] (_inject_case_insensitive Sample.filter_doc)
     = Some (VInt 5).
Proof.
  assert (Hwf : wf Sample.filter_doc) by reflexivity.
  split; [exact Hwf|].
  split; [|split].
  - exact (proj1 (inject_rewrites_unshielded_strings Sample.filter_doc
                    [Key "status"; Key "$ne"] Hwf) "Open" eq_refl).
  - exact (proj1 (inject_rewrites_unshielded_strings Sample.filter_doc
                    [Key "source"; Key "$in"; Index 1] Hwf) "Website" eq_refl).
  - exact (proj2 (inject_rewrites_unshielded_strings Sample.filter_doc
                    [Key "budget"] Hwf) (VInt 5) eq_refl eq_refl).
Defined.

(** The claim of C4 fails on the filter that binds [$eq] to the string
    [converted]: the string is the value of a key starting with a dollar,
    and it is rewritten. *)
Lemma inject_rewrites_operator_string :
  lookup [Key "$eq"]
    (_inject_case_insensitive (VDict [("$eq", VStr "converted")]))
  <> Some (VStr "converted")
  /\ lookup [Key "status"; Key "$ne"]
       (_inject_case_insensitive
          (VDict [("status", VDict [("$ne", VStr "Open")])]))
     <> Some (VStr "Open").
Proof. vm_compute. split; discriminate. Qed.

(** ** Tenant scope of filters *)

Section TenantScope.
Variable cfg : Config.t.
Variable tenant : string.
Hypothesis tenant_valid : valid_object_id tenant = true.

Lemma get_update_fresh (k : string) (x : value) (extra base : dict) :
  Dict.fresh_keys extra = true ->
  Dict.get k extra = Some x ->
  Dict.get k (Dict.update base extra) = Some x.
Proof.
  unfold Dict.update. revert base.
  induction extra as [|[k' v'] t IH]; intros base Hf Hg; simpl in *.
  - discriminate.
  - apply andb_true_iff in Hf. destruct Hf as [Hk Ht].
    apply negb_true_iff in Hk.
    destruct (String.eqb k k') eqn:E.
    + apply String.eqb_eq in E. subst k'. inversion Hg. subst v'.
      pose proof (DictFacts.get_update_absent k t (Dict.set k x base) Hk) as Hu.
      unfold Dict.update in Hu. rewrite Hu.
      apply DictFacts.get_set_same.
    + apply IH; auto.
Qed.

Lemma fresh_update (extra base : dict) :
  Dict.fresh_keys base = true ->
  Dict.fresh_keys (Dict.update base extra) = true.
Proof.
  unfold Dict.update. revert base.
  induction extra as [|[k v] t IH]; intros base Hb; simpl; auto.
  apply IH. clear IH.
  induction base as [|[k0 v0] b IHb]; simpl in *; auto.
  apply andb_true_iff in Hb. destruct Hb as [H0 Hb].
  destruct (String.eqb k k0) eqn:E; simpl.
  - now rewrite H0, Hb.
  - rewrite IHb by exact Hb. rewrite andb_true_r.
    rewrite DictFacts.mem_set_other; auto.
    intros ->. now rewrite String.eqb_refl in E.
Qed.

(** Where the caller's filter has no [company] key, the effective
    filter binds [company] to the tenant. *)
Lemma scope_filter_binds_tenant (coll : string) (extra : dict) :
  opt_in (Some coll) (Config.non_tenant_collections cfg) = false ->
  coll <> "companies" ->
  Dict.mem "company" extra = false ->
  exists filt,
    scope_filter cfg tenant (Some coll) extra = Ok filt
    /\ Dict.get "company" filt = Some (VOid (Str.lower tenant)).
Proof.
  intros Hnt Hc Hm. unfold scope_filter, make_company_filter.
  rewrite Hnt, tenant_valid.
  destruct (String.eqb coll "companies") eqn:E.
  { apply String.eqb_eq in E. contradiction. }
  set (base := [("company", VOid (Str.lower tenant))]).
  assert (Hmerged : exists merged,
             (if Dict.truthy extra then Ok (Dict.update base extra) else Ok base)
             = Ok merged
             /\ Dict.fresh_keys merged = true
             /\ Dict.get "company" merged = Some (VOid (Str.lower tenant))).
  { destruct (Dict.truthy extra).
    - exists (Dict.update base extra). split; auto. split.
      + now apply fresh_update.
      + now rewrite DictFacts.get_update_absent.
    - exists base. auto. }
  destruct Hmerged as (merged & -> & Hfresh & Hget).
  cbn [bind]. eexists. split; [reflexivity|].
  rewrite inject_dict by exact Hfresh. cbn [as_dict].
  rewrite (DictFacts.get_map_values
             (fun k v => if Str.startswith k "$" && is_dict_or_list v
                         then v else _inject_case_insensitive v)).
  now rewrite Hget.
Qed.

(** Where the caller's filter has a [company] key, the caller's value
    takes the place of the tenant id. *)
Lemma scope_filter_caller_wins (coll : string) (extra : dict) (x : value) :
  opt_in (Some coll) (Config.non_tenant_collections cfg) = false ->
  Dict.fresh_keys extra = true ->
  Dict.get "company" extra = Some x ->
  exists filt,
    scope_filter cfg tenant (Some coll) extra = Ok filt
    /\ Dict.get "company" filt = Some (_inject_case_insensitive x).
Proof.
  intros Hnt Hf Hx. unfold scope_filter, make_company_filter.
  rewrite Hnt, tenant_valid.
  assert (Ht : Dict.truthy extra = true) by (destruct extra; [discriminate|auto]).
  rewrite Ht. cbn [bind]. eexists. split; [reflexivity|].
  set (base := if String.eqb coll "companies"
               then [("_id", VOid (Str.lower tenant))]
               else [("company", VOid (Str.lower tenant))]).
  assert (Hb : Dict.fresh_keys base = true)
    by (unfold base; destruct (String.eqb coll "companies"); reflexivity).
  rewrite inject_dict by (now apply fresh_update). cbn [as_dict].
  rewrite (DictFacts.get_map_values
             (fun k v => if Str.startswith k "$" && is_dict_or_list v
                         then v else _inject_case_insensitive v)).
  now rewrite (get_update_fresh "company" x extra base Hf Hx).
Qed.

End TenantScope.

(** C1 at a failing input. With tenant A on the tenant-scoped collection
    [leads], a [count] and a [find] whose filter binds [company] to
    [{$exists: true}] reach MongoDB with exactly that filter: the
    tenant id is gone from it. *)
Theorem company_key_overrides_tenant
    (isoparse : string -> option Z) (SCHEMAS : string -> option schema) :
  let f := [("company", VDict [("$exists", VBool true)])] in
  run_request isoparse SCHEMAS Sample.cfg Sample.session_A
    (inr (Sample.count_call "leads" f))
  = Ok (CountDocuments "test" "leads" f)
  /\ (exists args,
        run_request isoparse SCHEMAS Sample.cfg Sample.session_A
          (inr (Sample.find_call "leads" f))
        = Ok (FindDocuments "test" (Collections ["leads"]) (VDict f) args))
  /\ Dict.get "company" f <> Some (VOid Sample.tenant_A).
Proof.
  split; [reflexivity|]. split.
  - eexists. reflexivity.
  - discriminate.
Qed.

(** ** Aggregation pipelines *)

Section AggregateScope.
Variable isoparse : string -> option Z.
Variable SCHEMAS : string -> option schema.
Variable cfg : Config.t.
Variable session : Session.t.

Lemma scope_pipeline_non_empty (tenant : string) (coll : string)
    (pipeline p : list value) :
  opt_in (Some coll) (Config.non_tenant_collections cfg) = false ->
  scope_pipeline cfg tenant (Some coll) pipeline = Ok p ->
  exists st sts, p = st :: sts.
Proof.
  intros Hnt. unfold scope_pipeline. rewrite Hnt.
  destruct (make_company_filter (Some coll) tenant None) as [tm|e];
    cbn [bind]; [|discriminate].
  destruct pipeline as [|st0 sts0].
  - cbn. intros H. inversion H. eauto.
  - match goal with
    | |- (x <- ?m ;; _) = _ -> _ => destruct m as [[]|e]
    end; cbn [bind]; intros H; inversion H; eauto.
Qed.

(** On a tenant-scoped collection the arguments that reach
    [AggregateTool.execute] always carry a non-empty pipeline, so that
    [execute] takes its custom-pipeline mode whatever [groupBy],
    [statField] and [statOp] are. *)
Lemma prepare_aggregate_has_pipeline (a : AggregateArgs.t) (v' : validated) :
  opt_in (Some (AggregateArgs.collection a))
    (Config.non_tenant_collections cfg) = false ->
  prepare cfg session (AggregateCall a) = Ok v' ->
  exists a' st sts,
    v' = AggregateCall a'
    /\ AggregateArgs.pipeline a' = Some (st :: sts)
    /\ mode_stages SCHEMAS a' = Ok (_sanitize_pipeline_keys (st :: sts)).
Proof.
  intros Hnt. unfold prepare.
  destruct (Session.current_company_id session) as [tenant|]; [|discriminate].
  cbn [filter_of collection_of].
  destruct (scope_filter cfg tenant (Some (AggregateArgs.collection a)) _)
    as [filt|e]; cbn [bind]; [|discriminate].
  cbn [set_filter pipeline_of collection_of AggregateArgs.with_filter
         AggregateArgs.pipeline AggregateArgs.collection].
  destruct (scope_pipeline cfg tenant (Some (AggregateArgs.collection a)) _)
    as [p|e] eqn:Hp; cbn [bind]; [|discriminate].
  apply scope_pipeline_non_empty in Hp; [|exact Hnt].
  destruct Hp as (st & sts & ->).
  cbn [set_pipeline collection_of AggregateArgs.with_pipeline
         AggregateArgs.collection].
  destruct (check_allowed cfg session _); cbn [bind]; [|discriminate].
  intros H. inversion H. subst v'.
  eexists. exists st, sts. split; [reflexivity|]. split; reflexivity.
Qed.

(** Stage 0 of every executed pipeline is the [$match] of step 1, with
    its keys stripped. *)
Lemma aggregate_stage0_is_match (a : AggregateArgs.t) (db coll : string)
    (pl : list value) (adu : bool) :
  aggregate_execute isoparse SCHEMAS cfg session a
  = Ok (AggregateDocuments db coll pl adu) ->
  exists rest,
    pl = VDict [("$match",
                 clean (_inject_case_insensitive
                          (_convert_iso_dates isoparse
                             (VDict (base_filter session a)))))] :: rest.
Proof.
  unfold aggregate_execute.
  destruct (mode_stages SCHEMAS a) as [rest|e]; cbn [bind]; [|discriminate].
  match goal with
  | |- (x <- ?m ;; _) = _ -> _ => destruct m as [sorted|e] eqn:Hs
  end; cbn [bind]; [|discriminate].
  intros H. injection H as _ _ <- _.
  set (m0 := VDict [("$match", _inject_case_insensitive _)]) in *.
  assert (Hhead : exists tl, sorted = m0 :: tl).
  { destruct (truthy_str (AggregateArgs.sortBy a)).
    - match type of Hs with
      | (if ?b then _ else _) = _ => destruct b
      end.
      + injection Hs as <-. eauto.
      + destruct (AggregateArgs.sortDir a); [|discriminate].
        injection Hs as <-. eauto.
    - injection Hs as <-. eauto. }
  destruct Hhead as (tl & ->).
  destruct (AggregateArgs.limit a) as [n|].
  - match goal with
    | |- context [if ?b then _ else _] => destruct b
    end; cbn [app _sanitize_pipeline_keys map]; eauto.
  - cbn [_sanitize_pipeline_keys map]. eauto.
Qed.

End AggregateScope.


(** Each stage of the list is a document with one key that is not
    [$facet]. *)
Ltac single_key_stages :=
  repeat constructor; eexists; eexists; split; reflexivity.

Section NoFacet.
Variable isoparse : string -> option Z.
Variable SCHEMAS : string -> option schema.
Variable cfg : Config.t.
Variable session : Session.t.

Lemma scope_empty_pipeline (tenant coll : string) (p : list value) :
  opt_in (Some coll) (Config.non_tenant_collections cfg) = false ->
  scope_pipeline cfg tenant (Some coll) [] = Ok p ->
  exists tm, p = [VDict [("$match", VDict tm)]].
Proof.
  intros Hnt. unfold scope_pipeline. rewrite Hnt.
  destruct (make_company_filter (Some coll) tenant None) as [tm|e];
    cbn; [|discriminate].
  intros H. inversion H. eauto.
Qed.

Lemma stage_has_clean_single (op k : string) (x : value) :
  stage_has op (clean (VDict [(k, x)])) = String.eqb op (Str.strip k).
Proof.
  unfold stage_has. cbn. unfold Dict.mem. cbn.
  now destruct (String.eqb op (Str.strip k)).
Qed.


Lemma clean_no_facet (l : list value) :
  Forall (fun st => exists k x,
            st = VDict [(k, x)] /\ String.eqb "$facet" (Str.strip k) = false) l ->
  existsb (stage_has "$facet") (map clean l) = false.
Proof.
  induction 1 as [|st l (k & x & -> & Hk) Hl IH]; cbn [map existsb]; auto.
  now rewrite stage_has_clean_single, Hk, IH.
Qed.

Lemma request_pipeline (db coll : string) (pl : list value) (adu : bool)
    (req : db_request) :
  Ok (AggregateDocuments db coll pl adu) = Ok req ->
  pipeline_of_request req = pl.
Proof. intros [= <-]. reflexivity. Qed.

(** [execute] on arguments whose pipeline is the tenant [$match] alone. *)
Lemma execute_tenant_match_only (a : AggregateArgs.t) (tm : dict)
    (req : db_request) :
  AggregateArgs.pipeline a = Some [VDict [("$match", VDict tm)]] ->
  aggregate_execute isoparse SCHEMAS cfg session a = Ok req ->
  existsb (stage_has "$facet") (pipeline_of_request req) = false.
Proof.
  intros Hp. unfold aggregate_execute.
  assert (Hm : mode_stages SCHEMAS a
               = Ok [VDict [("$match", clean (VDict tm))]])
    by (unfold mode_stages; rewrite Hp; reflexivity).
  rewrite Hm. cbn [bind].
  set (m0 := VDict [("$match", _inject_case_insensitive _)]).
  set (m1 := VDict [("$match", clean (VDict tm))]).
  assert (Hf : existsb (fun stage => Dict.mem "$facet" (as_dict stage)) [m0; m1]
               = false) by reflexivity.
  rewrite Hf.
  assert (Hdone : forall tail,
             Forall (fun st => exists k x,
                       st = VDict [(k, x)]
                       /\ String.eqb "$facet" (Str.strip k) = false) tail ->
             existsb (stage_has "$facet")
               (_sanitize_pipeline_keys (m0 :: m1 :: tail)) = false).
  { intros tail Htail. apply clean_no_facet.
    constructor; [eexists; eexists; split; reflexivity|].
    constructor; [eexists; eexists; split; reflexivity|]. exact Htail. }
  clearbody m0 m1.
  destruct (truthy_str (AggregateArgs.sortBy a)) as [sortBy|].
  - destruct (AggregateArgs.sortDir a) as [dir|]; cbn [bind negb];
      [|discriminate].
    destruct (AggregateArgs.limit a) as [n|].
    + destruct (negb (Z.eqb n 0) && true); intros H;
        rewrite (request_pipeline _ _ _ _ _ H); cbn [app]; apply Hdone;
        single_key_stages.
    + intros H. rewrite (request_pipeline _ _ _ _ _ H). cbn [app].
      apply Hdone.
      single_key_stages.
  - cbn [bind negb].
    destruct (AggregateArgs.limit a) as [n|].
    + destruct (negb (Z.eqb n 0) && true); intros H;
        rewrite (request_pipeline _ _ _ _ _ H); cbn [app]; apply Hdone;
        single_key_stages.
    + intros H. rewrite (request_pipeline _ _ _ _ _ H). apply Hdone.
      constructor.
Qed.

(** On a tenant-scoped collection an [aggregate] call without a pipeline
    of its own never runs a [$facet] stage, whatever its [groupBy] is. *)
Lemma tenant_collection_never_facets (a : AggregateArgs.t) (req : db_request) :
  opt_in (Some (AggregateArgs.collection a))
    (Config.non_tenant_collections cfg) = false ->
  AggregateArgs.pipeline a = None ->
  run_request isoparse SCHEMAS cfg session (inr (AggregateCall a)) = Ok req ->
  existsb (stage_has "$facet") (pipeline_of_request req) = false.
Proof.
  intros Hnt Hp. unfold run_request, prepare.
  destruct (Session.current_company_id session) as [tenant|] eqn:Ht;
    [|discriminate].
  cbn [filter_of collection_of].
  destruct (scope_filter cfg tenant (Some (AggregateArgs.collection a)) _)
    as [filt|e]; cbn [bind]; [|discriminate].
  cbn [set_filter pipeline_of collection_of AggregateArgs.with_filter
         AggregateArgs.pipeline AggregateArgs.collection].
  rewrite Hp.
  destruct (scope_pipeline cfg tenant (Some (AggregateArgs.collection a)) [])
    as [p|e] eqn:Hsp; cbn [bind]; [|discriminate].
  apply scope_empty_pipeline in Hsp; [|exact Hnt].
  destruct Hsp as [tm ->].
  cbn [set_pipeline collection_of AggregateArgs.with_pipeline
         AggregateArgs.collection].
  destruct (check_allowed cfg session _); cbn [bind]; [|discriminate].
  cbn [tool_name execute].
  match goal with
  | |- guarded _ (aggregate_execute _ _ _ _ ?a') = _ -> _ =>
      destruct (aggregate_execute isoparse SCHEMAS cfg session a')
        as [r|e] eqn:He
  end.
  - cbn [guarded]. intros H. injection H as <-.
    eapply execute_tenant_match_only; [|exact He]. reflexivity.
  - destruct e; discriminate.
Qed.

End NoFacet.

Section Stage0.
Variable isoparse : string -> option Z.
Variable SCHEMAS : string -> option schema.
Variable cfg : Config.t.
Variable session : Session.t.

Lemma mem_false_iff (k : string) (d : dict) :
  Dict.mem k d = false <-> (forall k', In k' (Dict.keys d) -> k' <> k).
Proof.
  unfold Dict.mem, Dict.keys.
  induction d as [|[k0 v0] d IH]; cbn.
  - split; auto.
  - destruct (String.eqb_spec k k0) as [->|Hne].
    + split; [discriminate|]. intros H. exfalso. apply (H k0); auto.
    + rewrite IH. split.
      * intros H k' [<-|Hin]; auto.
      * intros H k' Hin. apply H. auto.
Qed.

(** In a dict with distinct keys the binding of a key stands alone. *)
Lemma get_split (k : string) (v : value) (d : dict) :
  Dict.fresh_keys d = true ->
  Dict.get k d = Some v ->
  exists l1 l2,
    d = (l1 ++ (k, v) :: l2)%list
    /\ Dict.mem k l1 = false /\ Dict.mem k l2 = false.
Proof.
  induction d as [|[k0 v0] d IH]; cbn; [discriminate|].
  intros Hf Hg. apply andb_true_iff in Hf. destruct Hf as [Hk0 Hf].
  apply negb_true_iff in Hk0.
  destruct (String.eqb_spec k k0) as [->|Hne].
  - inversion Hg. subst v0. exists [], d. auto.
  - destruct (IH Hf Hg) as (l1 & l2 & -> & H1 & H2).
    exists ((k0, v0) :: l1), l2. repeat split; auto.
    unfold Dict.mem in *. cbn.
    destruct (String.eqb_spec k k0); [contradiction|]. exact H1.
Qed.

(** A binding that stands alone among the items is the one the dict
    keeps. *)
Lemma get_of_items_alone (k : string) (v : value) (l1 l2 : dict) :
  Dict.mem k l2 = false ->
  Dict.get k (Dict.of_items (l1 ++ (k, v) :: l2)%list) = Some v.
Proof.
  intros H2. unfold Dict.of_items.
  change (Dict.update [] (l1 ++ (k, v) :: l2)%list)
    with (fold_left (fun acc kv => Dict.set (fst kv) (snd kv) acc)
            (l1 ++ (k, v) :: l2)%list []).
  rewrite fold_left_app. cbn [fold_left fst snd].
  pose proof (DictFacts.get_update_absent k l2
                (Dict.set k v (fold_left (fun acc kv => Dict.set (fst kv) (snd kv) acc) l1 []))
                H2) as Hu.
  unfold Dict.update in Hu. rewrite Hu.
  apply DictFacts.get_set_same.
Qed.

Lemma mem_map_strip (l : dict) :
  (forall k, In k (Dict.keys l) -> Str.strip k <> "company") ->
  Dict.mem "company"
    (map (fun kv : string * value => let (k, v) := kv in (Str.strip k, clean v)) l)
  = false.
Proof.
  intros H. apply mem_false_iff. intros k' Hin.
  unfold Dict.keys in Hin. rewrite map_map in Hin.
  apply in_map_iff in Hin. destruct Hin as ([k0 v0] & <- & Hin).
  cbn. apply H. unfold Dict.keys. apply in_map_iff.
  exists (k0, v0). auto.
Qed.

Lemma keys_set (k : string) (v : value) (d : dict) (k' : string) :
  In k' (Dict.keys (Dict.set k v d)) -> k' = k \/ In k' (Dict.keys d).
Proof.
  unfold Dict.keys.
  induction d as [|[k0 v0] d IH]; cbn.
  - intros [<-|[]]. auto.
  - destruct (String.eqb k k0); cbn.
    + intros [<-|H]; auto.
    + intros [<-|H]; auto. destruct (IH H); auto.
Qed.

Lemma fresh_set (k : string) (v : value) (d : dict) :
  Dict.fresh_keys d = true -> Dict.fresh_keys (Dict.set k v d) = true.
Proof.
  intros H.
  change (Dict.set k v d) with (Dict.update d [(k, v)]).
  now apply fresh_update.
Qed.

Lemma convert_dict (d : dict) :
  Dict.fresh_keys d = true ->
  _convert_iso_dates isoparse (VDict d)
  = VDict (map (fun kv : string * value =>
                  let (k, v) := kv in (k, _convert_iso_dates isoparse v)) d).
Proof.
  intros H. cbn [_convert_iso_dates]. f_equal.
  apply DictFacts.of_items_fresh.
  now rewrite (DictFacts.fresh_map_values (fun _ v => _convert_iso_dates isoparse v)).
Qed.

(** The [$match] document that [execute] builds binds [company] to the
    tenant, for every collection, as long as no other key of the filter
    is [company] once stripped. *)
Lemma match_stage_binds_tenant (tenant : string) (f : dict) :
  Dict.fresh_keys f = true ->
  (forall k, In k (Dict.keys f) -> Str.strip k = "company" -> k = "company") ->
  exists m,
    clean (_inject_case_insensitive
             (_convert_iso_dates isoparse
                (VDict (Dict.set "company" (VOid tenant) f))))
    = VDict m
    /\ Dict.get "company" m = Some (VOid tenant).
Proof.
  intros Hf Hk.
  set (d0 := Dict.set "company" (VOid tenant) f).
  assert (Hf0 : Dict.fresh_keys d0 = true) by (now apply fresh_set).
  assert (Hg0 : Dict.get "company" d0 = Some (VOid tenant))
    by apply DictFacts.get_set_same.
  rewrite convert_dict by exact Hf0.
  set (conv := fun kv : string * value =>
                 let (k, v) := kv in (k, _convert_iso_dates isoparse v)).
  assert (Hf1 : Dict.fresh_keys (map conv d0) = true)
    by (unfold conv;
        now rewrite (DictFacts.fresh_map_values
                       (fun _ v => _convert_iso_dates isoparse v))).
  rewrite inject_dict by exact Hf1.
  rewrite map_map.
  destruct (get_split "company" (VOid tenant) d0 Hf0 Hg0)
    as (l1 & l2 & Hd & H1 & H2).
  rewrite Hd. cbn [clean]. eexists. split; [reflexivity|].
  rewrite !map_app. cbn [map conv].
  change (Str.strip "company") with "company".
  cbn [Str.startswith String.prefix andb _convert_iso_dates
         _inject_case_insensitive clean].
  apply get_of_items_alone.
  rewrite map_map.
  apply mem_false_iff. intros k' Hin.
  unfold Dict.keys in Hin. rewrite map_map in Hin.
  apply in_map_iff in Hin. destruct Hin as ([k0 v0] & Hk0 & Hin).
  assert (Hkey : k' = Str.strip k0).
  { rewrite <- Hk0. unfold conv.
    destruct (Str.startswith k0 "$"
              && is_dict_or_list (_convert_iso_dates isoparse v0));
      reflexivity. }
  subst k'. intros Hs.
  assert (Hin0 : In k0 (Dict.keys l2))
    by (unfold Dict.keys; apply in_map_iff; exists (k0, v0); auto).
  assert (Hne : k0 <> "company")
    by (apply (proj1 (mem_false_iff "company" l2) H2); exact Hin0).
  apply Hne. apply Hk; auto.
  assert (Hin1 : In k0 (Dict.keys d0)).
  { rewrite Hd. unfold Dict.keys. rewrite map_app. apply in_or_app.
    right. right. exact Hin0. }
  destruct (keys_set _ _ _ _ Hin1) as [->|Hin2]; [contradiction|exact Hin2].
Qed.

(** Stage 0 of every executed pipeline binds [company] to the tenant of
    the session, also on a collection of the non-tenant set, as long as
    no other key of the filter is [company] once stripped. *)
Lemma aggregate_stage0_binds_tenant (a : AggregateArgs.t) (tenant : string)
    (db coll : string) (pl : list value) (adu : bool) :
  let f := match AggregateArgs.filter a with Some f => f | None => [] end in
  Session.current_company_id session = Some tenant ->
  Dict.fresh_keys f = true ->
  (forall k, In k (Dict.keys f) -> Str.strip k = "company" -> k = "company") ->
  aggregate_execute isoparse SCHEMAS cfg session a
  = Ok (AggregateDocuments db coll pl adu) ->
  exists m rest,
    pl = VDict [("$match", VDict m)] :: rest
    /\ Dict.get "company" m = Some (VOid tenant).
Proof.
  intros f Ht Hf Hk He.
  destruct (aggregate_stage0_is_match isoparse SCHEMAS cfg session a
              db coll pl adu He) as [rest ->].
  unfold base_filter. rewrite Ht. fold f.
  destruct (match_stage_binds_tenant tenant f Hf Hk) as (m & -> & Hm).
  exists m, rest. auto.
Qed.

End Stage0.
(** C2 at a failing input. With tenant A, [aggregate] on the
    tenant-scoped collection [leads] with only [groupBy] runs the
    pipeline [$match, $match, $limit]: the tool base has put a tenant
    [$match] into the [pipeline] argument, [execute] takes its
    custom-pipeline mode, and no [$facet] stage is built. *)
Theorem group_by_on_tenant_collection_runs_no_facet
    (isoparse : string -> option Z) (SCHEMAS : string -> option schema) :
  let pl := [ Sample.tenant_match; Sample.tenant_match;
              VDict [("$limit", VInt 100)] ] in
  run_request isoparse SCHEMAS Sample.cfg Sample.session_A
    (inr (AggregateCall (Sample.group_by_args "leads" "sourceType" None)))
  = Ok (AggregateDocuments "test" "leads" pl false)
  /\ existsb (stage_has "$facet") pl = false.
Proof. split; reflexivity. Qed.

(** C7 at two failing inputs. On the tenant-global collection [plans]
    the executed pipeline still starts with a [$match] on the tenant's
    [company]; and on the tenant-scoped collection [leads] a filter key
    that is [company] with a leading space ends up, after the keys are
    stripped, as the [company] of stage 0 in place of the tenant id. *)
Theorem aggregate_tenant_match_divergence
    (isoparse : string -> option Z) (SCHEMAS : string -> option schema) :
  (exists rest,
     run_request isoparse SCHEMAS Sample.cfg Sample.session_A
       (inr (AggregateCall (Sample.group_by_args "plans" "name" None)))
     = Ok (AggregateDocuments "test" "plans" (Sample.tenant_match :: rest) false))
  /\ Str.in_list "plans" (Config.non_tenant_collections Sample.cfg) = true
  /\ (exists rest,
        run_request isoparse SCHEMAS Sample.cfg Sample.session_A
          (inr (AggregateCall
                  (Sample.group_by_args "leads" "name"
                     (Some [(" company", VInt 5)]))))
        = Ok (AggregateDocuments "test" "leads"
                (VDict [("$match", VDict [("company", VInt 5)])] :: rest)
                false)).
Proof.
  split; [|split].
  - eexists. reflexivity.
  - reflexivity.
  - eexists. reflexivity.
Qed.

(** ** The allow-list *)

Section AllowList.
Variable cfg : Config.t.
Variable session : Session.t.
Variable coll : string.
Variables (a : string) (al : list string).
Hypothesis configured : Config.allowed_collections cfg = Some (a :: al).
Hypothesis named : non_empty coll = true.
Hypothesis disallowed : Str.in_list coll (a :: al) = false.

(** The error for a disallowed collection is always the same text: the
    names of the allowed collections are looked up under the key
    [collections], which the result of [list_collections] lacks. *)
Lemma check_allowed_message (e : exn) :
  check_allowed cfg session (Some coll) = Raise e ->
  e = RuntimeError "No tenant ID set on session.current_company_id."
  \/ e = ToolException
           "No collections are currently allowed. Check your `allowed_collections` configuration.".
Proof.
  unfold check_allowed, truthy_str. rewrite named, configured, disallowed.
  unfold list_collections_run.
  destruct (Session.current_company_id session); cbn.
  - intros H. inversion H. auto.
  - intros H. inversion H. auto.
Qed.

Lemma check_allowed_raises :
  exists e, check_allowed cfg session (Some coll) = Raise e.
Proof.
  unfold check_allowed, truthy_str. rewrite named, configured, disallowed.
  unfold list_collections_run.
  destruct (Session.current_company_id session); cbn; eauto.
Qed.

Lemma collection_of_set_filter (v : validated) (f : dict) :
  collection_of (set_filter v f) = collection_of v.
Proof. destruct v; reflexivity. Qed.

Lemma collection_of_set_pipeline (v : validated) (p : list value) :
  collection_of (set_pipeline v p) = collection_of v.
Proof. destruct v; reflexivity. Qed.

(** A call that names a disallowed collection sends no request. *)
Lemma disallowed_sends_nothing (isoparse : string -> option Z)
    (SCHEMAS : string -> option schema) (v : validated) :
  collection_of v = Some (Some coll) ->
  exists e, run_request isoparse SCHEMAS cfg session (inr v) = Raise e.
Proof.
  intros Hc. unfold run_request, prepare.
  destruct (Session.current_company_id session) as [tenant|]; cbn [bind];
    [|eauto].
  assert (H1 : forall r : result validated,
             (forall v1, r = Ok v1 -> collection_of v1 = Some (Some coll)) ->
             exists e,
               (v' <- (v1 <- r ;;
                       v2 <- match pipeline_of v1, collection_of v1 with
                             | Some pipeline, Some c =>
                                 p <- scope_pipeline cfg tenant c pipeline ;;
                                 Ok (set_pipeline v1 p)
                             | _, _ => Ok v1
                             end ;;
                       _ <- match collection_of v2 with
                            | Some c => check_allowed cfg session c
                            | None => Ok tt
                            end ;;
                       Ok v2) ;;
                guarded (tool_name v') (execute isoparse SCHEMAS cfg session v'))
               = Raise e).
  { intros [v1|e] Hr; cbn [bind]; [|eauto].
    specialize (Hr v1 eq_refl).
    assert (H2 : forall r2 : result validated,
               (forall v2, r2 = Ok v2 -> collection_of v2 = Some (Some coll)) ->
               exists e,
                 (v' <- (v2 <- r2 ;;
                         _ <- match collection_of v2 with
                              | Some c => check_allowed cfg session c
                              | None => Ok tt
                              end ;;
                         Ok v2) ;;
                  guarded (tool_name v') (execute isoparse SCHEMAS cfg session v'))
                 = Raise e).
    { intros [v2|e] Hr2; cbn [bind]; [|eauto].
      rewrite (Hr2 v2 eq_refl).
      destruct check_allowed_raises as [e He]. rewrite He. cbn. eauto. }
    apply H2. intros v2.
    rewrite Hr.
    destruct (pipeline_of v1).
    - destruct (scope_pipeline cfg tenant (Some coll) l); cbn [bind];
        intros H; inversion H.
      now rewrite collection_of_set_pipeline.
    - intros H. inversion H. now subst. }
  apply H1. intros v1. rewrite Hc.
  destruct (filter_of v).
  - destruct (scope_filter cfg tenant (Some coll) d); cbn [bind];
      intros H; inversion H.
    now rewrite collection_of_set_filter.
  - intros H. inversion H. now subst.
Qed.

End AllowList.

(** C5 at a failing input. With the allow-list [leads, projects] and
    tenant A, a [count] on [payments] fails before any request is sent,
    and its error text says that no collections are allowed: it names
    none of the allowed collections. *)
Theorem disallowed_collection_error_text
    (isoparse : string -> option Z) (SCHEMAS : string -> option schema) :
  let msg := "No collections are currently allowed. Check your `allowed_collections` configuration." in
  run_request isoparse SCHEMAS Sample.cfg_allow Sample.session_A
    (inr (Sample.count_call "payments" []))
  = Raise (ToolException msg)
  /\ is_substring "leads" msg = false
  /\ is_substring "projects" msg = false.
Proof. repeat split. Qed.

(** ** The telemetry buffer *)

Module TelemetryFacts.
Import Telemetry.

Lemma init_invariant (e : bool) (cap : nat) : invariant cap (init e cap).
Proof.
  constructor; cbn; auto with arith; constructor.
Qed.

Lemma sorted_snoc (l : list nat) (x : nat) :
  StronglySorted lt l -> Forall (fun k => k < x) l ->
  StronglySorted lt (l ++ [x]).
Proof.
  induction 1 as [|a l Hs IH Ha]; intros Hx; cbn.
  - repeat constructor.
  - inversion Hx; subst. constructor; auto.
    apply Forall_app. split; auto.
Qed.

Lemma min_of_sorted (k : nat) (l : list nat) :
  Forall (lt k) l -> fold_left Nat.min l k = k.
Proof.
  induction 1 as [|a l Ha Hl IH]; cbn; auto.
  rewrite Nat.min_l by lia. exact IH.
Qed.

Lemma remove_above (k : nat) (l : list (nat * event)) :
  Forall (lt k) (map fst l) -> LRUCache.remove k l = l.
Proof.
  unfold LRUCache.remove.
  induction l as [|[a e] l IH]; cbn; intros H; auto.
  inversion H; subst.
  destruct (Nat.eqb_spec k a); [lia|]. cbn. f_equal. auto.
Qed.

Lemma has_below (k : nat) (c : LRUCache.t) :
  Forall (fun a => a < k) (LRUCache.keys c) -> LRUCache.has k c = false.
Proof.
  unfold LRUCache.has. generalize (LRUCache.keys c). intros l.
  induction l as [|a l IH]; cbn; intros H; auto.
  inversion H; subst.
  destruct (Nat.eqb_spec k a); [lia|]. cbn. auto.
Qed.

Lemma make_room_fits (n : nat) (l : list (nat * event)) :
  List.length l + 1 <= n -> LRUCache.make_room n l = l.
Proof.
  destruct l as [|a l]; cbn [LRUCache.make_room]; auto.
  intros H. destruct (Nat.leb_spec (List.length (a :: l) + 1) n); auto. lia.
Qed.

Section Step.
Variable cap : nat.
Variable tel : t.
Variable c : call.
Hypothesis inv : invariant cap tel.
Hypothesis on : enabled tel = true.

(** Recording into a buffer with room left appends the event. *)
Lemma record_with_room :
  LRUCache.len (_cache tel) < cap ->
  exists tel',
    record tel c = Ok tel'
    /\ LRUCache.items (_cache tel')
       = (LRUCache.items (_cache tel) ++ [(_next_idx tel, event_of c)])%list
    /\ _next_idx tel' = S (_next_idx tel)
    /\ enabled tel' = true
    /\ LRUCache.maxsize (_cache tel') = cap.
Proof.
  intros Hlen. destruct inv as [Hcap Hs Hb Hl].
  unfold record. rewrite on. cbn [negb].
  destruct (Nat.leb_spec (LRUCache.maxsize (_cache tel))
              (LRUCache.len (_cache tel))); [lia|].
  cbn [bind]. unfold LRUCache.setitem.
  destruct (Nat.ltb_spec (LRUCache.maxsize (_cache tel)) 1); [lia|].
  rewrite has_below by exact Hb.
  rewrite make_room_fits by (unfold LRUCache.len in *; lia).
  cbn. eexists. repeat split; auto.
Qed.

(** Recording into a full buffer drops the entry with the smallest
    index, which is the first, and appends the event. *)
Lemma record_when_full :
  0 < cap ->
  LRUCache.len (_cache tel) = cap ->
  exists oldest rest tel',
    LRUCache.items (_cache tel) = oldest :: rest
    /\ Forall (fun kv => fst oldest < fst kv) rest
    /\ record tel c = Ok tel'
    /\ LRUCache.items (_cache tel')
       = (rest ++ [(_next_idx tel, event_of c)])%list
    /\ _next_idx tel' = S (_next_idx tel)
    /\ enabled tel' = true
    /\ LRUCache.maxsize (_cache tel') = cap.
Proof.
  intros Hpos Hfull. destruct inv as [Hcap Hs Hb Hl].
  unfold record. rewrite on. cbn [negb].
  unfold LRUCache.len, LRUCache.keys in *.
  destruct (_cache tel) as [m items].
  cbn [LRUCache.maxsize LRUCache.items] in *.
  destruct items as [|[k0 e0] rest]; [cbn in Hfull; lia|].
  cbn [map fst] in Hs, Hb.
  apply StronglySorted_inv in Hs. destruct Hs as [Hs' Hk0].
  pose proof (Forall_inv_tail Hb) as Hb'.
  exists (k0, e0), rest.
  assert (Hrest : Forall (fun kv : nat * event => k0 < fst kv) rest).
  { clear - Hk0. induction rest as [|[a e] r IH]; constructor;
      inversion Hk0; auto. }
  destruct (Nat.leb_spec m (List.length ((k0, e0) :: rest))); [|lia].
  cbn [map fst min_key]. rewrite min_of_sorted by exact Hk0.
  cbn [bind]. unfold LRUCache.pop, LRUCache.setitem.
  cbn [LRUCache.maxsize LRUCache.items].
  destruct (Nat.ltb_spec m 1); [lia|].
  assert (Hrm : LRUCache.remove k0 ((k0, e0) :: rest) = rest).
  { unfold LRUCache.remove. cbn. rewrite Nat.eqb_refl. cbn.
    apply remove_above. exact Hk0. }
  rewrite Hrm.
  rewrite has_below by exact Hb'.
  rewrite make_room_fits by (cbn in Hfull; lia).
  cbn. eexists. repeat split; auto.
Qed.

(** [record] keeps the invariant, also when it raises. *)
Lemma record_invariant :
  invariant cap (match record tel c with Ok tel' => tel' | Raise _ => tel end).
Proof.
  destruct (Nat.eq_dec cap 0) as [Hz|Hnz].
  - (* a cap of zero: the buffer is empty and [min] raises *)
    assert (Hr : record tel c
                 = Raise (ValueError "min() arg is an empty sequence")).
    { destruct inv as [Hcap Hs Hb Hl].
      unfold record. rewrite on. cbn [negb].
      unfold LRUCache.len, LRUCache.keys in *.
      destruct (_cache tel) as [m items].
      cbn [LRUCache.maxsize LRUCache.items] in *.
      destruct items; [|cbn in Hl; lia].
      assert (Hm : m = 0) by lia. rewrite Hm. reflexivity. }
    rewrite Hr. exact inv.
  - destruct (Nat.lt_ge_cases (LRUCache.len (_cache tel)) cap) as [Hlt|Hge].
    + destruct (record_with_room Hlt) as (tel' & -> & Hi & Hn & _ & Hm).
      destruct inv as [Hcap Hs Hb Hl].
      unfold LRUCache.len, LRUCache.keys in *.
      constructor; unfold LRUCache.len, LRUCache.keys; rewrite ?Hi, ?Hn; auto.
      * rewrite map_app. cbn. apply sorted_snoc; auto.
      * rewrite map_app. cbn. apply Forall_app. split.
        -- eapply Forall_impl; [|exact Hb]. cbn. lia.
        -- repeat constructor.
      * rewrite length_app. cbn. lia.
    + assert (Hfull : LRUCache.len (_cache tel) = cap)
        by (destruct inv; lia).
      destruct (record_when_full ltac:(lia) Hfull)
        as (oldest & rest & tel' & Hitems & Hmin & -> & Hi & Hn & _ & Hm).
      destruct inv as [Hcap Hs Hb Hl].
      unfold LRUCache.len, LRUCache.keys in *.
      rewrite Hitems in *. cbn in Hs, Hb, Hfull.
      inversion Hs; subst. inversion Hb; subst.
      constructor; unfold LRUCache.len, LRUCache.keys; rewrite ?Hi, ?Hn; auto.
      * rewrite map_app. cbn. apply sorted_snoc; auto.
      * rewrite map_app. cbn. apply Forall_app. split.
        -- eapply Forall_impl; [|eassumption]. cbn. lia.
        -- repeat constructor.
      * rewrite length_app. cbn. lia.
Qed.

End Step.

Lemma record_disabled (tel : t) (c : call) :
  enabled tel = false -> record tel c = Ok tel.
Proof. intros H. unfold record. now rewrite H. Qed.

Lemma record_enabled (tel tel' : t) (c : call) :
  record tel c = Ok tel' -> enabled tel' = enabled tel.
Proof.
  unfold record. destruct (enabled tel) eqn:E; cbn [negb].
  - destruct (_ <=? _)%nat.
    + destruct (min_key _); cbn [bind]; [|discriminate].
      destruct (LRUCache.setitem _ _ _); cbn [bind]; [|discriminate].
      intros H. inversion H. reflexivity.
    + cbn [bind]. destruct (LRUCache.setitem _ _ _); cbn [bind]; [|discriminate].
      intros H. inversion H. reflexivity.
  - intros H. inversion H. now subst.
Qed.

(** Every telemetry reached by recording keeps the invariant and its
    switch. *)
Lemma record_all_invariant (cap : nat) (calls : list call) (tel : t) :
  invariant cap tel ->
  invariant cap (record_all tel calls)
  /\ enabled (record_all tel calls) = enabled tel.
Proof.
  revert tel. induction calls as [|c calls IH]; intros tel Hinv; cbn; auto.
  unfold record_all in *. cbn.
  destruct (enabled tel) eqn:E.
  - pose proof (record_invariant cap tel c Hinv E) as Hstep.
    destruct (record tel c) as [tel'|e] eqn:Hr.
    + destruct (IH tel' Hstep) as [H1 H2]. split; auto.
      rewrite H2. rewrite (record_enabled _ _ _ Hr). exact E.
    + destruct (IH tel Hinv) as [H1 H2]. split; auto. now rewrite H2.
  - rewrite record_disabled by exact E.
    destruct (IH tel Hinv) as [H1 H2]. split; auto. now rewrite H2.
Qed.

End TelemetryFacts.

(** C9. Whatever calls of [record] a telemetry has seen since it was
    created, its buffer holds at most [cap] events. When it is enabled
    and the buffer is full, the next [record] drops exactly the first
    entry, whose index is smaller than every other, and appends the new
    event; with room left it only appends. *)
Theorem telemetry_buffer_bounded_oldest_evicted
    (is_enabled : bool) (cap : nat) (calls : list Telemetry.call) :
  let tel := Telemetry.record_all (Telemetry.init is_enabled cap) calls in
  let buffer := Telemetry.LRUCache.items (Telemetry._cache tel) in
  List.length buffer <= cap
  /\ (forall c : Telemetry.call,
        is_enabled = true -> 0 < cap -> List.length buffer = cap ->
        exists oldest rest tel',
          buffer = oldest :: rest
          /\ Forall (fun kv => fst oldest < fst kv) rest
          /\ Telemetry.record tel c = Ok tel'
          /\ Telemetry.LRUCache.items (Telemetry._cache tel')
             = (rest ++ [(Telemetry._next_idx tel, Telemetry.event_of c)])%list)
  /\ (forall c : Telemetry.call,
        is_enabled = true -> List.length buffer < cap ->
        exists tel',
          Telemetry.record tel c = Ok tel'
          /\ Telemetry.LRUCache.items (Telemetry._cache tel')
             = (buffer ++ [(Telemetry._next_idx tel, Telemetry.event_of c)])%list).
Proof.
  cbv zeta.
  destruct (TelemetryFacts.record_all_invariant cap calls
              (Telemetry.init is_enabled cap)
              (TelemetryFacts.init_invariant is_enabled cap)) as [Hinv Hen].
  cbn [Telemetry.init Telemetry.enabled] in Hen.
  set (tel := Telemetry.record_all (Telemetry.init is_enabled cap) calls) in *.
  split; [|split].
  - exact (Telemetry.inv_len _ _ Hinv).
  - intros c He Hpos Hfull. rewrite He in Hen.
    destruct (TelemetryFacts.record_when_full cap tel c Hinv Hen Hpos Hfull)
      as (oldest & rest & tel' & H1 & H2 & H3 & H4 & _).
    exists oldest, rest, tel'. auto.
  - intros c He Hlt. rewrite He in Hen.
    destruct (TelemetryFacts.record_with_room cap tel c Hinv Hen Hlt)
      as (tel' & H1 & H2 & _).
    exists tel'. auto.
Qed.

(** ** Redaction of telemetry arguments *)

Section Redaction.
Import Telemetry.

Lemma sub_quote_free (s : string) :
  Str.mem Str.dquote s = false -> _RE_sub s = s.
Proof.
  unfold _RE_sub.
  induction s as [|c t IH]; cbn [sub_from]; auto.
  cbn [Str.mem]. intros H. apply orb_false_iff in H. destruct H as [Hc Ht].
  unfold match_here, take_char.
  rewrite Hc. now rewrite IH.
Qed.

(** Redaction looks at no key: a value whose strings hold no double
    quote comes back as it is, whatever its keys are. *)
Lemma redact_val_quote_free (v : value) :
  wf v -> quote_free v = true -> redact_val v = v.
Proof.
  induction v as [| | | | | |l IH|d IH] using value_nested_ind;
    intros Hwf Hq; cbn [redact_val]; auto.
  - cbn in Hq. apply negb_true_iff in Hq. now rewrite sub_quote_free.
  - f_equal. pose proof (wf_list l Hwf) as Hall. cbn in Hq.
    induction l as [|x l IHl]; cbn; auto.
    inversion IH; subst. inversion Hall; subst.
    cbn in Hq. apply andb_true_iff in Hq. destruct Hq as [Hx Hl].
    f_equal; auto.
    apply IHl; auto.
    unfold wf in *. cbn in *. apply andb_true_iff in Hwf. tauto.
  - f_equal. pose proof (wf_dict d Hwf) as [Hf Hall]. cbn in Hq.
    assert (E : map (fun kv : string * value =>
                       let (k, vv) := kv in (k, redact_val vv)) d = d).
    { clear Hf Hwf.
      induction d as [|[k x] d IHd]; cbn; auto.
      inversion IH; subst. inversion Hall; subst.
      cbn in Hq. apply andb_true_iff in Hq. destruct Hq as [Hx Hd].
      f_equal; auto. f_equal. cbn in *. auto. }
    rewrite E. now apply DictFacts.of_items_fresh.
Qed.

Lemma redact_dict_quote_free (d : dict) :
  wf (VDict d) -> quote_free (VDict d) = true -> _redact_dict d = d.
Proof.
  intros Hwf Hq.
  pose proof (redact_val_quote_free (VDict d) Hwf Hq) as H.
  cbn [redact_val] in H. inversion H as [H']. unfold _redact_dict.
  now rewrite H'.
Qed.

End Redaction.

(** C8 at a failing input. The arguments bind [password] to a secret at
    the top and [apiKey] and [passphrase] one level down, besides
    [certificate]. The event that [record] buffers carries these
    arguments unchanged: the pattern is only applied to the text of
    string values, where it finds a quoted sensitive key followed by a
    quoted value (as in the JSON text of [password]), and its key list
    has neither [certificate] nor [passphrase]. *)
Theorem sensitive_keys_reach_the_buffer :
  Telemetry._redact_dict Sample2.secret_args = Sample2.secret_args
  /\ (exists tel',
        Telemetry.record (Telemetry.init true Telemetry.default_cache_size)
          Sample2.secret_call = Ok tel'
        /\ map (fun kv => Telemetry.arguments (snd kv))
             (Telemetry.LRUCache.items (Telemetry._cache tel'))
           = [Some Sample2.secret_args])
  /\ Telemetry._RE_sub (Sample2.json_pair "password" "hunter2")
     = Sample2.json_pair "password" "<REDACTED>"
  /\ Telemetry._RE_sub (Sample2.json_pair "passphrase" "open sesame")
     = Sample2.json_pair "passphrase" "open sesame"
  /\ Telemetry._RE_sub (Sample2.json_pair "certificate" "PEM")
     = Sample2.json_pair "certificate" "PEM".
Proof.
  split; [reflexivity|]. split.
  - eexists. split; reflexivity.
  - repeat split; vm_compute; reflexivity.
Qed.

(** The scenario of the specification: with a cap of three, five
    recorded events leave the events of index 2, 3 and 4. *)
Example telemetry_overflow_scenario :
  Telemetry.LRUCache.keys
    (Telemetry._cache
       (Telemetry.record_all (Telemetry.init true 3)
          (map Sample2.call [0; 1; 2; 3; 4]%Z)))
  = [2; 3; 4].
Proof. reflexivity. Qed.

Lemma telemetry_buffer_bounded_oldest_evicted_witness :
  0 < 3
  /\ List.length (Telemetry.LRUCache.items
                    (Telemetry._cache Sample2.full_telemetry)) = 3
  /\ exists oldest rest tel',
       Telemetry.LRUCache.items (Telemetry._cache Sample2.full_telemetry)
       = oldest :: rest
       /\ Forall (fun kv => fst oldest < fst kv) rest
       /\ Telemetry.record Sample2.full_telemetry (Sample2.call 3) = Ok tel'
       /\ Telemetry.LRUCache.items (Telemetry._cache tel')
          = (rest ++ [(Telemetry._next_idx Sample2.full_telemetry,
                       Telemetry.event_of (Sample2.call 3))])%list.
Proof.
  split; [exact (Nat.lt_0_succ 2)|]. split; [reflexivity|].
  exact (proj1 (proj2 (telemetry_buffer_bounded_oldest_evicted true 3
                         (map Sample2.call [0; 1; 2]%Z)))
           (Sample2.call 3) eq_refl (Nat.lt_0_succ 2) eq_refl).
Defined.

(** ** The retry budget of the chat loop *)

Section ZeroCounts.
Import Chat.
Variable _ct : string -> dict -> string -> result (value * bool).
Variable enrich : value -> option value.
Variable summarize : string -> string -> option string.
Variables company_id query : string.

(** Every [count] comes back empty, and the schema is served. *)
Hypothesis count_empty :
  forall args, exists out, _ct "count" args company_id = Ok (out, true).
Hypothesis schema_served :
  forall args, exists r, _ct "collection_schema" args company_id = Ok r.

Lemma prefetch_count (args : dict) (st : state) :
  exists st1,
    prefetch _ct company_id "count" args st = Ok st1
    /\ found st1 = found st /\ retries st1 = retries st.
Proof.
  unfold prefetch.
  destruct (Dict.get "collection" args) as [coll|]; [|eauto].
  destruct (is_data_tool "count" && truthy coll); [|eauto].
  destruct (schema_served [("collection", coll); ("maxValues", VInt 10)])
    as [r ->].
  destruct (count_empty [("collection", coll); ("filter", VDict [])])
    as [out ->].
  cbn [bind]. eexists. split; [reflexivity|]. split; reflexivity.
Qed.

(** An empty [count] while nothing is found: with a retry left it
    spends one; with none left it appends the canned message. *)
Lemma empty_count_step (args : dict) (st : state) :
  found st = false ->
  exists st' prefix out,
    on_function_call _ct enrich company_id "count" args st = Ok st'
    /\ match retries st with
       | S r =>
           found st' = false /\ retries st' = r
           /\ messages st' = (prefix ++ [Function "count" out])%list
       | O =>
           found st' = true /\ retries st' = 0
           /\ messages st'
              = (prefix ++ [Function "count" out; Assistant NO_DATA])%list
       end.
Proof.
  intros Hf. unfold on_function_call.
  change (String.eqb "count" "search") with false. cbv iota.
  destruct (prefetch_count args st) as (st1 & -> & Hf1 & Hr1).
  cbn [bind].
  destruct (count_empty args) as [out ->]. cbn [bind].
  cbn [push found retries messages negb].
  rewrite Hf1, Hf, Hr1. cbn [orb negb].
  destruct (retries st) as [|r].
  - eexists. exists (messages st1), (match enrich out with
                                     | Some o => o
                                     | None => out
                                     end).
    split; [reflexivity|]. cbn. rewrite <- app_assoc. auto.
  - eexists. exists (messages st1), (match enrich out with
                                     | Some o => o
                                     | None => out
                                     end).
    split; [reflexivity|]. cbn. auto.
Qed.

End ZeroCounts.

(** C10, as the code has it. A [count] result of zero is classified as
    empty. With a valid tenant id and a server whose [count] answers
    zero, a turn in which the model calls [count] twice has spent both
    retries and found nothing, and the third [count] call appends the
    canned no-data message and marks the turn as found; the loop then
    asks the model again, and a text answer becomes the reply. *)
Theorem zero_counts_spend_retries_then_no_data
    (isoformat : Z -> string) (str_of : value -> string)
    (rpc : Session.t -> string -> dict -> result value)
    (enrich : value -> option value)
    (summarize : string -> string -> option string)
    (company_id query : string) (session : Session.t)
    (ms : list message) (a1 a2 a3 : dict) :
  valid_object_id company_id = true ->
  (forall s args, rpc s "count" args = Ok Sample2.zero_count) ->
  (forall s args, exists r, rpc s "collection_schema" args = Ok r) ->
  let _ct := fun name args cid =>
               call_tool isoformat str_of rpc name args cid session in
  let run := Chat._run_chat _ct enrich summarize company_id query ms in
  result_is_empty "count" Sample2.zero_count = true
  /\ (exists st prefix out,
        run [FunctionCall "count" a1; FunctionCall "count" a2] = Chat.Waiting st
        /\ Chat.found st = false /\ Chat.retries st = 0
        /\ Chat.messages st = (prefix ++ [Function "count" out])%list)
  /\ (exists st prefix out,
        run [FunctionCall "count" a1; FunctionCall "count" a2;
             FunctionCall "count" a3] = Chat.Waiting st
        /\ Chat.found st = true /\ Chat.retries st = 0
        /\ Chat.messages st
           = (prefix ++ [Function "count" out; Assistant NO_DATA])%list
        /\ forall text,
             run [FunctionCall "count" a1; FunctionCall "count" a2;
                  FunctionCall "count" a3; Content text]
             = Chat.Replied (match summarize query text with
                             | Some s => s
                             | None => text
                             end) st).
Proof.
  intros Hvalid Hcount Hschema _ct run.
  assert (Hc : forall args, exists out, _ct "count" args company_id = Ok (out, true)).
  { intros args. unfold _ct, call_tool, Session.set_current_company_id.
    cbv beta. rewrite Hvalid.
    change (String.eqb "count" "find") with false.
    cbv iota. cbn [bind]. rewrite Hcount. eexists. reflexivity. }
  assert (Hs : forall args, exists r, _ct "collection_schema" args company_id = Ok r).
  { intros args. unfold _ct, call_tool, Session.set_current_company_id.
    cbv beta. rewrite Hvalid.
    change (String.eqb "collection_schema" "find") with false.
    cbv iota. cbn [bind].
    destruct (Hschema {| Session._company_id := Some (Str.lower company_id) |} args)
      as [r ->].
    eexists. reflexivity. }
  split; [reflexivity|].
  destruct (empty_count_step _ct enrich company_id Hc Hs a1 (Chat.start ms) eq_refl)
    as (s1 & p1 & o1 & E1 & F1 & R1 & M1).
  cbn [Chat.start Chat.retries] in R1.
  destruct (empty_count_step _ct enrich company_id Hc Hs a2 s1 F1)
    as (s2 & p2 & o2 & E2 & H2).
  rewrite R1 in H2. destruct H2 as (F2 & R2 & M2).
  destruct (empty_count_step _ct enrich company_id Hc Hs a3 s2 F2)
    as (s3 & p3 & o3 & E3 & H3).
  rewrite R2 in H3. destruct H3 as (F3 & R3 & M3).
  unfold run, Chat._run_chat. cbn [Chat.loop].
  rewrite E1, E2. split.
  - exists s2, p2, o2. auto.
  - rewrite E3. exists s3, p3, o3. repeat split; auto.
    intros text. cbn [Chat.loop]. rewrite F3. reflexivity.
Qed.

Lemma zero_counts_spend_retries_then_no_data_witness :
  valid_object_id Sample.tenant_A = true
  /\ exists st prefix out,
       Chat._run_chat Sample2.ct_zero Sample2.no_enrich Sample2.no_summary
         Sample.tenant_A "how many leads?" Sample2.opening
         [ FunctionCall "count" Sample2.count_args;
           FunctionCall "count" Sample2.count_args;
           FunctionCall "count" Sample2.count_args ]
       = Chat.Waiting st
       /\ Chat.found st = true /\ Chat.retries st = 0
       /\ Chat.messages st
          = (prefix ++ [Function "count" out; Assistant NO_DATA])%list
       /\ forall text,
            Chat._run_chat Sample2.ct_zero Sample2.no_enrich Sample2.no_summary
              Sample.tenant_A "how many leads?" Sample2.opening
              [ FunctionCall "count" Sample2.count_args;
                FunctionCall "count" Sample2.count_args;
                FunctionCall "count" Sample2.count_args;
                Content text ]
            = Chat.Replied text st.
Proof.
  split; [reflexivity|].
  exact (proj2 (proj2 (zero_counts_spend_retries_then_no_data
                         (fun _ => EmptyString) (fun _ => EmptyString)
                         Sample2.rpc_zero Sample2.no_enrich Sample2.no_summary
                         Sample.tenant_A "how many leads?" Session.init
                         Sample2.opening
                         Sample2.count_args Sample2.count_args Sample2.count_args
                         eq_refl
                         (fun _ _ => eq_refl)
                         (fun _ _ => ex_intro _ (VDict []) eq_refl)))).
Defined.

(** The claim of C10 fails on a turn in which the model calls [count]
    once, gets zero, and then answers in text twice: the first text only
    draws the nudge, the second is the reply. Every tool call of the
    turn returned a zero count and both retries are spent, yet the
    canned no-data message is nowhere in the conversation and the reply
    is the model's own text. *)
Lemma zero_count_turn_without_no_data :
  exists st,
    Chat.chat Sample2.ct_zero Sample2.no_enrich Sample2.no_summary
      Sample.tenant_A "how many leads are converted?" ROUTE_DATA
      Sample2.opening
      [ Sample2.count_leads;
        Content "There are 0 converted leads.";
        Content "There are 0 converted leads." ]
    = Chat.Replied "There are 0 converted leads." st
    /\ Chat.retries st = 0
    /\ existsb is_no_data (Chat.messages st) = false.
Proof. eexists. repeat split. Qed.

(** ** Errors on their way to the HTTP caller *)

Section HttpErrors.
Variable isoformat : Z -> string.
Variable str_of : value -> string.
Variable rpc : Session.t -> string -> dict -> result value.
Variable session : Session.t.

(** A [ToolException] of the tool leaves [call_tool] as status 400 with
    its text. *)
Lemma tool_exception_is_400 (name company_id te : string) (args : dict) :
  valid_object_id company_id = true ->
  name <> "find" ->
  rpc {| Session._company_id := Some (Str.lower company_id) |} name args
  = Raise (ToolException te) ->
  call_tool isoformat str_of rpc name args company_id session
  = Raise (HTTPException 400 te).
Proof.
  intros Hv Hn Hr. unfold call_tool, Session.set_current_company_id.
  rewrite Hv.
  destruct (String.eqb_spec name "find") as [E|_]; [contradiction|].
  cbn [bind]. now rewrite Hr.
Qed.

(** An id that is no ObjectId leaves [call_tool] as status 500. *)
Lemma invalid_tenant_is_500 (name company_id : string) (args : dict) :
  valid_object_id company_id = false ->
  call_tool isoformat str_of rpc name args company_id session
  = Raise (HTTPException 500 "Internal server error").
Proof.
  intros Hv. unfold call_tool, Session.set_current_company_id.
  now rewrite Hv.
Qed.

End HttpErrors.

Section ValidationErrors.
Variable isoparse : string -> option Z.
Variable SCHEMAS : string -> option schema.
Variable cfg : Config.t.
Variable db : db_request -> result value.
Variable models : string -> option (dict -> string + validated).

(** Arguments that the model of the tool rejects leave the RPC server
    as a [ToolException] with the validation text. *)
Lemma bad_arguments_raise (session : Session.t) (name e : string)
    (args : dict) (validate : dict -> string + validated) :
  models name = Some validate ->
  validate args = inl e ->
  rpc_server_call_tool isoparse SCHEMAS cfg session db models name args
  = Raise (ToolException ("Invalid arguments: " ++ e)).
Proof.
  intros Hm Hv. unfold rpc_server_call_tool, run. now rewrite Hm, Hv.
Qed.

End ValidationErrors.

(** C6 at a failing input. A company id that is no ObjectId makes
    [call_tool] fail with status 500 and the text [Internal server
    error], whatever the tool and its arguments; a chat request with
    such an id whose first move is a [count] on [leads] ends with that
    status 500. *)
Theorem invalid_company_id_gives_500
    (isoformat : Z -> string) (str_of : value -> string)
    (rpc : Session.t -> string -> dict -> result value)
    (session : Session.t) (name : string) (args : dict)
    (enrich : value -> option value)
    (summarize : string -> string -> option string)
    (query : string) (ms : list message) (rest : list llm_move) :
  let _ct := fun name args cid =>
               call_tool isoformat str_of rpc name args cid session in
  valid_object_id "not-an-object-id" = false
  /\ call_tool isoformat str_of rpc name args "not-an-object-id" session
     = Raise (HTTPException 500 "Internal server error")
  /\ Chat.chat _ct enrich summarize "not-an-object-id" query ROUTE_DATA ms
       (Sample2.count_leads :: rest)
     = Chat.Failed (HTTPException 500 "Internal server error").
Proof.
  cbv zeta. split; [reflexivity|]. split.
  - now apply invalid_tenant_is_500.
  - unfold Chat.chat, Chat._run_chat.
    change (String.eqb ROUTE_DATA ROUTE_DATA) with true. cbv iota.
    cbn [Chat.loop Sample2.count_leads].
    unfold Chat.on_function_call.
    change (String.eqb "count" "search") with false. cbv iota.
    unfold Chat.prefetch. cbn [Dict.get String.eqb Ascii.eqb Bool.eqb].
    cbn [Chat.is_data_tool Str.in_list existsb String.eqb Ascii.eqb Bool.eqb
           orb andb truthy non_empty].
    rewrite invalid_tenant_is_500 by reflexivity.
    reflexivity.
Qed.

(** * Further properties of the code *)

(** ** Trimming and emptiness *)

Section TrimFacts.
Variable isoformat : Z -> string.
Variable str_of : value -> string.

Lemma firstn_nil_iff {A : Type} (n : nat) (l : list A) :
  0 < n -> (firstn n l = [] <-> l = []).
Proof.
  intros Hn. destruct n; [lia|]. destruct l; cbn; split; auto; discriminate.
Qed.

Lemma truthy_map_list (f : value -> value) (l : list value) :
  truthy (VList (map f l)) = truthy (VList l).
Proof. destruct l; reflexivity. Qed.

Lemma all_some_length {A B : Type} (f : A -> option B) (l : list A)
    (r : list B) :
  all_some (map f l) = Some r -> List.length r = List.length l.
Proof.
  revert r. induction l as [|x l IH]; cbn; intros r H.
  - inversion H. reflexivity.
  - destruct (f x); [|discriminate].
    destruct (all_some (map f l)) as [t'|]; [|discriminate].
    inversion H. cbn. f_equal. auto.
Qed.

End TrimFacts.

(** X1. The emptiness that [call_tool] reports does not depend on the
    trimming: for every tool name and every raw result,
    [result_is_empty] gives the same answer on the trimmed result as on
    the raw one. *)
Theorem trimming_keeps_emptiness
    (isoformat : Z -> string) (str_of : value -> string)
    (tool : string) (raw : value) :
  result_is_empty tool (trim_result isoformat str_of tool raw)
  = result_is_empty tool raw.
Proof.
  destruct raw as [| | | | | |l|r]; try reflexivity.
  unfold trim_result.
  destruct (String.eqb tool "find") eqn:Ef.
  { apply String.eqb_eq in Ef. subst tool.
    destruct (list_or_empty (Dict.get "results" r)) as [buckets|];
      [|reflexivity].
    destruct (all_some (map (trim_bucket isoformat) buckets)) as [bs|];
      [|reflexivity].
    cbn [or_raw]. unfold result_is_empty.
    change (String.eqb "find" "count") with false.
    change (String.eqb "find" "find") with true. cbv iota.
    unfold get_or. now rewrite DictFacts.get_set_other by discriminate. }
  destruct (String.eqb tool "aggregate") eqn:Ea.
  { apply String.eqb_eq in Ea. subst tool.
    destruct (Dict.get "result" r) as [x|] eqn:Hx; cbn [first_docs].
    - destruct x; try reflexivity.
      cbn [or_raw]. unfold result_is_empty.
      change (String.eqb "aggregate" "count") with false.
      change (String.eqb "aggregate" "find") with false.
      change (String.eqb "aggregate" "aggregate") with true. cbv iota.
      unfold get_or. rewrite DictFacts.get_set_same, Hx.
      rewrite truthy_map_list. f_equal.
      unfold _MAX_DOCS. destruct l; reflexivity.
    - cbn [or_raw]. unfold result_is_empty.
      change (String.eqb "aggregate" "count") with false.
      change (String.eqb "aggregate" "find") with false.
      change (String.eqb "aggregate" "aggregate") with true. cbv iota.
      unfold get_or. rewrite DictFacts.get_set_same, Hx. reflexivity. }
  destruct (String.eqb tool "search") eqn:Es; [|reflexivity].
  apply String.eqb_eq in Es. subst tool.
  destruct (Dict.get "results" r) as [x|] eqn:Hx; cbn [list_or_empty].
  - destruct x; try reflexivity.
    destruct (all_some (map (trim_entry str_of) l)) as [es|] eqn:Hes;
      [|reflexivity].
    cbn [or_raw]. unfold result_is_empty.
    change (String.eqb "search" "count") with false.
    change (String.eqb "search" "find") with false.
    change (String.eqb "search" "aggregate") with false.
    change (String.eqb "search" "search") with true. cbv iota.
    unfold get_or. rewrite Hx. cbn [Dict.get String.eqb Ascii.eqb Bool.eqb].
    apply all_some_length in Hes.
    destruct es, l; cbn in *; try reflexivity; discriminate.
  - cbn [map all_some or_raw]. unfold result_is_empty.
    change (String.eqb "search" "count") with false.
    change (String.eqb "search" "find") with false.
    change (String.eqb "search" "aggregate") with false.
    change (String.eqb "search" "search") with true. cbv iota.
    unfold get_or. now rewrite Hx.
Qed.

(** ** The tenant filter as a merge *)

(** X2. [make_company_filter] is a shallow merge in which the caller
    wins: in the filter it returns, every key of the caller's filter is
    bound to the caller's value, the tenant key ([_id] for [companies],
    [company] otherwise) is bound to the tenant id only when the caller
    does not bind it, and no other key is bound. *)
Theorem company_filter_lookup (coll tenant : string) (extra : dict) :
  valid_object_id tenant = true ->
  Dict.fresh_keys extra = true ->
  exists filt,
    make_company_filter (Some coll) tenant (Some extra) = Ok filt
    /\ forall k,
         Dict.get k filt
         = match Dict.get k extra with
           | Some x => Some x
           | None =>
               if String.eqb k (tenant_key coll)
               then Some (VOid (Str.lower tenant))
               else None
           end.
Proof.
  intros Hv Hf. unfold make_company_filter. rewrite Hv.
  set (base := if String.eqb coll "companies"
               then [("_id", VOid (Str.lower tenant))]
               else [("company", VOid (Str.lower tenant))]).
  assert (Hbase : forall k,
             Dict.get k base
             = if String.eqb k (tenant_key coll)
               then Some (VOid (Str.lower tenant)) else None).
  { intros k. unfold base, tenant_key.
    destruct (String.eqb coll "companies"); reflexivity. }
  destruct extra as [|kv extra'] eqn:He.
  - cbn [Dict.truthy]. exists base. split; [reflexivity|].
    intros k. cbn [Dict.get]. apply Hbase.
  - cbn [Dict.truthy]. rewrite <- He in *. eexists. split; [reflexivity|].
    intros k. destruct (Dict.get k extra) as [x|] eqn:Hk.
    + now apply get_update_fresh.
    + rewrite DictFacts.get_update_absent; [apply Hbase|].
      unfold Dict.mem. now rewrite Hk.
Qed.

Lemma company_filter_lookup_witness :
  valid_object_id Sample.tenant_A = true
  /\ Dict.fresh_keys Sample3.plain_filter = true
  /\ exists filt,
       make_company_filter (Some "leads") Sample.tenant_A
         (Some Sample3.plain_filter) = Ok filt
       /\ forall k,
            Dict.get k filt
            = match Dict.get k Sample3.plain_filter with
              | Some x => Some x
              | None =>
                  if String.eqb k (tenant_key "leads")
                  then Some (VOid (Str.lower Sample.tenant_A))
                  else None
              end.
Proof.
  split; [reflexivity|]. split; [reflexivity|].
  exact (company_filter_lookup "leads" Sample.tenant_A Sample3.plain_filter
           eq_refl eq_refl).
Defined.

(** ** Un-wrapping after the injection *)

Section UnwrapAfterInject.

Lemma unwrap_list_eq (l : list value) :
  _unwrap_ci_regex (VList l) = (l' <- unwrap_elems l ;; Ok (VList l')).
Proof. reflexivity. Qed.

Lemma unwrap_dict_eq (d : dict) :
  _unwrap_ci_regex (VDict d)
  = let comprehension :=
      items <- unwrap_items d ;; Ok (VDict (Dict.of_items items)) in
    if Dict.keys_are d ["$regex"; "$options"]
       && is_str (Dict.get "$options" d) "i"
    then
      match Dict.get "$regex" d with
      | Some (VStr p) =>
          match Re.fullmatch_anchored p with
          | Some literal => Ok (VStr literal)
          | None => comprehension
          end
      | _ => Raise (TypeError "expected string or bytes-like object")
      end
    else comprehension.
Proof. reflexivity. Qed.

Lemma unwrap_elems_fixed (l : list value) :
  Forall (fun x => _unwrap_ci_regex x = Ok x) l -> unwrap_elems l = Ok l.
Proof.
  induction 1 as [|x l Hx Hl IH]; [reflexivity|].
  cbn [unwrap_elems]. fold unwrap_elems. rewrite Hx. cbn [bind].
  now rewrite IH.
Qed.

Lemma unwrap_items_fixed (d : dict) :
  Forall (fun kv => _unwrap_ci_regex (snd kv) = Ok (snd kv)) d ->
  unwrap_items d = Ok d.
Proof.
  induction 1 as [|[k x] d Hx Hd IH]; [reflexivity|].
  cbn [unwrap_items]. fold unwrap_items. cbn [snd] in Hx. rewrite Hx.
  cbn [bind]. now rewrite IH.
Qed.

(** The injection never yields a plain string. *)
Lemma inject_is_no_string (x : value) (s : string) :
  is_str (Some (_inject_case_insensitive x)) s = false.
Proof. destruct x; reflexivity. Qed.

End UnwrapAfterInject.

(** X3. On a filter document with distinct keys in which no key starting
    with a dollar holds a dict or a list, the un-wrapping of [find]
    changes nothing of what the tool base has injected and never fails:
    every string of the filter reaches MongoDB as the case-insensitive
    regex. *)
Theorem unwrap_after_inject_is_identity (v : value) :
  wf v ->
  shield_free v = true ->
  _unwrap_ci_regex (_inject_case_insensitive v)
  = Ok (_inject_case_insensitive v).
Proof.
  induction v as [| | | | | |l IH|d IH] using value_nested_ind;
    intros Hwf Hs; try reflexivity.
  - cbn. now rewrite escape_not_anchored.
  - cbn [_inject_case_insensitive]. rewrite unwrap_list_eq.
    rewrite unwrap_elems_fixed; [reflexivity|].
    pose proof (wf_list l Hwf) as Hall. cbn [shield_free] in Hs.
    rewrite forallb_forall in Hs.
    apply Forall_forall. intros y Hy. apply in_map_iff in Hy.
    destruct Hy as (x & <- & Hx).
    rewrite Forall_forall in IH, Hall. auto.
  - pose proof (wf_dict d Hwf) as [Hfresh Hall].
    rewrite inject_dict by exact Hfresh.
    cbn [shield_free] in Hs. rewrite forallb_forall in Hs.
    assert (E : map (fun kv : string * value =>
                       let (k, v) := kv in
                       (k, if Str.startswith k "$" && is_dict_or_list v
                           then v else _inject_case_insensitive v)) d
                = map (fun kv : string * value =>
                         let (k, v) := kv in
                         (k, (fun _ x => _inject_case_insensitive x) k v)) d).
    { apply map_ext_in. intros [k x] Hin. specialize (Hs (k, x) Hin).
      cbn [fst snd] in Hs. apply andb_true_iff in Hs. destruct Hs as [Hs _].
      apply negb_true_iff in Hs. now rewrite Hs. }
    rewrite E. set (d' := map _ d).
    rewrite unwrap_dict_eq. cbv zeta.
    assert (Hopt : is_str (Dict.get "$options" d') "i" = false).
    { unfold d'.
      rewrite (DictFacts.get_map_values (fun _ x => _inject_case_insensitive x)).
      destruct (Dict.get "$options" d); [apply inject_is_no_string|reflexivity]. }
    rewrite Hopt, andb_false_r.
    rewrite unwrap_items_fixed.
    + cbn [bind]. rewrite DictFacts.of_items_fresh; [reflexivity|].
      unfold d'.
      now rewrite (DictFacts.fresh_map_values
                     (fun _ x => _inject_case_insensitive x)).
    + unfold d'. apply Forall_forall. intros [k y] Hin.
      apply in_map_iff in Hin. destruct Hin as ([k0 x] & Hkx & Hin).
      inversion Hkx. subst k y. cbn [snd].
      rewrite Forall_forall in IH, Hall.
      apply (IH (k0, x) Hin).
      * apply (Hall (k0, x) Hin).
      * specialize (Hs (k0, x) Hin). cbn [fst snd] in Hs.
        apply andb_true_iff in Hs. tauto.
Qed.

Lemma unwrap_after_inject_is_identity_witness :
  wf (VDict Sample3.plain_filter)
  /\ shield_free (VDict Sample3.plain_filter) = true
  /\ _unwrap_ci_regex (_inject_case_insensitive (VDict Sample3.plain_filter))
     = Ok (_inject_case_insensitive (VDict Sample3.plain_filter)).
Proof.
  split; [reflexivity|]. split; [reflexivity|].
  exact (unwrap_after_inject_is_identity (VDict Sample3.plain_filter)
           eq_refl eq_refl).
Defined.

(** ** Failures after the preparation *)

(** X4. Once the company id is valid and the arguments are validated and
    prepared, every failure of the tool reaches the HTTP caller as status
    400: a [ToolException] with its own text, any other exception (a
    database failure included) with the text of the uniform internal
    error. *)
Theorem failures_after_preparation_are_400
    (isoparse : string -> option Z) (SCHEMAS : string -> option schema)
    (cfg : Config.t) (db : db_request -> result value)
    (models : string -> option (dict -> string + validated))
    (isoformat : Z -> string) (str_of : value -> string)
    (name company_id : string) (args args' : dict) (session : Session.t)
    (validate : dict -> string + validated) (v v' : validated) (e : exn) :
  let session' := {| Session._company_id := Some (Str.lower company_id) |} in
  valid_object_id company_id = true ->
  (if String.eqb name "find" then convert_find_id args else Ok args)
  = Ok args' ->
  models name = Some validate ->
  validate args' = inr v ->
  prepare cfg session' v = Ok v' ->
  (req <- execute isoparse SCHEMAS cfg session' v' ;; respond db req)
  = Raise e ->
  call_tool isoformat str_of
    (fun s n a => rpc_server_call_tool isoparse SCHEMAS cfg s db models n a)
    name args company_id session
  = Raise (HTTPException 400
             match e with
             | ToolException m => m
             | _ => "An internal error occurred in '" ++ tool_name v' ++ "'"
             end).
Proof.
  intros session' Hv Hargs Hm Hval Hprep Hexec.
  unfold call_tool, Session.set_current_company_id. rewrite Hv.
  rewrite Hargs. cbn [bind].
  unfold rpc_server_call_tool, run. fold session'.
  rewrite Hm, Hval, Hprep. cbn [bind]. rewrite Hexec.
  destruct e; reflexivity.
Qed.

Lemma failures_after_preparation_are_400_witness :
  call_tool (fun _ => EmptyString) (fun _ => EmptyString)
    (fun s n a =>
       rpc_server_call_tool Sample3.no_iso Sample3.no_schemas Sample.cfg s
         Sample3.db_down Sample3.count_only n a)
    "count" [("collection", VStr "leads")] Sample.tenant_A Session.init
  = Raise (HTTPException 400 "An internal error occurred in 'count'").
Proof.
  exact (failures_after_preparation_are_400
           Sample3.no_iso Sample3.no_schemas Sample.cfg Sample3.db_down
           Sample3.count_only (fun _ => EmptyString) (fun _ => EmptyString)
           "count" Sample.tenant_A
           [("collection", VStr "leads")] [("collection", VStr "leads")]
           Session.init
           (fun args =>
              match Dict.get "collection" args with
              | Some (VStr c) => inr (Sample.count_call c [])
              | _ => inl "collection: field required"
              end)
           (Sample.count_call "leads" [])
           (Sample.count_call "leads"
              [("company", VOid Sample.tenant_A)])
           (RuntimeError "connection lost")
           eq_refl eq_refl eq_refl eq_refl eq_refl eq_refl).
Defined.

(** ** Bookkeeping of the chat loop *)

Section LoopFacts.
Import Chat.
Variable _ct : string -> dict -> string -> result (value * bool).
Variable enrich : value -> option value.
Variable summarize : string -> string -> option string.
Variables company_id query : string.

Lemma count_messages_app (test : message -> bool) (l m : list message) :
  count_messages test (l ++ m) = count_messages test l + count_messages test m.
Proof. unfold count_messages. now rewrite filter_app, length_app. Qed.

Lemma prefetch_step (name : string) (args : dict) (st st1 : state) :
  prefetch _ct company_id name args st = Ok st1 ->
  canned_potential st1 = canned_potential st
  /\ nudge_budget st1 = nudge_budget st
  /\ retries st1 = retries st /\ found st1 = found st.
Proof.
  unfold prefetch.
  destruct (Dict.get "collection" args) as [coll|];
    [|intros H; injection H as <-; auto].
  destruct (is_data_tool name && truthy coll);
    [|intros H; injection H as <-; auto].
  destruct (_ct "collection_schema" _ company_id) as [sca|e]; cbn [bind];
    [|discriminate].
  destruct (_ct "count" _ company_id) as [cnt|e]; cbn [bind]; [|discriminate].
  intros H. injection H as <-.
  unfold canned_potential, nudge_budget. cbn [push messages found retries].
  rewrite !count_messages_app. cbn. repeat split; lia.
Qed.

Lemma follow_up_is_call (res : value) (m : message) :
  follow_up res = Ok m -> exists a, m = AssistantCall "find" a.
Proof.
  unfold follow_up.
  destruct (Dict.get "results" (as_dict res)) as [[| | | | | |[|[| | | | | | |top] ?]|]|];
    try discriminate.
  destruct (Dict.get "collection" top); [|discriminate].
  destruct (Dict.get "hits" top) as [[| | | | | |[|[| | | | | | |hit] ?]|]|];
    try discriminate.
  destruct (Dict.get "_id" hit); [|discriminate].
  intros H. injection H as <-. eauto.
Qed.

(** One function call neither adds to the canned messages still
    possible nor to the budget of nudges, and never raises the
    retries. *)
Lemma function_call_step (name : string) (args : dict) (st st' : state) :
  on_function_call _ct enrich company_id name args st = Ok st' ->
  canned_potential st' <= canned_potential st
  /\ nudge_budget st' <= nudge_budget st
  /\ retries st' <= retries st.
Proof.
  unfold on_function_call.
  destruct (String.eqb name "search").
  - destruct (_ct "search" args company_id) as [[res empty]|e]; cbn [bind];
      [|discriminate].
    destruct empty; cbn [negb].
    + intros H. injection H as <-.
      unfold canned_potential, nudge_budget.
      cbn [push messages found retries].
      rewrite !count_messages_app. cbn. destruct (found st); lia.
    + destruct (follow_up res) as [m|e] eqn:Hm; cbn [bind]; [|discriminate].
      destruct (follow_up_is_call _ _ Hm) as [a ->].
      intros H. injection H as <-.
      unfold canned_potential, nudge_budget.
      cbn [push messages found retries].
      rewrite !count_messages_app. cbn. lia.
  - destruct (prefetch _ct company_id name args st) as [st1|e] eqn:Hp;
      cbn [bind]; [|discriminate].
    destruct (prefetch_step _ _ _ _ Hp) as (Hc & Hb & Hr & Hf).
    destruct (_ct name args company_id) as [[out empty]|e]; cbn [bind];
      [|discriminate].
    unfold canned_potential, nudge_budget in *.
    cbn [push messages found retries].
    destruct (found st1) eqn:Hf1; cbn [orb negb].
    + intros H. injection H as <-. cbn [messages found retries].
      rewrite !count_messages_app. cbn. rewrite <- Hf in *. lia.
    + destruct empty; cbn [negb].
      * destruct (retries st1) as [|r'] eqn:Hr1.
        -- intros H. injection H as <-. cbn [messages found retries].
           rewrite !count_messages_app. cbn. rewrite <- Hf in *. lia.
        -- intros H. injection H as <-. cbn [messages found retries].
           rewrite !count_messages_app. cbn. rewrite <- Hf in *. lia.
      * intros H. injection H as <-. cbn [messages found retries].
        rewrite !count_messages_app. cbn. rewrite <- Hf in *. lia.
Qed.

(** The two measures and the retries along the whole loop. *)
Lemma loop_measures (answers : list llm_move) :
  forall st st',
    final_state (loop _ct enrich summarize company_id query answers st)
    = Some st' ->
    canned_potential st' <= canned_potential st
    /\ nudge_budget st' <= nudge_budget st.
Proof.
  induction answers as [|[name args|text] rest IH]; intros st st'; cbn [loop].
  - cbn. intros H. injection H as <-. auto.
  - destruct (on_function_call _ct enrich company_id name args st)
      as [st1|e] eqn:Hs; [|discriminate].
    intros H. destruct (IH _ _ H) as [H1 H2].
    destruct (function_call_step _ _ _ _ Hs) as (G1 & G2 & _). lia.
  - destruct (negb (found st) && negb (Nat.eqb (retries st) 0)) eqn:Hn.
    + intros H. destruct (IH _ _ H) as [H1 H2].
      apply andb_true_iff in Hn. destruct Hn as [Hf Hr].
      apply negb_true_iff in Hr. apply Nat.eqb_neq in Hr.
      unfold canned_potential, nudge_budget in *.
      cbn [messages found retries] in *.
      rewrite !count_messages_app in *. cbn in H1, H2. lia.
    + cbn. intros H. injection H as <-. auto.
Qed.

End LoopFacts.

(** X5. In one user turn, whatever the model and the tools answer, the
    loop appends the canned no-data message at most once and the nudge
    at most twice. *)
Theorem canned_once_nudged_twice
    (_ct : string -> dict -> string -> result (value * bool))
    (enrich : value -> option value)
    (summarize : string -> string -> option string)
    (company_id query : string) (ms : list message)
    (answers : list llm_move) (st : Chat.state) :
  final_state (Chat._run_chat _ct enrich summarize company_id query ms answers)
  = Some st ->
  count_messages is_no_data (Chat.messages st)
  <= count_messages is_no_data ms + 1
  /\ count_messages is_nudge (Chat.messages st)
     <= count_messages is_nudge ms + 2.
Proof.
  intros H. unfold Chat._run_chat in H.
  destruct (loop_measures _ct enrich summarize company_id query answers _ _ H)
    as [H1 H2].
  unfold canned_potential, nudge_budget in *.
  cbn [Chat.start Chat.messages Chat.found Chat.retries] in *.
  destruct (Chat.found st); lia.
Qed.

Lemma canned_once_nudged_twice_witness :
  exists st,
    final_state
      (Chat._run_chat Sample2.ct_zero Sample2.no_enrich Sample2.no_summary
         Sample.tenant_A "how many leads?" Sample2.opening
         [ Sample2.count_leads; Content "none"; Sample2.count_leads;
           Sample2.count_leads; Content "none" ])
    = Some st
    /\ count_messages is_no_data (Chat.messages st) <= 0 + 1
    /\ count_messages is_nudge (Chat.messages st) <= 0 + 2.
Proof.
  eexists. split; [reflexivity|].
  exact (canned_once_nudged_twice Sample2.ct_zero Sample2.no_enrich
           Sample2.no_summary Sample.tenant_A "how many leads?"
           Sample2.opening
           [ Sample2.count_leads; Content "none"; Sample2.count_leads;
             Sample2.count_leads; Content "none" ] _ eq_refl).
Defined.

Section LoopEnds.
Import Chat.
Variable _ct : string -> dict -> string -> result (value * bool).
Variable enrich : value -> option value.
Variable summarize : string -> string -> option string.
Variables company_id query : string.

Lemma text_answers_end_the_loop (answers : list llm_move) :
  forall st,
    retries st < List.length (filter is_content answers) ->
    is_waiting (loop _ct enrich summarize company_id query answers st) = false.
Proof.
  induction answers as [|[name args|text] rest IH]; intros st Hlen;
    cbn [loop filter is_content] in *.
  - cbn in Hlen. lia.
  - destruct (on_function_call _ct enrich company_id name args st)
      as [st1|e] eqn:Hs; [|reflexivity].
    apply IH.
    destruct (function_call_step _ct enrich company_id _ _ _ _ Hs)
      as (_ & _ & Hr). lia.
  - destruct (negb (found st) && negb (Nat.eqb (retries st) 0)) eqn:Hn;
      [|reflexivity].
    apply IH. cbn [retries]. cbn [List.length] in Hlen.
    apply andb_true_iff in Hn. destruct Hn as [_ Hr].
    apply negb_true_iff in Hr. apply Nat.eqb_neq in Hr. lia.
Qed.

End LoopEnds.

(** X6. The third text answer of the model always ends the turn: with
    three or more text answers among the model's answers the loop has
    replied or failed, whatever else the model and the tools do. *)
Theorem third_text_answer_ends_the_turn
    (_ct : string -> dict -> string -> result (value * bool))
    (enrich : value -> option value)
    (summarize : string -> string -> option string)
    (company_id query : string) (ms : list message)
    (answers : list llm_move) :
  3 <= List.length (filter is_content answers) ->
  is_waiting (Chat._run_chat _ct enrich summarize company_id query ms answers)
  = false.
Proof.
  intros H. unfold Chat._run_chat.
  apply text_answers_end_the_loop. cbn [Chat.start Chat.retries]. lia.
Qed.

Lemma third_text_answer_ends_the_turn_witness :
  3 <= List.length
         (filter is_content
            [ Content "a"; Sample2.count_leads; Content "b"; Content "c" ])
  /\ is_waiting
       (Chat._run_chat Sample2.ct_zero Sample2.no_enrich Sample2.no_summary
          Sample.tenant_A "how many leads?" Sample2.opening
          [ Content "a"; Sample2.count_leads; Content "b"; Content "c" ])
     = false.
Proof.
  assert (H : 3 <= List.length
                     (filter is_content
                        [ Content "a"; Sample2.count_leads; Content "b";
                          Content "c" ])) by (cbn; lia).
  split; [exact H|].
  exact (third_text_answer_ends_the_turn Sample2.ct_zero Sample2.no_enrich
           Sample2.no_summary Sample.tenant_A "how many leads?"
           Sample2.opening
           [ Content "a"; Sample2.count_leads; Content "b"; Content "c" ] H).
Defined.

(** ** Sanitised pipeline keys *)

Section CleanFacts.

Lemma lstrip_head (s : string) :
  Str.lstrip s = EmptyString
  \/ exists c t, Str.lstrip s = String c t /\ Str.is_space c = false.
Proof.
  induction s as [|c t IH]; cbn [Str.lstrip]; auto.
  destruct (Str.is_space c) eqn:Hc; auto.
  right. exists c, t. auto.
Qed.

Lemma rstrip_cons (c : ascii) (t : string) :
  Str.is_space c = false ->
  Str.rstrip (String c t) = String c (Str.rstrip t).
Proof.
  intros Hc. cbn [Str.rstrip]. rewrite Hc.
  now destruct (Str.rstrip t).
Qed.

Lemma rstrip_idempotent (s : string) :
  Str.rstrip (Str.rstrip s) = Str.rstrip s.
Proof.
  induction s as [|c t IH]; [reflexivity|].
  cbn [Str.rstrip].
  destruct (Str.rstrip t) as [|a r] eqn:Hr.
  - destruct (Str.is_space c) eqn:Hc; [reflexivity|].
    cbn [Str.rstrip]. now rewrite Hc.
  - change (Str.rstrip (String c (String a r)))
      with (match Str.rstrip (String a r) with
            | EmptyString =>
                if Str.is_space c then EmptyString else String c EmptyString
            | x => String c x
            end).
    now rewrite IH.
Qed.

Lemma strip_idempotent (s : string) :
  Str.strip (Str.strip s) = Str.strip s.
Proof.
  unfold Str.strip.
  destruct (lstrip_head s) as [->|(c & t & -> & Hc)]; [reflexivity|].
  rewrite rstrip_cons by exact Hc.
  cbn [Str.lstrip]. rewrite Hc.
  rewrite rstrip_cons by exact Hc.
  now rewrite rstrip_idempotent.
Qed.

Lemma set_In (k : string) (v : value) (d : dict) (kv : string * value) :
  In kv (Dict.set k v d) -> kv = (k, v) \/ In kv d.
Proof.
  induction d as [|[k0 v0] d IH]; cbn.
  - intros [<-|[]]. auto.
  - destruct (String.eqb_spec k k0) as [->|Hne]; cbn.
    + intros [<-|H]; auto.
    + intros [<-|H]; auto. destruct (IH H); auto.
Qed.

Lemma update_In (items base : dict) (kv : string * value) :
  In kv (Dict.update base items) -> In kv base \/ In kv items.
Proof.
  unfold Dict.update. revert base.
  induction items as [|[k v] t IH]; intros base; cbn; auto.
  intros H. destruct (IH _ H) as [H1|H1]; auto.
  destruct (set_In _ _ _ _ H1) as [->|H2]; auto.
Qed.

Lemma of_items_In (items : dict) (kv : string * value) :
  In kv (Dict.of_items items) -> In kv items.
Proof.
  unfold Dict.of_items. intros H.
  destruct (update_In _ _ _ H) as [[]|]; auto.
Qed.

Lemma of_items_is_fresh (items : dict) :
  Dict.fresh_keys (Dict.of_items items) = true.
Proof. unfold Dict.of_items. now apply fresh_update. Qed.

(** Distinct keys and well-formed values make a well-formed dict. *)
Lemma wf_dict_intro (d : dict) :
  Dict.fresh_keys d = true ->
  Forall (fun kv => wf (snd kv)) d ->
  wf (VDict d).
Proof.
  unfold wf. cbn [wfb].
  induction d as [|[k v] t IH]; cbn; auto.
  intros Hf Hall. apply andb_true_iff in Hf. destruct Hf as [Hk Hf].
  inversion Hall; subst. cbn [snd] in *.
  rewrite Hk. cbn. rewrite IH by assumption.
  match goal with H : wfb v = true |- _ => rewrite H end. reflexivity.
Qed.

Lemma clean_dict_eq (d : dict) :
  clean (VDict d)
  = VDict (Dict.of_items
             (map (fun kv : string * value =>
                     let (k, v) := kv in (Str.strip k, clean v)) d)).
Proof. reflexivity. Qed.

Lemma clean_is_wf (v : value) : wf (clean v).
Proof.
  induction v as [| | | | | |l IH|d IH] using value_nested_ind;
    try reflexivity.
  - unfold wf. cbn. apply forallb_forall. intros y Hy.
    apply in_map_iff in Hy. destruct Hy as (x & <- & Hx).
    rewrite Forall_forall in IH. now apply IH.
  - rewrite clean_dict_eq. apply wf_dict_intro.
    + apply of_items_is_fresh.
    + apply Forall_forall. intros kv Hin. apply of_items_In in Hin.
      apply in_map_iff in Hin. destruct Hin as ([k x] & <- & Hx).
      rewrite Forall_forall in IH. apply (IH (k, x) Hx).
Qed.

End CleanFacts.

(** X7. After [_sanitize_pipeline_keys] no key of any stage, at any
    depth, has leading or trailing white space, and sanitising a second
    time changes nothing. *)
Theorem sanitize_strips_every_key_once_and_for_all (pl : list value) :
  forallb keys_stripped (_sanitize_pipeline_keys pl) = true
  /\ _sanitize_pipeline_keys (_sanitize_pipeline_keys pl)
     = _sanitize_pipeline_keys pl.
Proof.
  assert (Hs : forall v, keys_stripped (clean v) = true).
  { induction v as [| | | | | |l IH|d IH] using value_nested_ind;
      try reflexivity.
    - cbn. apply forallb_forall. intros y Hy.
      apply in_map_iff in Hy. destruct Hy as (x & <- & Hx).
      rewrite Forall_forall in IH. now apply IH.
    - rewrite clean_dict_eq. cbn [keys_stripped].
      apply forallb_forall. intros kv Hin. apply of_items_In in Hin.
      apply in_map_iff in Hin. destruct Hin as ([k x] & <- & Hx).
      cbn [fst snd]. rewrite strip_idempotent, String.eqb_refl.
      rewrite Forall_forall in IH. apply (IH (k, x) Hx). }
  assert (Hi : forall v, clean (clean v) = clean v).
  { induction v as [| | | | | |l IH|d IH] using value_nested_ind;
      try reflexivity.
    - cbn. f_equal. rewrite map_map. apply map_ext_in.
      intros x Hx. rewrite Forall_forall in IH. now apply IH.
    - rewrite clean_dict_eq.
      set (d' := Dict.of_items _).
      rewrite clean_dict_eq. f_equal.
      assert (E : map (fun kv : string * value =>
                         let (k, v) := kv in (Str.strip k, clean v)) d' = d').
      { rewrite <- (map_id d') at 2. apply map_ext_in.
        intros kv Hin. unfold d' in Hin. apply of_items_In in Hin.
        apply in_map_iff in Hin. destruct Hin as ([k x] & <- & Hx).
        rewrite strip_idempotent. f_equal.
        rewrite Forall_forall in IH. apply (IH (k, x) Hx). }
      rewrite E. apply DictFacts.of_items_fresh.
      unfold d'. apply of_items_is_fresh. }
  unfold _sanitize_pipeline_keys. split.
  - apply forallb_forall. intros y Hy.
    apply in_map_iff in Hy. destruct Hy as (x & <- & _). apply Hs.
  - rewrite map_map. apply map_ext. intros x. apply Hi.
Qed.
(** ** The injection applied twice *)

Section DoubleInjection.
Variable isoparse : string -> option Z.
Variable SCHEMAS : string -> option schema.
Variable cfg : Config.t.
Variable session : Session.t.
Variables tenant coll k s : string.
Hypothesis tenant_set : Session.current_company_id session = Some tenant.
Hypothesis tenant_valid : valid_object_id tenant = true.
Hypothesis scoped :
  opt_in (Some coll) (Config.non_tenant_collections cfg) = false.
Hypothesis not_companies : String.eqb coll "companies" = false.
Hypothesis other_key : String.eqb k "company" = false.
Hypothesis plain_key : Str.startswith k "$" = false.





End DoubleInjection.



(** ** Flushing the telemetry *)

Section FlushFacts.
Import Telemetry Flush.
Variable post : nat -> post_outcome.
Variable payload : string.

(** While the answers can be retried the loop goes on. *)
Lemma attempts_all_retryable (remaining attempt : nat) :
  (forall i, attempt <= i < attempt + remaining -> retryable (post i) = true) ->
  attempts post payload remaining attempt
  = concat (map (failed_attempt payload) (seq attempt remaining)).
Proof.
  revert attempt. induction remaining as [|r IH]; intros attempt H.
  - reflexivity.
  - cbn [attempts seq map concat failed_attempt app].
    assert (Hr : retryable (post attempt) = true) by (apply H; lia).
    rewrite IH by (intros i Hi; apply H; lia).
    unfold retryable in Hr. destruct (post attempt) as [status| |e].
    + apply andb_true_iff in Hr. destruct Hr as [H2 H4].
      apply negb_true_iff in H2, H4. now rewrite H2, H4.
    + reflexivity.
    + discriminate.
Qed.

Lemma posts_failed (remaining attempt : nat) :
  posts (concat (map (failed_attempt payload) (seq attempt remaining)))
  = remaining.
Proof.
  revert attempt. induction remaining as [|r IH]; intros attempt.
  - reflexivity.
  - cbn [seq map concat failed_attempt app]. unfold posts in *.
    cbn [filter List.length]. now rewrite IH.
Qed.

Lemma slept_failed (remaining attempt : nat) :
  2 * slept (concat (map (failed_attempt payload) (seq attempt remaining)))
  = remaining * (2 * attempt + remaining - 1).
Proof.
  revert attempt. induction remaining as [|r IH]; intros attempt.
  - reflexivity.
  - cbn [seq map concat failed_attempt app slept fold_right].
    fold (slept (concat (map (failed_attempt payload) (seq (S attempt) r)))).
    specialize (IH (S attempt)). nia.
Qed.

(** Whatever the answers are, the loop posts at most [remaining] times
    and each sleep follows a POST. *)
Lemma attempts_bounded (remaining attempt : nat) :
  posts (attempts post payload remaining attempt) <= remaining
  /\ 2 * slept (attempts post payload remaining attempt)
     <= remaining * (2 * attempt + remaining - 1).
Proof.
  revert attempt. induction remaining as [|r IH]; intros attempt.
  - split; cbn; lia.
  - cbn [attempts].
    destruct (IH (S attempt)) as [Hp Hs].
    assert (Hstop : posts [Post payload] <= S r
                    /\ 2 * slept [Post payload]
                       <= S r * (2 * attempt + S r - 1))
      by (split; cbn; lia).
    assert (Hgo : posts (Post payload :: Sleep attempt
                           :: attempts post payload r (S attempt)) <= S r
                  /\ 2 * slept (Post payload :: Sleep attempt
                                  :: attempts post payload r (S attempt))
                     <= S r * (2 * attempt + S r - 1)).
    { unfold posts in *. cbn [filter List.length slept fold_right].
      fold (slept (attempts post payload r (S attempt))).
      split; [lia | nia]. }
    destruct (post attempt) as [status| |e]; [|exact Hgo|].
    + destruct ((200 <=? status)%Z && (status <? 300)%Z); [exact Hstop|].
      destruct ((400 <=? status)%Z && (status <? 500)%Z); [exact Hstop|].
      exact Hgo.
    + split; cbn; lia.
Qed.

End FlushFacts.

Section FlushInvariant.
Import Telemetry Flush.

Lemma flush_invariant (cap : nat) (url : option string) (retries : nat)
    (dumps : list event -> option string) (post : nat -> post_outcome)
    (tel : t) :
  invariant cap tel ->
  invariant cap (fst (flush url retries dumps post tel))
  /\ enabled (fst (flush url retries dumps post tel)) = enabled tel.
Proof.
  intros Hinv. unfold flush.
  destruct (negb (enabled tel) || _); [now split|].
  assert (Hcleared :
            invariant cap {| enabled := enabled tel;
                             _cache := clear (_cache tel);
                             _next_idx := _next_idx tel |}).
  { destruct Hinv as [Hcap _ _ _].
    constructor; cbn; auto with arith; constructor. }
  destruct (map snd _); [now split|].
  destruct (dumps _); now split.
Qed.

Lemma apply_op_invariant (cap : nat) (o : op) (tel : t) :
  invariant cap tel -> invariant cap (apply_op tel o).
Proof.
  intros Hinv. destruct o as [c|url retries dumps post]; cbn [apply_op].
  - destruct (enabled tel) eqn:E.
    + exact (TelemetryFacts.record_invariant cap tel c Hinv E).
    + now rewrite TelemetryFacts.record_disabled.
  - now apply flush_invariant.
Qed.

Lemma apply_all_invariant (cap : nat) (ops : list op) (tel : t) :
  invariant cap tel -> invariant cap (apply_all tel ops).
Proof.
  revert tel. induction ops as [|o ops IH]; intros tel Hinv; [exact Hinv|].
  apply IH. now apply apply_op_invariant.
Qed.

End FlushInvariant.

(** X9. A flush whose every POST fails with a status outside 2xx and 4xx,
    or with a network error, posts [max_retries] times, sleeps after
    each attempt, the last one included, 1 + 2 + ... + [max_retries]
    seconds in all, and the events are gone from the buffer. *)
Theorem failed_flush_drops_the_events
    (u : string) (max_retries : nat)
    (dumps : list Telemetry.event -> option string)
    (post : nat -> Flush.post_outcome) (tel : Telemetry.t)
    (payload : string) :
  Telemetry.enabled tel = true ->
  non_empty u = true ->
  Telemetry.LRUCache.items (Telemetry._cache tel) <> [] ->
  dumps (map snd (Telemetry.LRUCache.items (Telemetry._cache tel)))
  = Some payload ->
  (forall i, 1 <= i <= max_retries -> Flush.retryable (post i) = true) ->
  let (tel', effects) := Flush.flush (Some u) max_retries dumps post tel in
  Telemetry.LRUCache.items (Telemetry._cache tel') = []
  /\ effects
     = concat (map (Flush.failed_attempt payload) (seq 1 max_retries))
  /\ Flush.posts effects = max_retries
  /\ 2 * Flush.slept effects = max_retries * (max_retries + 1).
Proof.
  intros Hen Hu Hne Hd Hall. unfold Flush.flush. rewrite Hen, Hu.
  cbn [negb orb].
  destruct (Telemetry.LRUCache.items (Telemetry._cache tel)) as [|kv items]
    eqn:Hitems; [contradiction|].
  cbn [map] in *. rewrite Hd.
  rewrite attempts_all_retryable by (intros i Hi; apply Hall; lia).
  split; [reflexivity|]. split; [reflexivity|]. split.
  - apply posts_failed.
  - rewrite slept_failed. nia.
Qed.

Lemma failed_flush_drops_the_events_witness :
  let (tel', effects) :=
    Flush.flush (Some "https://cloud.mongodb.com/") 3
      (fun _ => Some "[...]") (fun _ => Flush.Response 503)
      Sample2.full_telemetry in
  Telemetry.LRUCache.items (Telemetry._cache tel') = []
  /\ effects
     = concat (map (Flush.failed_attempt "[...]") (seq 1 3))
  /\ Flush.posts effects = 3
  /\ 2 * Flush.slept effects = 3 * (3 + 1).
Proof.
  apply (failed_flush_drops_the_events
           "https://cloud.mongodb.com/" 3
           (fun _ => Some "[...]") (fun _ => Flush.Response 503)
           Sample2.full_telemetry "[...]").
  - reflexivity.
  - reflexivity.
  - discriminate.
  - reflexivity.
  - intros i _. reflexivity.
Defined.

(** X10. Whatever the telemetry endpoint answers, an enabled flush with a
    base URL leaves the buffer empty and the next index as it was, posts
    at most [max_retries] times and sleeps at most
    1 + 2 + ... + [max_retries] seconds. *)
Theorem flush_empties_the_buffer_within_its_budget
    (u : string) (max_retries : nat)
    (dumps : list Telemetry.event -> option string)
    (post : nat -> Flush.post_outcome) (tel : Telemetry.t) :
  Telemetry.enabled tel = true ->
  non_empty u = true ->
  let (tel', effects) := Flush.flush (Some u) max_retries dumps post tel in
  Telemetry.LRUCache.items (Telemetry._cache tel') = []
  /\ Telemetry._next_idx tel' = Telemetry._next_idx tel
  /\ Flush.posts effects <= max_retries
  /\ 2 * Flush.slept effects <= max_retries * (max_retries + 1).
Proof.
  intros Hen Hu. unfold Flush.flush. rewrite Hen, Hu. cbn [negb orb].
  destruct (map snd _) as [|ev evs].
  { repeat split; cbn; lia. }
  destruct (dumps _) as [payload|].
  - destruct (attempts_bounded post payload max_retries 1) as [Hp Hs].
    repeat split; [exact Hp | nia].
  - repeat split; cbn; lia.
Qed.

Lemma flush_empties_the_buffer_within_its_budget_witness :
  let (tel', effects) :=
    Flush.flush (Some "https://cloud.mongodb.com/") 3
      (fun _ => Some "[...]")
      (fun i => if Nat.eqb i 2 then Flush.Response 401
                else Flush.RequestException)
      Sample2.full_telemetry in
  Telemetry.LRUCache.items (Telemetry._cache tel') = []
  /\ Telemetry._next_idx tel' = Telemetry._next_idx Sample2.full_telemetry
  /\ Flush.posts effects <= 3
  /\ 2 * Flush.slept effects <= 3 * (3 + 1).
Proof.
  exact (flush_empties_the_buffer_within_its_budget
           "https://cloud.mongodb.com/" 3
           (fun _ => Some "[...]")
           (fun i => if Nat.eqb i 2 then Flush.Response 401
                     else Flush.RequestException)
           Sample2.full_telemetry eq_refl eq_refl).
Defined.

(** X11. However calls of [record] and [flush] follow one another on a
    fresh telemetry, the buffer holds at most [cap] events, their
    indices grow strictly along the buffer and lie below the next index:
    no index is given twice, also after a flush. *)
Theorem record_and_flush_keep_the_buffer_ordered
    (is_enabled : bool) (cap : nat) (ops : list Flush.op) :
  let tel := Flush.apply_all (Telemetry.init is_enabled cap) ops in
  let indices := Telemetry.LRUCache.keys (Telemetry._cache tel) in
  List.length indices <= cap
  /\ StronglySorted lt indices
  /\ Forall (fun k => k < Telemetry._next_idx tel) indices.
Proof.
  cbv zeta.
  destruct (apply_all_invariant cap ops (Telemetry.init is_enabled cap)
              (TelemetryFacts.init_invariant is_enabled cap))
    as [_ Hs Hb Hl].
  unfold Telemetry.LRUCache.len, Telemetry.LRUCache.keys in *.
  rewrite length_map. auto.
Qed.

(** ** What the redaction does replace *)

Section RedactionHits.
Import Telemetry.










End RedactionHits.



(** ** Tenant scope of [count] and [find] *)



Section ScopedRequests.
Variable isoparse : string -> option Z.
Variable SCHEMAS : string -> option schema.
Variable cfg : Config.t.
Variable session : Session.t.
Variable tenant : string.
Hypothesis tenant_set : Session.current_company_id session = Some tenant.

(** What [_unwrap_ci_regex] makes of the entries of a document. *)
Lemma unwrap_items_get (k : string) (x : value) (d items : dict) :
  unwrap_items d = Ok items ->
  Dict.get k d = Some x ->
  exists x', _unwrap_ci_regex x = Ok x' /\ Dict.get k items = Some x'.
Proof.
  revert items. induction d as [|[k0 x0] d IH]; intros items Hu Hg.
  - discriminate.
  - cbn [unwrap_items] in Hu. fold unwrap_items in Hu.
    destruct (_unwrap_ci_regex x0) as [x0'|e] eqn:H0; cbn [bind] in Hu;
      [|discriminate].
    destruct (unwrap_items d) as [t'|e] eqn:Ht; cbn [bind] in Hu;
      [|discriminate].
    injection Hu as <-. cbn [Dict.get] in *.
    destruct (String.eqb k k0).
    + injection Hg as <-. eauto.
    + eapply IH; eauto.
Qed.

Lemma unwrap_items_keys (d items : dict) :
  unwrap_items d = Ok items -> map fst items = map fst d.
Proof.
  revert items. induction d as [|[k0 x0] d IH]; intros items Hu.
  - injection Hu as <-. reflexivity.
  - cbn [unwrap_items] in Hu. fold unwrap_items in Hu.
    destruct (_unwrap_ci_regex x0) as [x0'|e]; cbn [bind] in Hu;
      [|discriminate].
    destruct (unwrap_items d) as [t'|e]; cbn [bind] in Hu; [|discriminate].
    injection Hu as <-. cbn. f_equal. now apply IH.
Qed.

Lemma fresh_keys_by_keys (a b : dict) :
  map fst a = map fst b -> Dict.fresh_keys a = Dict.fresh_keys b.
Proof.
  assert (Hmem : forall (k : string) (a b : dict),
             map fst a = map fst b -> Dict.mem k a = Dict.mem k b).
  { intros k a0. induction a0 as [|[k1 x1] a0 IH]; intros [|[k2 x2] b0] H;
      try discriminate; [reflexivity|].
    cbn in H. injection H as -> H. unfold Dict.mem in *. cbn [Dict.get].
    destruct (String.eqb k k2); [reflexivity|]. now apply IH. }
  revert b. induction a as [|[k1 x1] a IH]; intros [|[k2 x2] b] H;
    try discriminate; [reflexivity|].
  cbn in H. injection H as -> H. cbn [Dict.fresh_keys].
  now rewrite (Hmem k2 a b H), (IH b H).
Qed.

Lemma get_in_keys (k : string) (x : value) (d : dict) :
  Dict.get k d = Some x -> In k (Dict.keys d).
Proof.
  induction d as [|[k0 x0] d IH]; cbn [Dict.get]; [discriminate|].
  destruct (String.eqb k k0) eqn:E.
  - apply String.eqb_eq in E. subst. intros _. now left.
  - intros H. right. now apply IH.
Qed.

(** A document that binds [company] is no regex document. *)
Lemma company_is_no_regex (x : value) (d : dict) :
  Dict.get "company" d = Some x ->
  Dict.keys_are d ["$regex"; "$options"] = false.
Proof.
  intros H. unfold Dict.keys_are. apply andb_false_iff. left.
  apply get_in_keys in H.
  induction (Dict.keys d) as [|k ks IH]; [contradiction|].
  cbn [forallb]. destruct H as [->|H].
  - reflexivity.
  - rewrite IH by exact H. apply andb_false_r.
Qed.

(** The un-wrapping keeps a tenant binding. *)
Lemma unwrap_keeps_company (t : string) (filt : dict) (v : value) :
  Dict.fresh_keys filt = true ->
  Dict.get "company" filt = Some (VOid t) ->
  _unwrap_ci_regex (VDict filt) = Ok v ->
  exists filt', v = VDict filt' /\ Dict.get "company" filt' = Some (VOid t).
Proof.
  intros Hf Hg. rewrite unwrap_dict_eq.
  rewrite (company_is_no_regex _ _ Hg). cbn [andb].
  destruct (unwrap_items filt) as [items|e] eqn:Hu; cbn [bind];
    [|discriminate].
  intros H. injection H as <-. eexists. split; [reflexivity|].
  destruct (unwrap_items_get "company" (VOid t) filt items Hu Hg)
    as (x' & Hx & Hi).
  cbn in Hx. injection Hx as <-.
  rewrite DictFacts.of_items_fresh; [exact Hi|].
  rewrite (fresh_keys_by_keys items filt); [exact Hf|].
  now apply unwrap_items_keys.
Qed.

(** The filter that the tool base stores has distinct keys. *)
Lemma scope_filter_fresh (coll : option string) (extra filt : dict) :
  scope_filter cfg tenant coll extra = Ok filt ->
  Dict.fresh_keys filt = true.
Proof.
  unfold scope_filter.
  destruct (opt_in coll (Config.non_tenant_collections cfg)).
  - intros H. injection H as <-.
    destruct (Dict.truthy extra); [|reflexivity].
    cbn [_inject_case_insensitive as_dict]. apply of_items_is_fresh.
  - destruct (make_company_filter coll tenant (Some extra)) as [m|e];
      cbn [bind]; [|discriminate].
    intros H. injection H as <-.
    cbn [_inject_case_insensitive as_dict]. apply of_items_is_fresh.
Qed.

End ScopedRequests.

(** X14. On a tenant-scoped collection other than [companies], a [count]
    whose filter has no [company] key and whose collection passes the
    allow-list asks MongoDB for the documents of the session's tenant:
    the request is sent and its filter binds [company] to the tenant
    id. *)
Theorem count_query_is_tenant_scoped
    (isoparse : string -> option Z) (SCHEMAS : string -> option schema)
    (cfg : Config.t) (session : Session.t) (tenant : string)
    (a : CountArgs.t) :
  Session.current_company_id session = Some tenant ->
  valid_object_id tenant = true ->
  opt_in (Some (CountArgs.collection a)) (Config.non_tenant_collections cfg)
  = false ->
  CountArgs.collection a <> "companies" ->
  Dict.mem "company" (CountArgs.filter a) = false ->
  check_allowed cfg session (Some (CountArgs.collection a)) = Ok tt ->
  exists filt,
    run_request isoparse SCHEMAS cfg session (inr (CountCall a))
    = Ok (CountDocuments
            (str_or (CountArgs.database a) (Config.db_name cfg))
            (CountArgs.collection a) filt)
    /\ Dict.get "company" filt = Some (VOid (Str.lower tenant)).
Proof.
  intros Ht Hv Hnt Hc Hm Hal.
  destruct (scope_filter_binds_tenant cfg tenant Hv (CountArgs.collection a)
              (CountArgs.filter a) Hnt Hc Hm) as (filt & Hsf & Hg).
  exists filt. split; [|exact Hg].
  unfold run_request, prepare. rewrite Ht.
  cbn [filter_of collection_of]. rewrite Hsf.
  cbn [bind set_filter pipeline_of collection_of CountArgs.collection].
  rewrite Hal. reflexivity.
Qed.

Lemma count_query_is_tenant_scoped_witness :
  exists filt,
    run_request Sample3.no_iso Sample3.no_schemas Sample.cfg Sample.session_A
      (inr (Sample.count_call "leads" Sample3.plain_filter))
    = Ok (CountDocuments "test" "leads" filt)
    /\ Dict.get "company" filt = Some (VOid Sample.tenant_A).
Proof.
  apply (count_query_is_tenant_scoped
           Sample3.no_iso Sample3.no_schemas Sample.cfg Sample.session_A
           Sample.tenant_A
           {| CountArgs.database := None;
              CountArgs.collection := "leads";
              CountArgs.filter := Sample3.plain_filter |}).
  - reflexivity.
  - reflexivity.
  - reflexivity.
  - discriminate.
  - reflexivity.
  - reflexivity.
Defined.

(** X15. On a tenant-scoped collection other than [companies], a [find]
    whose filter has no [company] key either fails or asks MongoDB with
    a filter that binds [company] to the session's tenant id: the
    un-wrapping of [find] never removes the binding. *)
Theorem find_query_is_tenant_scoped
    (isoparse : string -> option Z) (SCHEMAS : string -> option schema)
    (cfg : Config.t) (session : Session.t) (tenant coll : string)
    (a : FindArgs.t) :
  Session.current_company_id session = Some tenant ->
  FindArgs.collection a = Some coll ->
  opt_in (Some coll) (Config.non_tenant_collections cfg) = false ->
  coll <> "companies" ->
  Dict.mem "company" (FindArgs.filter a) = false ->
  match run_request isoparse SCHEMAS cfg session (inr (FindCall a)) with
  | Ok (FindDocuments _ _ (VDict filt) _) =>
      Dict.get "company" filt = Some (VOid (Str.lower tenant))
  | Ok _ => False
  | Raise _ => True
  end.
Proof.
  intros Ht Hcoll Hnt Hc Hm.
  unfold run_request, prepare. rewrite Ht.
  cbn [filter_of collection_of]. rewrite Hcoll.
  destruct (valid_object_id tenant) eqn:Hv.
  - destruct (scope_filter_binds_tenant cfg tenant Hv coll
                (FindArgs.filter a) Hnt Hc Hm) as (filt & Hsf & Hg).
    rewrite Hsf.
    cbn [bind set_filter pipeline_of collection_of FindArgs.with_filter
           FindArgs.collection].
    rewrite Hcoll.
    destruct (check_allowed cfg session (Some coll)); cbn [bind]; [|exact I].
    cbn [tool_name execute]. unfold find_execute.
    cbn [FindArgs.filter FindArgs.with_filter].
    destruct (_unwrap_ci_regex (VDict filt)) as [v|e] eqn:Hu; cbn [bind guarded].
    + destruct (unwrap_keeps_company (Str.lower tenant) filt v
                  (scope_filter_fresh cfg tenant (Some coll)
                     (FindArgs.filter a) filt Hsf) Hg Hu)
        as (filt' & -> & Hg').
      exact Hg'.
    + destruct e; exact I.
  - unfold scope_filter, make_company_filter. rewrite Hnt, Hv.
    cbn [bind]. exact I.
Qed.

Lemma find_query_is_tenant_scoped_witness :
  match run_request Sample3.no_iso Sample3.no_schemas Sample.cfg
          Sample.session_A
          (inr (Sample.find_call "leads" Sample3.plain_filter)) with
  | Ok (FindDocuments _ _ (VDict filt) _) =>
      Dict.get "company" filt = Some (VOid Sample.tenant_A)
  | Ok _ => False
  | Raise _ => True
  end.
Proof.
  apply (find_query_is_tenant_scoped
           Sample3.no_iso Sample3.no_schemas Sample.cfg Sample.session_A
           Sample.tenant_A "leads"
           {| FindArgs.database := None;
              FindArgs.collection := Some "leads";
              FindArgs.filter := Sample3.plain_filter;
              FindArgs.projection := None;
              FindArgs.sort := None;
              FindArgs.skip := 0;
              FindArgs.limit := 10;
              FindArgs.stopAfterFirst := true |}).
  - reflexivity.
  - reflexivity.
  - reflexivity.
  - discriminate.
  - reflexivity.
Defined.

(** ** Capability requests *)

Section CapabilityFacts.
Import RpcServer.
Variable str_of : value -> string.
Variable str_exn : exn -> string.
Variable subscript_error : value -> string.
Variable attribute_error : value -> string.
Variable transport : nat.
Variable _handle_resource : value -> result value.
Variable _call_tool : value -> value -> result value.

Lemma unsubscribe_unsubscribed (name : string) (srv : t) :
  unsubscribed srv -> unsubscribed (unsubscribe transport name srv).
Proof.
  intros (Hl & Hs & Hi). unfold unsubscribe, unsubscribed.
  destruct (String.eqb name "logging");
    [cbn; rewrite ?Hl, ?Hs, ?Hi; auto|].
  destruct (String.eqb name "streaming");
    [cbn; rewrite ?Hl, ?Hs, ?Hi; auto|].
  destruct (String.eqb name "interrupt");
    [cbn; rewrite ?Hl, ?Hs, ?Hi; auto|].
  auto.
Qed.

Lemma capability_unsubscribed (srv : t) (params : value) :
  unsubscribed srv ->
  unsubscribed (fst (_handle_capability str_of subscript_error transport
                       srv params)).
Proof.
  intros H. unfold _handle_capability.
  destruct params as [| | | | | | |p]; try exact H.
  destruct (Dict.get "name" p) as [name|]; [|exact H].
  destruct (known_capability name) as [n|]; [|exact H].
  destruct (truthy _); cbn [fst].
  - exact H.
  - apply unsubscribe_unsubscribed. exact H.
Qed.

Lemma handle_unsubscribed (srv : t) (req : value) :
  unsubscribed srv ->
  unsubscribed (fst (_handle str_of str_exn subscript_error attribute_error
                       transport _handle_resource _call_tool srv req)).
Proof.
  intros H. unfold _handle.
  destruct req as [| | | | | | |r]; try exact H.
  cbv zeta.
  destruct (value_is_str (get_or "method" VNone r) "capability").
  - pose proof (capability_unsubscribed srv
                  (get_or "params" (VDict []) r) H) as Hc.
    destruct (_handle_capability _ _ _ _ _) as [srv' outcome].
    exact Hc.
  - destruct (value_is_str (get_or "method" VNone r) "resource"); exact H.
Qed.

End CapabilityFacts.

(** X16. A request that enables one of the three capabilities is always
    answered with the error -32000 of a [TypeError], because the
    subscriber set itself is called; the capability is registered all
    the same and no subscriber is added. *)
Theorem enabling_a_capability_registers_it_and_fails
    (str_of : value -> string) (str_exn : exn -> string)
    (subscript_error attribute_error : value -> string) (transport : nat)
    (_handle_resource : value -> result value)
    (_call_tool : value -> value -> result value)
    (srv : RpcServer.t) (r p : dict) (name : string) :
  Dict.get "method" r = Some (VStr "capability") ->
  Dict.get "params" r = Some (VDict p) ->
  Dict.get "name" p = Some (VStr name) ->
  Str.in_list name ["logging"; "streaming"; "interrupt"] = true ->
  truthy (get_or "enabled" (VBool true) p) = true ->
  RpcServer._handle str_of str_exn subscript_error attribute_error transport
    _handle_resource _call_tool srv (VDict r)
  = (RpcServer.with_capabilities srv
       (RpcServer.add name (RpcServer.capabilities srv)),
     Some (RpcServer.error_response str_exn (get_or "id" VNone r)
             (TypeError "'set' object is not callable"))).
Proof.
  intros Hm Hp Hn Hk He. unfold RpcServer._handle, get_or.
  rewrite Hm, Hp. cbn [value_is_str String.eqb Ascii.eqb Bool.eqb].
  unfold RpcServer._handle_capability. rewrite Hn.
  cbn [RpcServer.known_capability]. rewrite Hk, He. reflexivity.
Qed.

Lemma enabling_a_capability_registers_it_and_fails_witness :
  RpcServer._handle (fun _ => EmptyString) Sample5.exn_text
    (fun _ => EmptyString) (fun _ => EmptyString) 0
    (fun _ => Ok VNone) (fun _ _ => Ok VNone)
    RpcServer.init (VDict Sample5.enable_logging)
  = ({| RpcServer.capabilities := ["logging"];
        RpcServer.log_subscribers := [];
        RpcServer.stream_subscribers := [];
        RpcServer.interrupt_subscribers := [] |},
     Some (VDict [("jsonrpc", VStr "1.0"); ("id", VInt 7);
                  ("error",
                   VDict [("code", VInt (-32000));
                          ("message",
                           VStr "'set' object is not callable")])])).
Proof.
  exact (enabling_a_capability_registers_it_and_fails
           (fun _ => EmptyString) Sample5.exn_text
           (fun _ => EmptyString) (fun _ => EmptyString) 0
           (fun _ => Ok VNone) (fun _ _ => Ok VNone)
           RpcServer.init Sample5.enable_logging
           [("name", VStr "logging")] "logging"
           eq_refl eq_refl eq_refl eq_refl eq_refl).
Defined.

(** X17. Whatever requests a server handles, no transport is ever put
    into one of its three subscriber sets: a server that starts without
    subscribers, with whatever capabilities, never has one. *)
Theorem no_transport_is_ever_subscribed
    (str_of : value -> string) (str_exn : exn -> string)
    (subscript_error attribute_error : value -> string) (transport : nat)
    (_handle_resource : value -> result value)
    (_call_tool : value -> value -> result value)
    (srv : RpcServer.t) (reqs : list value) :
  RpcServer.unsubscribed srv ->
  RpcServer.unsubscribed
    (RpcServer.serve str_of str_exn subscript_error attribute_error transport
       _handle_resource _call_tool srv reqs).
Proof.
  unfold RpcServer.serve. revert srv.
  induction reqs as [|req reqs IH]; intros srv H; [exact H|].
  cbn [fold_left]. apply IH. now apply handle_unsubscribed.
Qed.

Lemma no_transport_is_ever_subscribed_witness :
  RpcServer.unsubscribed
    (RpcServer.serve (fun _ => EmptyString) Sample5.exn_text
       (fun _ => EmptyString) (fun _ => EmptyString) 0
       (fun _ => Ok VNone) (fun _ _ => Ok VNone)
       (RpcServer.with_capabilities RpcServer.init ["streaming"])
       [VDict Sample5.enable_logging; VDict Sample5.enable_logging]).
Proof.
  apply (no_transport_is_ever_subscribed
           (fun _ => EmptyString) Sample5.exn_text
           (fun _ => EmptyString) (fun _ => EmptyString) 0
           (fun _ => Ok VNone) (fun _ _ => Ok VNone)
           (RpcServer.with_capabilities RpcServer.init ["streaming"])
           [VDict Sample5.enable_logging; VDict Sample5.enable_logging]).
  repeat split.
Defined.

(** ** The answer of [find] *)

Section ScanFacts.
Import FindScan.
Variable query : string -> query_outcome.
Variable stopAfterFirst : bool.

Lemma total_size_app (a b : list value) :
  total_size (a ++ b) = total_size a + total_size b.
Proof.
  induction a as [|x a IH]; cbn [app total_size fold_right]; auto.
  fold (total_size (a ++ b)). fold (total_size a). lia.
Qed.



(** Every entry of [results] is a bucket built by the loop. *)
Lemma scan_buckets (coll_list : list string) :
  forall (results : list value) (total_docs : nat)
         (results' : list value) (total' : nat),
    Forall (fun b => exists c docs, b = bucket c docs) results ->
    scan query stopAfterFirst coll_list results total_docs
    = Ok (results', total') ->
    Forall (fun b => exists c docs, b = bucket c docs) results'.
Proof.
  induction coll_list as [|c rest IH];
    intros results total_docs results' total' Hall.
  - cbn [scan]. intros H. assert (E : results' = results) by congruence.
    now rewrite E.
  - cbn [scan]. destruct (query c) as [[|d ds]|text|]; try discriminate.
    + apply IH. exact Hall.
    + cbv zeta.
      assert (Hall' : Forall (fun b => exists c docs, b = bucket c docs)
                        (results ++ [bucket c (d :: ds)])).
      { apply Forall_app. split; [exact Hall|]. constructor; eauto. }
      destruct stopAfterFirst.
      * intros H.
        assert (E : results' = (results ++ [bucket c (d :: ds)])%list)
          by congruence.
        now rewrite E.
      * apply IH. exact Hall'.
Qed.


End ScanFacts.


(** ** What the trimming leaves *)

Section SlimFacts.
Variable isoformat : Z -> string.

Lemma trim_value_eq (doc : dict) :
  trim_value isoformat (VDict doc)
  = VDict (Dict.of_items (trim_items isoformat doc)).
Proof. reflexivity. Qed.

Lemma trim_elems_length (l : list value) (n : nat) :
  List.length (trim_elems isoformat l n) <= n.
Proof.
  revert n. induction l as [|y l IH]; intros [|n]; cbn; auto with arith.
Qed.

Lemma trim_elems_slim (l : list value) (n : nat) :
  slim_inside isoformat (VList l) ->
  forallb (fun y => match y with
                    | VDict _ => slim y
                    | _ => json_scalar y
                    end) (trim_elems isoformat l n) = true.
Proof.
  cbn [slim_inside]. intros Hall. revert n.
  induction Hall as [|y l Hy Hl IH]; intros [|n]; try reflexivity.
  cbn [trim_elems]. fold (trim_elems isoformat).
  cbn [forallb]. rewrite IH, andb_true_r.
  destruct y; try reflexivity.
  rewrite trim_value_eq in *. exact Hy.
Qed.

Lemma trim_items_slim (d : dict) (kv : string * value) :
  Forall (fun kv => slim_inside isoformat (snd kv)) d ->
  In kv (trim_items isoformat d) ->
  slim (VDict [kv]) = true.
Proof.
  induction 1 as [|[k x] d Hx Hd IH]; [intros []|].
  cbn [trim_items]. fold (trim_items isoformat).
  fold (is_big k). destruct (is_big k) eqn:Hbig; [exact IH|].
  cbn [snd] in Hx.
  assert (Hhead : forall y,
             slim (VDict [(k, y)]) = true ->
             In kv ((k, y) :: trim_items isoformat d) ->
             slim (VDict [kv]) = true).
  { intros y Hy [<-|Hin]; [exact Hy | exact (IH Hin)]. }
  destruct x; apply Hhead; cbn [slim forallb fst snd to_json_safe];
    rewrite Hbig; cbn [negb andb]; try reflexivity.
  - rewrite andb_true_r. apply andb_true_iff. split.
    + apply Nat.leb_le. apply trim_elems_length.
    + now apply trim_elems_slim.
  - rewrite trim_value_eq in *. rewrite andb_true_r. exact Hx.
Qed.

Lemma trim_value_slim (v : value) : slim_inside isoformat v.
Proof.
  induction v as [| | | | | |l IH|d IH] using value_nested_ind;
    try exact I.
  - cbn [slim_inside]. eapply Forall_impl; [|exact IH].
    intros y Hy. destruct y; auto.
  - cbn [slim_inside]. rewrite trim_value_eq. cbn [slim].
    apply forallb_forall. intros kv Hin.
    apply of_items_In in Hin.
    pose proof (trim_items_slim d kv IH Hin) as H.
    cbn [slim forallb] in H. rewrite andb_true_r in H. exact H.
Qed.

End SlimFacts.

Section CutFacts.
Variable isoformat : Z -> string.

Lemma trim_if_dict_slim (docs : list value) :
  forallb slim_if_dict (map (trim_if_dict isoformat) docs) = true.
Proof.
  induction docs as [|d docs IH]; [reflexivity|].
  cbn [map forallb]. rewrite IH, andb_true_r.
  destruct d; try reflexivity.
  cbn [trim_if_dict slim_if_dict]. unfold trim_document.
  rewrite trim_value_eq. cbn [as_dict].
  rewrite <- trim_value_eq. exact (trim_value_slim isoformat (VDict d)).
Qed.


End CutFacts.

(** X19. A trimmed document holds none of the big fields and no [__v],
    no ObjectId and no date as a value or as an element of a list, and
    no list of more than ten elements; the same holds in every document
    that it holds as a value or as an element of one of its lists. *)
Theorem trimmed_document_is_slim (isoformat : Z -> string) (doc : dict) :
  slim (VDict (trim_document isoformat doc)) = true.
Proof.
  unfold trim_document. rewrite trim_value_eq. cbn [as_dict].
  rewrite <- trim_value_eq. exact (trim_value_slim isoformat (VDict doc)).
Qed.


Section BucketFacts.
Variable isoformat : Z -> string.

Lemma trim_buckets (results : list value) :
  Forall (fun b => exists c docs, b = FindScan.bucket c docs) results ->
  exists bs,
    all_some (map (trim_bucket isoformat) results) = Some bs
    /\ List.length bs = List.length results
    /\ Forall cut_bucket bs.
Proof.
  induction 1 as [|b results (c & docs & ->) Hall (bs & Hbs & Hlen & Hcut)].
  - exists []. repeat split. constructor.
  - cbn [map all_some]. rewrite Hbs.
    unfold FindScan.bucket at 1. cbn [trim_bucket].
    change (Dict.get "documents"
              [("collection", VStr c); ("documents", VList docs);
               ("count", VInt (Z.of_nat (List.length docs)))])
      with (Some (VList docs)).
    cbn [first_docs]. eexists. split; [reflexivity|]. split.
    + cbn [List.length]. now rewrite Hlen.
    + constructor; [|exact Hcut].
      exists (map (trim_if_dict isoformat) (firstn _MAX_DOCS docs)).
      split; [reflexivity|]. split.
      * rewrite length_map. apply firstn_le_length.
      * apply trim_if_dict_slim.
Qed.

End BucketFacts.

(** X21. What the host hands to the model of an answer of [find] has as
    many buckets as the answer, each with at most 15 documents, all of
    them slim. *)
Theorem find_answer_reaches_the_model_cut_and_slim
    (cfg : Config.t) (listed : option (list string)) (duration_ms : Z)
    (query : string -> FindScan.query_outcome) (args : FindArgs.t)
    (isoformat : Z -> string) (str_of : value -> string) :
  match FindScan.assemble cfg listed duration_ms query args with
  | Raise _ => True
  | Ok answer =>
      exists raw_buckets buckets,
        Dict.get "results" (as_dict answer) = Some (VList raw_buckets)
        /\ Dict.get "results"
             (as_dict (trim_result isoformat str_of "find" answer))
           = Some (VList buckets)
        /\ List.length buckets = List.length raw_buckets
        /\ Forall cut_bucket buckets
  end.
Proof.
  unfold FindScan.assemble.
  match goal with
  | |- match (coll_list <- ?m ;; _) with _ => _ end =>
      destruct m as [coll_list|e]; [|exact I]
  end.
  cbn [bind].
  destruct (FindScan.scan query (FindArgs.stopAfterFirst args) coll_list [] 0)
    as [[results total]|e] eqn:Hscan; [|exact I].
  cbn [bind fst snd].
  pose proof (scan_buckets query (FindArgs.stopAfterFirst args) coll_list
                [] 0 results total (Forall_nil _) Hscan) as Hall.
  destruct (trim_buckets isoformat results Hall) as (bs & Hbs & Hlen & Hcut).
  exists results, bs. split; [reflexivity|].
  unfold trim_result.
  change (String.eqb "find" "find") with true. cbv iota.
  change (Dict.get "results"
            [("results", VList results);
             ("total_documents", VInt (Z.of_nat total));
             ("collections_scanned", VList (map VStr coll_list));
             ("database",
              VStr (str_or (FindArgs.database args) (Config.db_name cfg)));
             ("duration_ms", VInt duration_ms)])
    with (Some (VList results)).
  cbn [list_or_empty]. rewrite Hbs. cbn [or_raw as_dict].
  rewrite DictFacts.get_set_same. auto.
Qed.

(** ** The lists of the configuration *)

Section ParseFacts.
Import ConfigParse.

Lemma split_commas_not_nil (s : string) : split_commas s <> [].
Proof.
  induction s as [|c t IH]; cbn [split_commas]; [discriminate|].
  destruct (Ascii.eqb c comma); [discriminate|].
  destruct (split_commas t); [contradiction|discriminate].
Qed.

Lemma split_commas_comma_free (s x : string) :
  In x (split_commas s) -> Str.mem comma x = false.
Proof.
  revert x. induction s as [|c t IH]; intros x; cbn [split_commas].
  - intros [<-|[]]. reflexivity.
  - destruct (Ascii.eqb c comma) eqn:Hc.
    + intros [<-|H]; [reflexivity | now apply IH].
    + destruct (split_commas t) as [|piece rest].
      * intros [<-|[]]. cbn [Str.mem]. rewrite Ascii.eqb_sym, Hc. reflexivity.
      * intros [<-|H].
        -- cbn [Str.mem]. rewrite Ascii.eqb_sym, Hc.
           cbn [orb]. apply IH. now left.
        -- apply IH. now right.
Qed.

Lemma mem_lstrip (c : ascii) (s : string) :
  Str.mem c s = false -> Str.mem c (Str.lstrip s) = false.
Proof.
  induction s as [|x t IH]; cbn [Str.lstrip Str.mem]; auto.
  intros H. apply orb_false_iff in H. destruct H as [Hx Ht].
  destruct (Str.is_space x); [now apply IH|].
  cbn [Str.mem]. now rewrite Hx, Ht.
Qed.

Lemma mem_rstrip (c : ascii) (s : string) :
  Str.mem c s = false -> Str.mem c (Str.rstrip s) = false.
Proof.
  induction s as [|x t IH]; cbn [Str.rstrip Str.mem]; auto.
  intros H. apply orb_false_iff in H. destruct H as [Hx Ht].
  specialize (IH Ht).
  destruct (Str.rstrip t) as [|a r].
  - destruct (Str.is_space x); [reflexivity|].
    cbn [Str.mem]. now rewrite Hx.
  - cbn [Str.mem] in *. now rewrite Hx, IH.
Qed.

Lemma stripped_pieces_clean (val x : string) :
  In x (stripped_pieces val) -> clean_name x = true.
Proof.
  unfold stripped_pieces. intros H.
  apply in_map_iff in H. destruct H as (p & <- & Hp).
  apply filter_In in Hp. destruct Hp as [Hin Hne].
  unfold clean_name. rewrite Hne, strip_idempotent, String.eqb_refl.
  cbn [andb]. apply negb_true_iff.
  unfold Str.strip. apply mem_rstrip, mem_lstrip.
  now apply (split_commas_comma_free val).
Qed.

End ParseFacts.

(** X22. Every name that [load_config] puts into the allowed
    collections, the non-tenant collections or a list of disabled tools
    is non-empty, has no white space around it and holds no comma. *)
Theorem configured_names_are_clean (val : string) :
  forallb ConfigParse.clean_name (ConfigParse.parse_list val) = true
  /\ forallb ConfigParse.clean_name (ConfigParse.non_tenant val) = true
  /\ match ConfigParse.allowed val with
     | Some names => forallb ConfigParse.clean_name names = true
     | None => True
     end.
Proof.
  assert (H : forall v,
             forallb ConfigParse.clean_name (ConfigParse.stripped_pieces v)
             = true).
  { intros v. apply forallb_forall. intros x. apply stripped_pieces_clean. }
  split; [|split].
  - unfold ConfigParse.parse_list.
    destruct (non_empty (Str.strip val)); [apply H | reflexivity].
  - apply H.
  - unfold ConfigParse.allowed. cbv zeta.
    destruct (_ || _); [exact I | apply H].
Qed.

Section RoundTrip.
Import ConfigParse.










End RoundTrip.


